(** * Australian Digital Divide Model: household decision engine and firm
      adaptation engine

    A shallow embedding of [ADD_model_python] (the agent-based model of
    households choosing internet bundles from competing ISPs) together with
    the properties stated about it.

    Conventions of the embedding.
    - Python floats and ints that carry money, capacities, probabilities and
      ratios are exact rationals ([Q]); comparisons are the boolean
      comparisons of [Q].  Counters and indexes are [nat] or [Z].
    - A Python exception aborts the computation: [Raise e].  A [while] loop
      that is not structurally bounded takes a fuel argument and yields
      [OutOfFuel] when the fuel is exhausted.
    - The module-level [random] generator and the global [add_to_seed]
      counter are explicit state.  The generator itself is abstract: a type
      of generator states, the state produced by [random.seed n], and the
      draw functions. *)

From Stdlib Require Import QArith Qround ZArith List String Bool Lia Lqa.
From stdpp Require Import base list.

Set Default Proof Using "Type".

(* ================================================================== *)
(** * Results of Python computations                                     *)
(* ================================================================== *)

(** The exceptions the program can raise, told apart by their origin:
    - [ZeroDivisionError]: a division by zero;
    - [IndexError]: a list subscript out of range;
    - [EmptySequence]: the [IndexError] of [random.choice] or
      [random.choices] on an empty population;
    - [EmptyRange]: the [ValueError] of [random.randint(a, b)] with [b < a];
    - [BadWeights]: the [ValueError] of [random.choices] when the weights
      do not match the population or their total is not positive;
    - [TypeError]: an operation on [None];
    - [UnboundLocalError]: a local variable read before assignment. *)
Inductive exn : Type :=
| ZeroDivisionError
| IndexError
| EmptySequence
| EmptyRange
| BadWeights
| TypeError
| UnboundLocalError.

Inductive result (A : Type) : Type :=
| Ok (a : A)
| Raise (e : exn)
| OutOfFuel.

Arguments Ok {A} a.
Arguments Raise {A} e.
Arguments OutOfFuel {A}.

(** State-and-exception monad: a computation reads and updates a state of
    type [S] and either returns or raises. *)
Definition St (S A : Type) : Type := S -> result (A * S).

Definition st_ret {S A} (a : A) : St S A := fun s => Ok (a, s).

Definition st_bind {S A B} (m : St S A) (k : A -> St S B) : St S B :=
  fun s => match m s with
           | Ok (a, s') => k a s'
           | Raise e => Raise e
           | OutOfFuel => OutOfFuel
           end.

Definition st_raise {S A} (e : exn) : St S A := fun _ => Raise e.
Definition st_out_of_fuel {S A} : St S A := fun _ => OutOfFuel.
Definition st_get {S} : St S S := fun s => Ok (s, s).
Definition st_put {S} (s : S) : St S unit := fun _ => Ok (tt, s).
Definition st_lift {S A} (r : result A) : St S A :=
  fun s => match r with
           | Ok a => Ok (a, s)
           | Raise e => Raise e
           | OutOfFuel => OutOfFuel
           end.

Notation "'let*' x ':=' m 'in' k" := (st_bind m (fun x => k))
  (at level 10, x pattern, m at level 200, k at level 200).
Notation "m ;;; k" := (st_bind m (fun _ => k))
  (at level 100, right associativity).

(** Pure results (no state), used by the functions that draw nothing. *)
Definition res_bind {A B} (r : result A) (k : A -> result B) : result B :=
  match r with
  | Ok a => k a
  | Raise e => Raise e
  | OutOfFuel => OutOfFuel
  end.

Notation "'let+' x ':=' m 'in' k" := (res_bind m (fun x => k))
  (at level 10, x pattern, m at level 200, k at level 200).

Fixpoint res_map {A B} (f : A -> result B) (l : list A) : result (list B) :=
  match l with
  | [] => Ok []
  | x :: xs => let+ y := f x in let+ ys := res_map f xs in Ok (y :: ys)
  end.

(* ================================================================== *)
(** * Numbers                                                            *)
(* ================================================================== *)

Definition Qltb (x y : Q) : bool := negb (Qle_bool y x).
Definition Qgtb (x y : Q) : bool := Qltb y x.
Definition Qgeb (x y : Q) : bool := Qle_bool y x.

(** Python's [x / y]: raises [ZeroDivisionError] on a zero divisor. *)
Definition pydiv (x y : Q) : result Q :=
  if Qeq_bool y 0 then Raise ZeroDivisionError else Ok (x / y)%Q.

(** Python's [x // y] on floats, as a rational. *)
Definition pyfloordiv (x y : Q) : result Q :=
  if Qeq_bool y 0 then Raise ZeroDivisionError
  else Ok (inject_Z (Qfloor (x / y)))%Q.

(** [x == None] *)
Definition is_none {A} (o : option A) : bool :=
  match o with None => true | Some _ => false end.

Definition Qsum (l : list Q) : Q := fold_left Qplus l 0%Q.

(* ================================================================== *)
(** * Data model                                                         *)
(* ================================================================== *)

(** Element 1 of a plan: the service type string, or, once the plan has
    been taken off the market by a plan experiment, the position of its
    replacement in that month's [replacements] array. *)
Inductive service : Type :=
| mobile
| wifi
| replaced_at (n : nat).

Definition service_eqb (a b : service) : bool :=
  match a, b with
  | mobile, mobile => true
  | wifi, wifi => true
  | replaced_at n, replaced_at m => Nat.eqb n m
  | _, _ => false
  end.

(** A plan is the six-element list
    [[ISP name, service type, speed or GB, footprint, price, supplier]]. *)
Record plan : Type := mkPlan {
  plan_isp : string;
  plan_service : service;
  plan_capacity : Q;
  plan_footprint : string;
  plan_price : Q;
  plan_supplier : string
}.

Definition PLAN_GONE : string := "PLAN GONE".

(** The last two elements of a bundle-evaluation tuple: [True], [False],
    [None] (the leg is absent) or the string ["dummy"]. *)
Inductive flag : Type := PyTrue | PyFalse | PyNone | PyDummy.

Definition flag_eqb (a b : flag) : bool :=
  match a, b with
  | PyTrue, PyTrue | PyFalse, PyFalse | PyNone, PyNone | PyDummy, PyDummy => true
  | _, _ => false
  end.

Definition flag_of_bool (b : bool) : flag := if b then PyTrue else PyFalse.

(** A bundle-evaluation tuple
    [(price, value, minimum_quality_mobile, minimum_quality_wifi)]. *)
Record eval : Type := mkEval {
  ev_price : Q;
  ev_value : Q;
  ev_mqm : flag;
  ev_mqw : flag
}.

(** The list handed to [decision_tree]: a list of [(mobile, wifi)] tuples
    or a list of single plans ([isinstance(bundles[0], tuple)]). *)
Inductive options (P : Type) : Type :=
| bundles_of (l : list (P * P))
| plans_of (l : list P).

Arguments bundles_of {P} l.
Arguments plans_of {P} l.

(** An agent of the grid:
    [[location, populated, income, bundle, percent of income spent]];
    [location] is [(row, cell)], that is [(y, x)]. *)
Record person (P : Type) : Type := mkPerson {
  location : nat * nat;
  populated : bool;
  income : Q;
  bundle : option P * option P;
  percent_spent : option Q
}.

Arguments mkPerson {P}.
Arguments location {P}.
Arguments populated {P}.
Arguments income {P}.
Arguments bundle {P}.
Arguments percent_spent {P}.

(** What [decision_tree] returns: [None], the string ['no change'] or the
    index of the chosen option. *)
Inductive choice : Type :=
| no_option
| no_change
| pick (i : nat).

Inductive strategy : Type := pick_cheaper | pick_better_value.

(** A price experiment [[(plan, index), change, months_left, prev_profit]]. *)
Record price_experiment (P : Type) : Type := mkPriceExp {
  pe_plan : P;
  pe_index : nat;
  pe_change : Q;
  pe_months_left : Z;
  pe_prev_profit : Q
}.

Arguments mkPriceExp {P}.
Arguments pe_plan {P}.
Arguments pe_index {P}.
Arguments pe_change {P}.
Arguments pe_months_left {P}.
Arguments pe_prev_profit {P}.

(** A plan experiment [[(plan, index), 0 or 1, months left, prev profit]];
    element 1 is [1] when the experiment added a plan and [0] when it took
    one away. *)
Record plan_experiment (P : Type) : Type := mkPlanExp {
  te_plan : P;
  te_index : nat;
  te_added : bool;
  te_months_left : Z;
  te_prev_profit : Q
}.

Arguments mkPlanExp {P}.
Arguments te_plan {P}.
Arguments te_index {P}.
Arguments te_added {P}.
Arguments te_months_left {P}.
Arguments te_prev_profit {P}.

(** An entry of the list [ISPs]:
    [[0: name, 1: plans offered, 2: mobile offered?, 3: mobile locations,
      4: wifi offered?, 5: wifi locations, 6: price experiment,
      7: plan experiment, 8: monthly profit, 9: moneypool]];
    elements 3 and 5 are [None] when the service is not offered, elements
    6 and 7 are [False] when no experiment runs. *)
Record ISP (P : Type) : Type := mkISP {
  isp_name : string;
  plans_offered : list P;
  mobile_offered : bool;
  mobile_locations_offered : option (list nat);
  wifi_offered : bool;
  wifi_locations_offered : option (list nat);
  price_exp : option (price_experiment P);
  tech_exp : option (plan_experiment P);
  profit : Q;
  moneypool : Q
}.

Arguments mkISP {P}.
Arguments isp_name {P}.
Arguments plans_offered {P}.
Arguments mobile_offered {P}.
Arguments mobile_locations_offered {P}.
Arguments wifi_offered {P}.
Arguments wifi_locations_offered {P}.
Arguments price_exp {P}.
Arguments tech_exp {P}.
Arguments profit {P}.
Arguments moneypool {P}.

(** [l[i]] *)
Definition subscript {A} (l : list A) (i : nat) : result A :=
  match l !! i with
  | Some a => Ok a
  | None => Raise IndexError
  end.

(** [l[:i] + l[i+1:]] *)
Definition without {A} (l : list A) (i : nat) : list A :=
  take i l ++ drop (S i) l.

(** [quad in locations] where [locations] may be [None]. *)
Definition quad_in (quad : nat) (locations : option (list nat)) : result bool :=
  match locations with
  | Some l => Ok (existsb (Nat.eqb quad) l)
  | None => Raise TypeError
  end.

(** [offered and quad in locations] *)
Definition serves (offered : bool) (locations : option (list nat)) (quad : nat)
    : result bool :=
  if offered then quad_in quad locations else Ok false.

(** The quadrant of a grid location [(y, x)]. *)
Definition quad_of (loc : nat * nat) : nat :=
  let y := fst loc in
  let x := snd loc in
  if (x <? 50)%nat then (if (y <? 50)%nat then 0 else 1)%nat
  else (if (y <? 50)%nat then 2 else 3)%nat.

Definition plan_available_in_my_area (pl : plan) (quad : nat) : bool :=
  if (plan_isp pl =? PLAN_GONE)%string then false
  else
    let footprint := plan_footprint pl in
    if service_eqb (plan_service pl) wifi then
      if (quad =? 0)%nat && (footprint =? "urban")%string then true
      else if ((quad =? 1)%nat || (quad =? 2)%nat) && (footprint =? "regional")%string then true
      else if negb (quad =? 0)%nat && (footprint =? "remote")%string then true
      else false
    else
      if (footprint =? "remote")%string then true
      else if (footprint =? "regional")%string && negb (quad =? 3)%nat then true
      else false.

Definition round_up_to_nearest_001 (number : Q) : Q :=
  if Qgtb number 0
  then (inject_Z (Qfloor ((number + 0.0005) / 0.001)) * 0.001)%Q
  else (inject_Z (Qfloor ((number - 0.0005) / 0.001)) * 0.001)%Q.

(** One pass of [for p in range(len(probs_array))] inside the [while] loop
    of [ensure_adds_to_1]: [inr l] when the pass executed
    [return probs_array], [inl l] when it ran to the end of the array.
    The statement [amount_over - 0.001] of the source has no effect, so
    [amount_over] is the same in every iteration. *)
Fixpoint shave_pass (amount_over : Q) (probs_array : list Q)
    : list Q + list Q :=
  match probs_array with
  | [] => inl []
  | p :: rest =>
      if Qgtb p 0.001 then
        if Qgtb amount_over 0.001 then
          match shave_pass amount_over rest with
          | inl rest' => inl ((p - 0.001)%Q :: rest')
          | inr rest' => inr ((p - 0.001)%Q :: rest')
          end
        else inr ((p - amount_over)%Q :: rest)
      else
        match shave_pass amount_over rest with
        | inl rest' => inl (p :: rest')
        | inr rest' => inr (p :: rest')
        end
  end.

(** [while amount_over > 0: ...]; falling out of the loop returns [None]. *)
Fixpoint shave_loop (fuel : nat) (amount_over : Q) (probs_array : list Q)
    : result (option (list Q)) :=
  if Qgtb amount_over 0 then
    match fuel with
    | O => OutOfFuel
    | S fuel' =>
        match shave_pass amount_over probs_array with
        | inr l => Ok (Some l)
        | inl l => shave_loop fuel' amount_over l
        end
    end
  else Ok None.

(** [list(itertools.accumulate(weights))] *)
Fixpoint accumulate_from (acc : Q) (weights : list Q) : list Q :=
  match weights with
  | [] => []
  | w :: ws => (acc + w)%Q :: accumulate_from (acc + w)%Q ws
  end.

(** [bisect.bisect_right(a, x, lo, hi)]; the interval halves at each step,
    so [hi - lo] steps are enough. *)
Fixpoint bisect_steps (steps : nat) (a : list Q) (x : Q) (lo hi : nat) : nat :=
  match steps with
  | O => lo
  | S steps' =>
      if (lo <? hi)%nat then
        let mid := ((lo + hi) / 2)%nat in
        match a !! mid with
        | Some a_mid =>
            if Qltb x a_mid then bisect_steps steps' a x lo mid
            else bisect_steps steps' a x (S mid) hi
        | None => lo
        end
      else lo
  end.

Definition bisect (a : list Q) (x : Q) (lo hi : nat) : nat :=
  bisect_steps (S (hi - lo)) a x lo hi.

(* ================================================================== *)
(** * Household decision engine: evaluation of the options               *)
(* ================================================================== *)

Section Evaluation.
(** Plans are Python objects shared between the firms' rosters and the
    households' bundles.  The engine is written over a type [P] of plan
    handles and a [view] that reads the fields of a handle. *)
Context {P : Type} (view : P -> plan).

Definition max_capacity (caps : list Q) : Q :=
  fold_left (fun m c => if Qgtb c m then c else m) caps 0%Q.

Definition eval_bundle (max_GB max_Mbps : Q) (b : P * P) : result eval :=
  let m := view (fst b) in
  let w := view (snd b) in
  let price := (plan_price m + plan_price w)%Q in
  let+ vm := pydiv (plan_capacity m) max_GB in
  let+ vw := pydiv (plan_capacity w) max_Mbps in
  let value := ((vm + vw) / 2)%Q in
  Ok (mkEval price value
             (flag_of_bool (Qgtb (plan_capacity m) 61))
             (flag_of_bool (Qgtb (plan_capacity w) 25))).

Definition eval_plan (max_value : Q) (p : P) : result eval :=
  let pl := view p in
  let price := plan_price pl in
  let+ value := pydiv (plan_capacity pl) max_value in
  match plan_service pl with
  | mobile => Ok (mkEval price value (flag_of_bool (Qgtb (plan_capacity pl) 61)) PyNone)
  | wifi => Ok (mkEval price value PyNone (flag_of_bool (Qgtb (plan_capacity pl) 25)))
  | replaced_at _ => Ok (mkEval price value PyNone PyNone)
  end.

Definition create_bundle_eval_list (bundles : options P) : result (list eval) :=
  match bundles with
  | bundles_of [] => Raise IndexError
  | plans_of [] => Raise IndexError
  | bundles_of l =>
      let max_GB := max_capacity (map (fun b => plan_capacity (view (fst b))) l) in
      let max_Mbps := max_capacity (map (fun b => plan_capacity (view (snd b))) l) in
      res_map (eval_bundle max_GB max_Mbps) l
  | plans_of l =>
      let max_value := max_capacity (map (fun p => plan_capacity (view p)) l) in
      res_map (eval_plan max_value) l
  end.

(** [create_bundle_eval_list([x])[0]] *)
Definition eval_single (bundles : options P) : result eval :=
  let+ l := create_bundle_eval_list bundles in
  match l with
  | e :: _ => Ok e
  | [] => Raise IndexError
  end.

Definition options_empty (bundles : options P) : bool :=
  match bundles with
  | bundles_of [] | plans_of [] => true
  | _ => false
  end.

(** [bundles[0][1] == s] for a service string [s]: on a list of tuples
    element 1 of the first option is a plan, never a string. *)
Definition first_option_service_is (bundles : options P) (s : service) : bool :=
  match bundles with
  | plans_of (p :: _) => service_eqb (plan_service (view p)) s
  | _ => false
  end.

Definition is_tuple_list (bundles : options P) : bool :=
  match bundles with
  | bundles_of _ => true
  | plans_of _ => false
  end.
End Evaluation.

(** The placeholder [(1000000000, 0, "dummy", "dummy")]. *)
Definition dummy_bundle : eval := mkEval 1000000000 0 PyDummy PyDummy.

(** [current_best[0] == 'dummy']: element 0 of every evaluation tuple,
    the placeholder included, is a number, so the comparison with the
    string never holds. *)
Definition price_is_dummy_string (e : eval) : bool := false.

(* ================================================================== *)
(** * Initialising the firms                                             *)
(* ================================================================== *)

Definition mem_quad (q : nat) (l : list nat) : bool := existsb (Nat.eqb q) l.

Fixpoint insert_sorted (n : nat) (l : list nat) : list nat :=
  match l with
  | [] => [n]
  | m :: rest => if (n <=? m)%nat then n :: l else m :: insert_sorted n rest
  end.

(** [l.sort()] on a list of quadrant numbers. *)
Definition sort_quads (l : list nat) : list nat := fold_right insert_sorted [] l.

(** The loop of [translate_footprints_into_quads] over the remaining
    plans, [acc] being [total_locations_operational]. *)
Fixpoint translate_footprints_loop (plans : list plan) (for_mobile : bool)
    (acc : list nat) : list nat :=
  match plans with
  | [] => acc
  | p :: rest =>
      let location := plan_footprint p in
      if negb for_mobile && service_eqb (plan_service p) wifi then
        if (location =? "remote")%string then
          let acc := if negb (mem_quad 3 acc) then acc ++ [3] else acc in
          (* satellite assumed to be available in regional areas too *)
          let acc := if negb (mem_quad 1 acc) then acc ++ [1; 2] else acc in
          translate_footprints_loop rest for_mobile acc
        else if (location =? "regional")%string then
          let acc := if negb (mem_quad 1 acc) then acc ++ [1; 2] else acc in
          translate_footprints_loop rest for_mobile acc
        else
          let acc := if negb (mem_quad 0 acc) then acc ++ [0] else acc in
          translate_footprints_loop rest for_mobile acc
      else if for_mobile && service_eqb (plan_service p) mobile then
        if (location =? "remote")%string then [0; 1; 2; 3]    (* break *)
        else if (location =? "regional")%string
        then translate_footprints_loop rest for_mobile [0; 1; 2]
        else translate_footprints_loop rest for_mobile [0]
      else translate_footprints_loop rest for_mobile acc
  end.

Definition translate_footprints_into_quads (plans : list plan) (for_mobile : bool)
    : list nat :=
  sort_quads (translate_footprints_loop plans for_mobile []).

(** The inner loop of the duplicate removal in [define_ISPs_per_location]:
    [while j < len(quad)] deletes every later element equal to
    [quad[i]]. *)
Fixpoint delete_later_copies (x : nat) (later : list nat) : list nat :=
  match later with
  | [] => []
  | y :: rest => if (x =? y)%nat then delete_later_copies x rest
                 else y :: delete_later_copies x rest
  end.

(** The outer loop [while i < len(quad)]: at most [len(quad)] rounds. *)
Fixpoint remove_duplicates (rounds : nat) (quad : list nat) : list nat :=
  match rounds, quad with
  | S rounds', x :: later => x :: remove_duplicates rounds' (delete_later_copies x later)
  | _, _ => quad
  end.

(** The quadrants firm [i] is appended to, in the order of the source:
    its wifi quadrants, then its mobile quadrants. *)
Definition quads_of_firm {P} (isp : ISP P) : result (list nat) :=
  let+ wifi_quads :=
    if wifi_offered isp then
      match wifi_locations_offered isp with
      | Some l => Ok l
      | None => Raise TypeError
      end
    else Ok [] in
  let+ mobile_quads :=
    if mobile_offered isp then
      match mobile_locations_offered isp with
      | Some l => Ok l
      | None => Raise TypeError
      end
    else Ok [] in
  Ok (wifi_quads ++ mobile_quads).

(** [operator_locations[quad].append(i)] *)
Definition append_operator (operator_locations : list (list nat)) (quad i : nat)
    : result (list (list nat)) :=
  let+ l := subscript operator_locations quad in
  Ok (<[quad := l ++ [i]]> operator_locations).

Fixpoint append_operator_all (operator_locations : list (list nat))
    (quads : list nat) (i : nat) : result (list (list nat)) :=
  match quads with
  | [] => Ok operator_locations
  | quad :: rest =>
      let+ ops := append_operator operator_locations quad i in
      append_operator_all ops rest i
  end.

Fixpoint collect_operators {P} (ISPs : list (ISP P)) (i : nat)
    (operator_locations : list (list nat)) : result (list (list nat)) :=
  match ISPs with
  | [] => Ok operator_locations
  | isp :: rest =>
      let+ quads := quads_of_firm isp in
      let+ ops := append_operator_all operator_locations quads i in
      collect_operators rest (S i) ops
  end.

Definition define_ISPs_per_location {P} (ISPs : list (ISP P))
    : result (list (list nat)) :=
  let+ operator_locations := collect_operators ISPs 0 [[]; []; []; []] in
  Ok (map (fun quad => remove_duplicates (length quad) quad) operator_locations).

(** [separate_plans_by_ISP] on the table of plans; a plan is referred to by
    its row number. *)
Fixpoint separate_plans_loop (rows : list (nat * plan)) (current_provider : string)
    (current_provider_plans : list nat) : list (list nat) :=
  match rows with
  | [] => [current_provider_plans]
  | (r, row) :: rest =>
      if (plan_isp row =? current_provider)%string
      then separate_plans_loop rest current_provider (current_provider_plans ++ [r])
      else current_provider_plans :: separate_plans_loop rest (plan_isp row) [r]
  end.

Definition separate_plans_by_ISP (plans : list plan) : result (list (list nat)) :=
  match plans with
  | [] => Raise IndexError
  | first :: _ =>
      Ok (separate_plans_loop (combine (seq 0 (length plans)) plans) (plan_isp first) [])
  end.

Definition create_ISP (plans : list plan) (plans_offered : list nat)
    (profit InitialMoneyPool : Q) : result (ISP nat) :=
  let+ rows := res_map (subscript plans) plans_offered in
  match rows, last rows with
  | first :: _, Some final =>
      let mobile_offered := service_eqb (plan_service first) mobile in
      let wifi_offered := service_eqb (plan_service final) wifi in
      Ok (mkISP (plan_isp first) plans_offered
                mobile_offered
                (if mobile_offered then Some (translate_footprints_into_quads rows true)
                 else None)
                wifi_offered
                (if wifi_offered then Some (translate_footprints_into_quads rows false)
                 else None)
                None None profit InitialMoneyPool)
  | _, _ => Raise IndexError
  end.

Fixpoint create_ultimate_list_of_ISPs (plans : list plan)
    (separated_plans : list (list nat)) (initial_profits : list Q)
    (InitialMoneyPool : Q) : result (list (ISP nat)) :=
  match separated_plans with
  | [] => Ok []
  | plans_offered :: rest =>
      match initial_profits with
      | [] => Raise IndexError
      | profit :: profits =>
          let+ isp := create_ISP plans plans_offered profit InitialMoneyPool in
          let+ isps := create_ultimate_list_of_ISPs plans rest profits InitialMoneyPool in
          Ok (isp :: isps)
      end
  end.

(** [get_initial_profits]: the market shares, normalised. *)
Definition get_initial_profits (avg_shares : list Q) : result (list Q) :=
  let total := Qsum avg_shares in
  res_map (fun share => pydiv share total) avg_shares.

(** [initialise_ISPs], after the data files have been read: [plans] is the
    table of plans and [avg_shares] the market-share column. *)
Definition initialise_ISPs (plans : list plan) (avg_shares : list Q)
    (InitialMoneyPool : Q) : result (list (ISP nat) * list (list nat)) :=
  let+ separated_plans := separate_plans_by_ISP plans in
  let+ initial_profits := get_initial_profits avg_shares in
  let+ ISPs := create_ultimate_list_of_ISPs plans separated_plans initial_profits
                                            InitialMoneyPool in
  let+ operator_locations := define_ISPs_per_location ISPs in
  Ok (ISPs, operator_locations).

(* ================================================================== *)
(** * Firm economics                                                     *)
(* ================================================================== *)

(** A local variable of a Python function: unbound until first assigned. *)
Inductive local (A : Type) : Type :=
| unbound
| bound (a : A).

Arguments unbound {A}.
Arguments bound {A} a.

Definition read_local {A} (v : local A) : result A :=
  match v with
  | bound a => Ok a
  | unbound => Raise UnboundLocalError
  end.

(** [l[i] += v] *)
Definition add_at (l : list Q) (i : nat) (v : Q) : result (list Q) :=
  let+ x := subscript l i in
  Ok (<[i := (x + v)%Q]> l).

(** [len(locations)] where [locations] may be [None]. *)
Definition len_locations (locations : option (list nat)) : result Q :=
  match locations with
  | Some l => Ok (inject_Z (Z.of_nat (length l)))
  | None => Raise TypeError
  end.

(** The wholesale cost NBN Co charges for a speed; [None] above the last
    tier. *)
Definition wifi_wholesale_cost (speed : Q) : option Q :=
  let speeds := [12; 25; 50; 100; 250; 1000]%Q in
  let prices := [12; 26; 50; 55; 60; 70]%Q in
  match List.find (fun tier => Qle_bool speed (fst tier)) (combine speeds prices) with
  | Some tier => Some (snd tier)
  | None => None
  end.

(** Removal of the first occurrence of [firm] from a quadrant's operators:
    the [for operator in range(len(...))] loop with its [break]. *)
Fixpoint remove_operator (firm : nat) (operators : list nat) : list nat :=
  match operators with
  | [] => []
  | o :: rest => if (o =? firm)%nat then rest else o :: remove_operator firm rest
  end.

Section Economics.
Context {P : Type} (view : P -> plan).

(** [for idx in range(len(ISPs)): if ISPs[idx][0] == name: index = idx],
    starting at position [idx]. *)
Fixpoint last_index_named (ISPs : list (ISP P)) (name : string) (idx : nat)
    (index : local (option nat)) : local (option nat) :=
  match ISPs with
  | [] => index
  | isp :: rest =>
      last_index_named rest name (S idx)
        (if (isp_name isp =? name)%string then bound (Some idx) else index)
  end.

(** The index variable of one leg after the search: [None] when the leg
    is absent, otherwise the last firm of that name, and the value left
    by the previous household when no firm has that name. *)
Definition locate (ISPs : list (ISP P)) (leg : option P)
    (index : local (option nat)) : local (option nat) :=
  match leg with
  | None => bound None
  | Some pl => last_index_named ISPs (plan_isp (view pl)) 0 index
  end.

(** The locals that survive from one grid cell to the next in step 1. *)
Record sales : Type := mkSales {
  sales_mobile_index : local (option nat);
  sales_wifi_index : local (option nat);
  sales_profits : list Q;
  sales_nbn_co_revenue : Q
}.

Definition add_mobile_revenue (LargeMarkup SmallMarkup : Q) (mobile_plan : option P)
    (mobile_index : option nat) (profits : list Q) : result (list Q) :=
  match mobile_index with
  | None => Ok profits
  | Some idx =>
      match mobile_plan with
      | None => Raise TypeError
      | Some pl =>
          let markup := if (idx <=? 3)%nat then LargeMarkup else SmallMarkup in
          let+ mobile_wholesale_expense :=
            pydiv (plan_price (view pl)) (markup / 100) in
          (* profits from retail *)
          let+ profits :=
            add_at profits idx (plan_price (view pl) - mobile_wholesale_expense) in
          (* profits from wholesale *)
          let supplier := plan_supplier (view pl) in
          if (supplier =? "Telstra")%string then
            add_at profits 0 mobile_wholesale_expense
          else if (supplier =? "Optus")%string then
            add_at profits 2 mobile_wholesale_expense
          else if (supplier =? "TPG")%string then
            let+ profits := add_at profits 1 (0.5 * mobile_wholesale_expense) in
            add_at profits 3 (0.5 * mobile_wholesale_expense)
          else Ok profits
      end
  end.

Definition add_wifi_revenue (wifi_plan : option P) (wifi_index : option nat)
    (profits : list Q) (nbn_co_revenue : Q) : result (list Q * Q) :=
  match wifi_index with
  | None => Ok (profits, nbn_co_revenue)
  | Some idx =>
      match wifi_plan with
      | None => Raise TypeError
      | Some pl =>
          match wifi_wholesale_cost (plan_capacity (view pl)) with
          | None =>
              (* [wifi_plan[4] - None], once the subscript has succeeded *)
              let+ _ := subscript profits idx in Raise TypeError
          | Some wifi_wholesale_expense =>
              let+ profits :=
                add_at profits idx (plan_price (view pl) - wifi_wholesale_expense) in
              if (plan_supplier (view pl) =? "NBN Co")%string
              then Ok (profits, (nbn_co_revenue + wifi_wholesale_expense)%Q)
              else Ok (profits, nbn_co_revenue)
          end
      end
  end.

(** Step 1 for one grid cell. *)
Definition cell_sales (ISPs : list (ISP P)) (LargeMarkup SmallMarkup : Q)
    (st : sales) (cell : person P) : result sales :=
  if populated cell then
    let mobile_plan := fst (bundle cell) in
    let wifi_plan := snd (bundle cell) in
    let mobile_index := locate ISPs mobile_plan (sales_mobile_index st) in
    let wifi_index := locate ISPs wifi_plan (sales_wifi_index st) in
    let+ m_idx := read_local mobile_index in
    let+ profits := add_mobile_revenue LargeMarkup SmallMarkup mobile_plan m_idx (sales_profits st) in
    let+ w_idx := read_local wifi_index in
    let+ (profits, nbn) := add_wifi_revenue wifi_plan w_idx profits (sales_nbn_co_revenue st) in
    Ok (mkSales mobile_index wifi_index profits nbn)
  else Ok st.

Fixpoint all_sales (ISPs : list (ISP P)) (LargeMarkup SmallMarkup : Q)
    (st : sales) (grid : list (person P)) : result sales :=
  match grid with
  | [] => Ok st
  | cell :: rest =>
      let+ st := cell_sales ISPs LargeMarkup SmallMarkup st cell in
      all_sales ISPs LargeMarkup SmallMarkup st rest
  end.

(** The marketing expense deducted in step 2. *)
Definition marketing_expenditure (MarketingBudget : Q) (isp : ISP P) : Q :=
  if Qeq_bool (profit isp) 0
  then (MarketingBudget * moneypool isp)%Q     (* paid marketing out of savings *)
  else (MarketingBudget * profit isp)%Q.       (* paid marketing out of profit *)

(** Step 2 for firm number [i]: its fixed costs. *)
Definition total_expenditure (ResellerOperatingFee WholesalerOperatingFee
    MarketingBudget : Q) (i : nat) (isp : ISP P) : result Q :=
  let+ mobile_locations :=
    if mobile_offered isp then len_locations (mobile_locations_offered isp) else Ok 0%Q in
  let+ wifi_locations :=
    if wifi_offered isp then len_locations (wifi_locations_offered isp) else Ok 0%Q in
  let locations_operational := (0 + mobile_locations + wifi_locations)%Q in
  let reseller_operation_cost := (ResellerOperatingFee * locations_operational)%Q in
  let total := (reseller_operation_cost + marketing_expenditure MarketingBudget isp)%Q in
  if (i =? 0)%nat || (i =? 2)%nat then
    let+ n := len_locations (mobile_locations_offered isp) in
    Ok (total + WholesalerOperatingFee * n)%Q
  else if (i =? 1)%nat || (i =? 3)%nat then
    let+ n := len_locations (mobile_locations_offered isp) in
    Ok (total + 0.5 * WholesalerOperatingFee * n)%Q
  else Ok total.

Fixpoint deduct_fixed_costs (ResellerOperatingFee WholesalerOperatingFee
    MarketingBudget : Q) (ISPs : list (ISP P)) (i : nat) (profits : list Q)
    : result (list Q) :=
  match ISPs with
  | [] => Ok profits
  | isp :: rest =>
      let+ total := total_expenditure ResellerOperatingFee WholesalerOperatingFee
                                      MarketingBudget i isp in
      let+ profits := add_at profits i (- total) in
      deduct_fixed_costs ResellerOperatingFee WholesalerOperatingFee MarketingBudget
                         rest (S i) profits
  end.

Definition set_profit (isp : ISP P) (new_profit : Q) : ISP P :=
  mkISP (isp_name isp) (plans_offered isp) (mobile_offered isp)
        (mobile_locations_offered isp) (wifi_offered isp) (wifi_locations_offered isp)
        (price_exp isp) (tech_exp isp)
        new_profit (moneypool isp + 0.05 * new_profit).

(** Step 3: [ISPs[isp][8] = profit; ISPs[isp][9] += 0.05 * profit]. *)
Fixpoint book_profits (ISPs : list (ISP P)) (profits : list Q)
    : result (list (ISP P)) :=
  match ISPs with
  | [] => Ok []
  | isp :: rest =>
      match profits with
      | [] => Raise IndexError
      | new_profit :: profits' =>
          let+ rest' := book_profits rest profits' in
          Ok (set_profit isp new_profit :: rest')
      end
  end.

(** The updated firms, the list [profits] and [nbn_co_revenue]. *)
Definition update_ISP_profits_and_moneypool (ISPs : list (ISP P))
    (grid : list (person P))
    (LargeMarkup SmallMarkup ResellerOperatingFee WholesalerOperatingFee
     MarketingBudget : Q) : result (list (ISP P) * list Q * Q) :=
  let profits := map (fun _ => 0%Q) ISPs in
  let+ st := all_sales ISPs LargeMarkup SmallMarkup
                       (mkSales unbound unbound profits 0) grid in
  let+ profits := deduct_fixed_costs ResellerOperatingFee WholesalerOperatingFee
                                     MarketingBudget ISPs 0 (sales_profits st) in
  let+ ISPs := book_profits ISPs profits in
  Ok (ISPs, profits, sales_nbn_co_revenue st).

(** The firm loop of [check_for_bankruptcy], from firm number [firm] on. *)
Fixpoint bankruptcy_loop (ISPs : list (ISP P)) (firm : nat)
    (operator_locations : list (list nat)) : list (list nat) :=
  match ISPs with
  | [] => operator_locations
  | isp :: rest =>
      bankruptcy_loop rest (S firm)
        (if Qle_bool (moneypool isp) 0      (* firm has reached bankruptcy *)
         then map (remove_operator firm) operator_locations
         else operator_locations)
  end.

Definition check_for_bankruptcy (ISPs : list (ISP P))
    (operator_locations : list (list nat)) : list (list nat) :=
  bankruptcy_loop ISPs 0 operator_locations.
End Economics.

(* ================================================================== *)
(** * Experiments: the parts without draws                               *)
(* ================================================================== *)

(** The plan objects of a run live in a store; a plan is referred to by its
    position in the store.  A position that was never allocated reads as
    [no_plan]. *)
Definition no_plan : plan := mkPlan "" (replaced_at 0) 0 "" 0 "".

Definition deref (store : list plan) (r : nat) : plan := nth r store no_plan.

Definition set_price (pl : plan) (price : Q) : plan :=
  mkPlan (plan_isp pl) (plan_service pl) (plan_capacity pl) (plan_footprint pl)
         price (plan_supplier pl).

Definition set_name_and_service (pl : plan) (name : string) (s : service) : plan :=
  mkPlan name s (plan_capacity pl) (plan_footprint pl) (plan_price pl)
         (plan_supplier pl).

Definition set_name (pl : plan) (name : string) : plan :=
  set_name_and_service pl name (plan_service pl).

(** The candidate positions of a price experiment:
    [choices = [0, ..., len-1]], then, for every [choice] of that first
    list whose plan is gone, [choices = choices[:choice] + choices[choice+1:]]
    on the current list. *)
Definition price_experiment_choices (plans : list plan) : list nat :=
  fold_left (fun choices choice =>
               if (plan_isp (nth choice plans no_plan) =? PLAN_GONE)%string
               then without choices choice else choices)
            (seq 0 (length plans)) (seq 0 (length plans)).

(** [min_price_based_on_lowers] after the loop over the firm's plans. *)
Definition min_price_based_on_lowers (plans : list plan) (relevant : plan -> bool)
    (capacity : Q) : Q :=
  fold_left (fun lowest pl =>
               if relevant pl then
                 if Qltb (plan_capacity pl) capacity then
                   if Qgtb (plan_price pl) lowest then (plan_price pl + 1)%Q else lowest
                 else lowest
               else lowest)
            plans 0%Q.

(** The lowest price an ISP can experiment with. *)
Definition min_price_allowed (plans : list plan) (target : plan) : result Q :=
  if service_eqb (plan_service target) wifi then
    let tiers := [15; 25; 50; 100; 250; 1000]%Q in
    let wholesale_prices := [12; 26; 50; 55; 60; 70]%Q in
    let speed := plan_capacity target in
    match List.find (fun t => Qgeb (fst t) speed) (combine tiers wholesale_prices) with
    | None => Raise UnboundLocalError      (* [tier] was never assigned *)
    | Some t =>
        let min_price_based_on_wholesale := (snd t + 1)%Q in
        let location := plan_footprint target in
        let lowers :=
          min_price_based_on_lowers plans
            (fun pl => negb (plan_isp pl =? PLAN_GONE)%string
                       && service_eqb (plan_service pl) wifi
                       && (plan_footprint pl =? location)%string) speed in
        if Qgeb min_price_based_on_wholesale lowers
        then Ok min_price_based_on_wholesale else Ok lowers
    end
  else
    let gb := plan_capacity target in
    Ok (min_price_based_on_lowers plans
          (fun pl => negb (plan_isp pl =? PLAN_GONE)%string
                     && service_eqb (plan_service pl) mobile) gb).

(** The replacement search of [choose_plan_to_remove]: the loop state is
    the price of [current_best] (initially [-1]) and [current_best_index]
    ([None] standing for [-1]). *)
Fixpoint replacement_loop (plans : list plan) (replacements : list nat)
    (exp_price best_price : Q) (current_best_index : option nat) : option nat :=
  match replacements with
  | [] => current_best_index
  | replacement :: rest =>
      let new_price := plan_price (nth replacement plans no_plan) in
      if Qgtb best_price exp_price then
        if Qltb new_price best_price && Qgtb new_price exp_price
        then replacement_loop plans rest exp_price new_price (Some replacement)
        else replacement_loop plans rest exp_price best_price current_best_index
      else
        if Qgtb new_price best_price
        then replacement_loop plans rest exp_price new_price (Some replacement)
        else replacement_loop plans rest exp_price best_price current_best_index
  end.

(** Whether [choose_plan_to_add] deletes the possibility [candidate] while
    it compares with the firm's own plan [own]. *)
Definition deleted_possibility (own candidate : plan) : bool :=
  if (plan_isp candidate =? PLAN_GONE)%string then true
  else if service_eqb (plan_service candidate) mobile then true
  else if service_eqb (plan_service own) wifi
          && service_eqb (plan_service candidate) wifi then
    let speed := plan_capacity candidate in
    Qltb (speed - 0.4 * speed) (plan_capacity own)
    && Qltb (plan_capacity own) (speed + 0.4 * speed)
    && (plan_footprint own =? plan_footprint candidate)%string
  else false.

(** [possibilities] after the loops over the firm's own plans. *)
Definition remaining_possibilities (plans possibilities : list plan) : list plan :=
  fold_left (fun possibilities own =>
               List.filter (fun candidate => negb (deleted_possibility own candidate))
                           possibilities)
            plans possibilities.

(** The update of one household's switching cost at the start of the
    monthly pass over the grid. *)
Definition update_switching_cost (switcher : nat) (cost SwitchingCostIncrease : Q) : Q :=
  if (switcher =? 0)%nat then
    if Qltb cost 1 then (cost + SwitchingCostIncrease)%Q else cost
  else 0%Q.

(* ================================================================== *)
(** * The draw source                                                    *)
(* ================================================================== *)

(** The [random] module: generator states, the state installed by
    [random.seed(n)], one call of [random.random()] and one call of the
    generator's [_randbelow(n)] (which [random.choice] and [random.randint]
    are built on). *)
Class RandomModule : Type := {
  rng : Type;
  rng_seed : Z -> rng;
  rng_random : rng -> Q * rng;
  rng_randbelow : nat -> rng -> nat * rng
}.

(** The parameters of [run_simulation] (the starting market selects the
    data files, whose contents are [plans] and [avg_shares]). *)
Record parameters : Type := mkParameters {
  plans : list plan;
  avg_shares : list Q;
  InitialMoneyPool : Q;
  LargeMarkup : Q;
  SmallMarkup : Q;
  ResellerOperatingFee : Q;
  WholesalerOperatingFee : Q;
  MarketingBudget : Q;
  PrPriceExp : Q;
  LenPriceExp : Z;
  PercentPriceChange : Q;
  PrPlanExp : Q;
  LenPlanExp : Z;
  NumDissatisfied : Z;
  SwitchingCostIncrease : Q;
  TimeBudget : Z;
  IncomeBudget : Q;
  PrSacrificeWifi : Q;
  PrPickBetterValue : Q;
  Seed : Z;
  MaxIter : nat
}.

(** The bookkeeping for the graphs ([initialise_quintile_structures],
    [initialise_RA_structures], [update_data_stores3]) reads the state and
    changes none of it; it is kept abstract.  The first function yields
    [total_population]; either may raise. *)
Class Reporting : Type := {
  initialise_report_structures : list (person nat) -> result Q;
  update_data_stores3 : list (ISP nat) -> list plan -> list (person nat) -> result unit
}.

Section Model.
Context `{RandomModule} `{Reporting}.

(** The generator state and the global counter [add_to_seed]. *)
Record draws : Type := mkDraws {
  gen : rng;
  add_to_seed : Z
}.

(** [random.seed(Seed + add_to_seed); add_to_seed += 23] *)
Definition reseed (Seed : Z) : St draws unit :=
  fun d => Ok (tt, mkDraws (rng_seed (Seed + add_to_seed d)) (add_to_seed d + 23)).

(** [random.random()] *)
Definition random_random : St draws Q :=
  fun d => let (u, g) := rng_random (gen d) in Ok (u, mkDraws g (add_to_seed d)).

(** [random.randint(0, b)] *)
Definition random_randint0 (b : Z) : St draws nat :=
  fun d => if (b <? 0)%Z then Raise EmptyRange
           else let (k, g) := rng_randbelow (Z.to_nat (b + 1)) (gen d) in
                Ok (k, mkDraws g (add_to_seed d)).

(** [random.choice(seq)] *)
Definition random_choice {A} (seq : list A) : St draws A :=
  fun d => match seq with
           | [] => Raise EmptySequence
           | _ => let (k, g) := rng_randbelow (length seq) (gen d) in
                  match seq !! k with
                  | Some a => Ok (a, mkDraws g (add_to_seed d))
                  | None => Raise IndexError
                  end
           end.

(** [random.choices(range(n), weights=weights, k=1)[0]] *)
Definition random_choices (n : nat) (weights : list Q) : St draws nat :=
  let cum_weights := accumulate_from 0 weights in
  if negb (length cum_weights =? n)%nat then st_raise BadWeights
  else
    match last cum_weights with
    | None => st_raise EmptySequence
    | Some total =>
        if Qle_bool total 0 then st_raise BadWeights
        else
          let* u := random_random in
          st_ret (bisect cum_weights (u * total) 0 (n - 1))
    end.

(* ---------------------------------------------------------------- *)
(** ** Consideration sampling                                         *)
(* ---------------------------------------------------------------- *)

Definition ensure_adds_to_1 (fuel : nat) (probs_array : list Q) (Seed : Z)
    : St draws (option (list Q)) :=
  let total := Qsum probs_array in
  if Qeq_bool total 1 then st_ret (Some probs_array)
  else if Qltb total 1 then
    reseed Seed ;;;
    let* add_to_me := random_randint0 (Z.of_nat (length probs_array) - 1) in
    let amount_under := (1 - total)%Q in
    let* p := st_lift (subscript probs_array add_to_me) in
    st_ret (Some (<[add_to_me := (p + amount_under)%Q]> probs_array))
  else
    let amount_over := (total - 1)%Q in
    st_lift (shave_loop fuel amount_over probs_array).

Section Consideration.
Context {P : Type} (view : P -> plan).

(** [MarketingBudget * ISPs[choice][9]] when the firm made no profit,
    [MarketingBudget * ISPs[choice][8]] otherwise. *)
Definition marketing_weight (MarketingBudget : Q) (isp : ISP P) : Q :=
  if Qle_bool (profit isp) 0 then (MarketingBudget * moneypool isp)%Q
  else (MarketingBudget * profit isp)%Q.

(** [choices[:choice] + choices[choice+1:]], the same for the
    probabilities, and their re-normalisation. *)
Definition drop_choice (choices : list nat) (pr_effective_marketing : list Q)
    (choice : nat) : result (list nat * list Q) :=
  let choices' := without choices choice in
  let pr' := without pr_effective_marketing choice in
  let pr_sum := Qsum pr' in
  let+ pr'' := res_map (fun p => pydiv p pr_sum) pr' in
  Ok (choices', pr'').

(** The loop state of [pick_operators]. *)
Record picking : Type := mkPicking {
  choices : list nat;
  pr_effective_marketing : list Q;
  selected_mobile_operators : list (ISP P);
  selected_wifi_operators : list (ISP P)
}.

(** One weighted draw: [(choice, index, ISPs[index])]. *)
Definition draw_operator (ISPs : list (ISP P)) (Seed : Z) (st : picking)
    : St draws (nat * ISP P) :=
  reseed Seed ;;;
  let* choice := random_choices (length (choices st)) (pr_effective_marketing st) in
  let* index := st_lift (subscript (choices st) choice) in
  let* isp := st_lift (subscript ISPs index) in
  st_ret (choice, isp).

(** [while TimeBudget > 0: ...] *)
Fixpoint main_loop (fuel : nat) (ISPs : list (ISP P)) (quad : nat) (Seed : Z)
    (TimeBudget : Z) (st : picking) : St draws picking :=
  if (TimeBudget >? 0)%Z then
    match fuel with
    | O => st_out_of_fuel
    | S fuel' =>
        let* (choice, isp) := draw_operator ISPs Seed st in
        let* has_mobile :=
          st_lift (serves (mobile_offered isp) (mobile_locations_offered isp) quad) in
        let* (mobiles, wifis, TimeBudget') :=
          if has_mobile then
            let* has_wifi :=
              st_lift (serves (wifi_offered isp) (wifi_locations_offered isp) quad) in
            st_ret (selected_mobile_operators st ++ [isp],
                    if has_wifi then selected_wifi_operators st ++ [isp]
                    else selected_wifi_operators st,
                    (TimeBudget - 1)%Z)
          else
            let* has_wifi :=
              st_lift (serves (wifi_offered isp) (wifi_locations_offered isp) quad) in
            if has_wifi then
              st_ret (selected_mobile_operators st,
                      selected_wifi_operators st ++ [isp], (TimeBudget - 1)%Z)
            else
              st_ret (selected_mobile_operators st, selected_wifi_operators st,
                      TimeBudget) in
        let* (choices', pr') :=
          st_lift (drop_choice (choices st) (pr_effective_marketing st) choice) in
        main_loop fuel' ISPs quad Seed TimeBudget'
                  (mkPicking choices' pr' mobiles wifis)
    end
  else st_ret st.

(** [while len(choices) > 0 and
           len(selected_mobile_operators) > len(selected_wifi_operators)] *)
Fixpoint top_up_wifi (fuel : nat) (ISPs : list (ISP P)) (quad : nat) (Seed : Z)
    (st : picking) : St draws picking :=
  if (0 <? length (choices st))%nat
     && (length (selected_wifi_operators st) <? length (selected_mobile_operators st))%nat
  then
    match fuel with
    | O => st_out_of_fuel
    | S fuel' =>
        let* (choice, isp) := draw_operator ISPs Seed st in
        let* has_wifi :=
          st_lift (serves (wifi_offered isp) (wifi_locations_offered isp) quad) in
        let wifis := if has_wifi then selected_wifi_operators st ++ [isp]
                     else selected_wifi_operators st in
        let* (choices', pr') :=
          st_lift (drop_choice (choices st) (pr_effective_marketing st) choice) in
        top_up_wifi fuel' ISPs quad Seed
                    (mkPicking choices' pr' (selected_mobile_operators st) wifis)
    end
  else st_ret st.

(** [while len(choices) > 0 and
           len(selected_mobile_operators) < len(selected_wifi_operators)] *)
Fixpoint top_up_mobile (fuel : nat) (ISPs : list (ISP P)) (quad : nat) (Seed : Z)
    (st : picking) : St draws picking :=
  if (0 <? length (choices st))%nat
     && (length (selected_mobile_operators st) <? length (selected_wifi_operators st))%nat
  then
    match fuel with
    | O => st_out_of_fuel
    | S fuel' =>
        let* (choice, isp) := draw_operator ISPs Seed st in
        let* has_mobile :=
          st_lift (serves (mobile_offered isp) (mobile_locations_offered isp) quad) in
        let mobiles := if has_mobile then selected_mobile_operators st ++ [isp]
                       else selected_mobile_operators st in
        let* (choices', pr') :=
          st_lift (drop_choice (choices st) (pr_effective_marketing st) choice) in
        top_up_mobile fuel' ISPs quad Seed
                      (mkPicking choices' pr' mobiles (selected_wifi_operators st))
    end
  else st_ret st.

(** The probabilities [pr_effective_marketing] handed to
    [ensure_adds_to_1]: each budget divided by the industry total.  The
    value of [round_up_to_nearest_001(pr)] is computed and dropped. *)
Definition normalised_budgets (marketing_budgets : list Q) : result (list Q) :=
  let industry_total := Qsum marketing_budgets in
  res_map (fun budget =>
             let+ pr := pydiv budget industry_total in
             let _ := round_up_to_nearest_001 pr in
             Ok pr) marketing_budgets.

Definition pick_operators (fuel : nat) (ISPs : list (ISP P)) (quad : nat)
    (operator_locations : list (list nat)) (TimeBudget : Z)
    (MarketingBudget : Q) (Seed : Z)
    : St draws (list (ISP P) * list (ISP P)) :=
  let* choices := st_lift (subscript operator_locations quad) in
  let* firms := st_lift (res_map (subscript ISPs) choices) in
  let marketing_budgets := map (marketing_weight MarketingBudget) firms in
  let* pr := st_lift (normalised_budgets marketing_budgets) in
  let* pr_opt := ensure_adds_to_1 fuel pr Seed in
  match pr_opt with
  | None => st_raise TypeError   (* the weights would be [None] *)
  | Some pr_effective_marketing =>
      let TimeBudget :=
        if (TimeBudget >? Z.of_nat (length choices))%Z
        then Z.of_nat (length choices) else TimeBudget in
      let* st := main_loop fuel ISPs quad Seed TimeBudget
                           (mkPicking choices pr_effective_marketing [] []) in
      let* st := top_up_wifi fuel ISPs quad Seed st in
      let* st := top_up_mobile fuel ISPs quad Seed st in
      st_ret (selected_mobile_operators st, selected_wifi_operators st)
  end.

(** Stage 3 of the decision process: the bundles, mobile plans and wifi
    plans a person can choose from. *)
Definition prep_bundles (fuel : nat) (person : person P) (ISPs : list (ISP P))
    (TimeBudget : Z) (MarketingBudget : Q) (operator_locations : list (list nat))
    (Seed : Z) : St draws (list (P * P) * list P * list P) :=
  let quad := quad_of (location person) in
  let* (mobile_operators, wifi_operators) :=
    pick_operators fuel ISPs quad operator_locations TimeBudget MarketingBudget Seed in
  let offers (s : service) (operators : list (ISP P)) : list P :=
    flat_map (fun isp =>
                List.filter (fun pl => service_eqb (plan_service (view pl)) s
                                  && plan_available_in_my_area (view pl) quad)
                       (plans_offered isp)) operators in
  let mobile_plans := offers mobile mobile_operators in
  let wifi_plans := offers wifi wifi_operators in
  let bundles := flat_map (fun m => map (fun w => (m, w)) wifi_plans) mobile_plans in
  st_ret (bundles, mobile_plans, wifi_plans).
End Consideration.

(* ---------------------------------------------------------------- *)
(** ** The decision tree                                              *)
(* ---------------------------------------------------------------- *)

Definition flag_is_none (f : flag) : bool := flag_eqb f PyNone.

(** [(a, b) == (x, y)] for a pair of flags and a pair of booleans. *)
Definition flags_are (a b : flag) (x y : bool) : bool :=
  flag_eqb a (flag_of_bool x) && flag_eqb b (flag_of_bool y).

Definition apply_strategy (decision : strategy) (new_bundle current_best : eval) : bool :=
  match decision with
  | pick_cheaper => Qle_bool (ev_price new_bundle) (ev_price current_best)
  | pick_better_value => Qgeb (ev_value new_bundle) (ev_value current_best)
  end.

Definition new_is_a_cheaper_minimum_quality
    (new_bundle current_best : eval) (PrSacrificeWifi : Q) (Seed : Z) : St draws bool :=
  reseed Seed ;;;
  let new_mqm := ev_mqm new_bundle in
  let new_mqw := ev_mqw new_bundle in
  let current_mqm := ev_mqm current_best in
  let current_mqw := ev_mqw current_best in
  let decide_by (decision : strategy) : St draws bool :=
    st_ret (apply_strategy decision new_bundle current_best) in
  if flag_eqb new_mqm PyDummy then st_ret false
  else if flag_eqb current_mqm PyDummy then st_ret true
  else if negb (flag_is_none new_mqm) && negb (flag_is_none new_mqw)
          && negb (flag_is_none current_mqm) && negb (flag_is_none current_mqw) then
    (* matrix for comparing complete bundles *)
    if flags_are new_mqm new_mqw true true then
      if flags_are current_mqm current_mqw true true then decide_by pick_cheaper
      else st_ret true
    else if flags_are new_mqm new_mqw true false then
      if flags_are current_mqm current_mqw true true then st_ret false
      else if flags_are current_mqm current_mqw true false then decide_by pick_cheaper
      else if flags_are current_mqm current_mqw false true then
        let* u := random_random in
        if Qltb u PrSacrificeWifi then st_ret true else st_ret false
      else st_ret true
    else if flags_are new_mqm new_mqw false true then
      if flags_are current_mqm current_mqw false false then st_ret true
      else if flags_are current_mqm current_mqw false true then decide_by pick_cheaper
      else if flags_are current_mqm current_mqw true false then
        let* u := random_random in
        if Qltb u PrSacrificeWifi then st_ret true else st_ret false
      else st_ret false
    else
      if flags_are current_mqm current_mqw false false then decide_by pick_better_value
      else st_ret false
  (* always pick complete bundle over a singular plan *)
  else if negb (flag_is_none new_mqm) && negb (flag_is_none new_mqw) then st_ret true
  else if negb (flag_is_none current_mqm) && negb (flag_is_none current_mqw) then st_ret false
  (* matrices for comparing singular plans *)
  else if flag_is_none new_mqm then
    if negb (flag_is_none current_mqm) then
      let* u := random_random in
      if Qltb u PrSacrificeWifi then st_ret false else st_ret true
    else if flag_eqb new_mqw PyTrue then
      if flag_eqb current_mqw PyTrue then decide_by pick_cheaper else st_ret true
    else
      if flag_eqb current_mqw PyTrue then st_ret false else decide_by pick_better_value
  else
    if negb (flag_is_none current_mqw) then
      let* u := random_random in
      if Qltb u PrSacrificeWifi then st_ret true else st_ret false
    else if flag_eqb new_mqm PyTrue then
      if flag_eqb current_mqm PyTrue then decide_by pick_cheaper else st_ret true
    else
      if flag_eqb current_mqm PyTrue then st_ret false else decide_by pick_better_value.

(** The body of [for new_bundle in range(len(bundle_evaluation_list))],
    on the remaining evaluations; the loop state is
    [(current_best, current_best_index)], [None] standing for [-1]. *)
Fixpoint decision_tree_loop
    (income IncomeBudget PrSacrificeWifi PrPickBetterValue : Q) (Seed : Z)
    (evals : list eval) (new_bundle : nat)
    (current_best : eval) (current_best_index : option nat)
    : St draws (eval * option nat) :=
  match evals with
  | [] => st_ret (current_best, current_best_index)
  | new :: rest =>
      let current_best_cost := ev_price current_best in
      let current_best_value := ev_value current_best in
      let new_cost := ev_price new in
      let new_value := ev_value new in
      let keep := st_ret (current_best, current_best_index) in
      let take := st_ret (new, Some new_bundle) in
      let* new_ratio := st_lift (pydiv new_cost income) in
      let* (current_best', current_best_index') :=
        if Qltb new_ratio IncomeBudget then
          let* current_ratio := st_lift (pydiv current_best_cost income) in
          if Qgeb current_ratio 0.05 then
            if Qltb new_cost current_best_cost then take else keep
          else
            if Qltb new_ratio 0.05 then
              if Qle_bool new_ratio 0.02 && Qgtb new_value current_best_value then
                reseed Seed ;;;
                let* u := random_random in
                if Qltb u PrPickBetterValue then take
                else
                  let* b := new_is_a_cheaper_minimum_quality new current_best PrSacrificeWifi Seed in
                  if b then take else keep
              else
                let* b := new_is_a_cheaper_minimum_quality new current_best PrSacrificeWifi Seed in
                if b then take else keep
            else keep
        else keep in
      decision_tree_loop income IncomeBudget PrSacrificeWifi PrPickBetterValue Seed
                         rest (S new_bundle) current_best' current_best_index'
  end.

Section Tree.
Context {P : Type} (view : P -> plan).

(** The baseline [current_best] that [decision_tree] starts from. *)
Definition initial_current_best (person : person P) (bundles : options P)
    (initial_call : bool) : result eval :=
  let '(m, w) := bundle person in
  if initial_call || (is_none m && is_none w) then Ok dummy_bundle
  else if is_tuple_list bundles && (is_none m || is_none w) then Ok dummy_bundle
  else if (is_none m && first_option_service_is view bundles mobile)
          || (is_none w && first_option_service_is view bundles wifi)
  then Ok dummy_bundle
  else match m, w with
       | None, Some w' => eval_single view (plans_of [w'])   (* current is wifi-only *)
       | Some m', None => eval_single view (plans_of [m'])   (* current is mobile-only *)
       | Some m', Some w' => eval_single view (bundles_of [(m', w')])
       | None, None => Ok dummy_bundle
       end.

Definition decision_tree (person : person P) (bundles : options P)
    (IncomeBudget PrSacrificeWifi PrPickBetterValue : Q) (Seed : Z)
    (initial_call : bool) : St draws choice :=
  if options_empty bundles then st_ret no_option
  else
    let* bundle_evaluation_list := st_lift (create_bundle_eval_list view bundles) in
    let income := income person in
    let* current_best := st_lift (initial_current_best person bundles initial_call) in
    let* (current_best, current_best_index) :=
      decision_tree_loop income IncomeBudget PrSacrificeWifi PrPickBetterValue Seed
                         bundle_evaluation_list 0 current_best None in
    match current_best_index with
    | None =>
        if price_is_dummy_string current_best then st_ret no_option
        else
          let* ratio := st_lift (pydiv (ev_price current_best) income) in
          if Qgtb ratio IncomeBudget then st_ret no_option else st_ret no_change
    | Some i => st_ret (pick i)
    end.

Definition decide_bundle (person : person P)
    (complete_bundles : list (P * P)) (mobile_plans wifi_plans : list P)
    (PrSacrificeWifi PrPickBetterValue IncomeBudget : Q) (Seed : Z)
    (initial_call : bool) : St draws (option P * option P) :=
  (* preference is to choose a complete bundle *)
  let* chosen_bundle :=
    decision_tree person (bundles_of complete_bundles) IncomeBudget
                  PrSacrificeWifi PrPickBetterValue Seed initial_call in
  match chosen_bundle with
  | no_change => st_ret (bundle person)
  | pick i =>
      match complete_bundles !! i with
      | Some (m, w) => st_ret (Some m, Some w)
      | None => st_raise IndexError
      end
  | no_option =>
      (* try to choose a mobile plan *)
      let* chosen_mobile_plan :=
        decision_tree person (plans_of mobile_plans) IncomeBudget
                      PrSacrificeWifi PrPickBetterValue Seed initial_call in
      match chosen_mobile_plan with
      | no_change => st_ret (bundle person)
      | pick i =>
          match mobile_plans !! i with
          | Some m => st_ret (Some m, None)
          | None => st_raise IndexError
          end
      | no_option =>
          (* try to choose a wifi plan *)
          let* chosen_wifi_plan :=
            decision_tree person (plans_of wifi_plans) IncomeBudget
                          PrSacrificeWifi PrPickBetterValue Seed initial_call in
          match chosen_wifi_plan with
          | no_change => st_ret (bundle person)
          | pick i =>
              match wifi_plans !! i with
              | Some w => st_ret (None, Some w)
              | None => st_raise IndexError
              end
          | no_option => st_ret (None, None)
          end
      end
  end.

(** [decide_expenditure]: percentage of income spent on a bundle. *)
Definition decide_expenditure (bundle : option P * option P) (income : Q)
    : result (option Q) :=
  match bundle with
  | (None, None) => Ok None
  | (None, Some w) =>
      let+ r := pydiv (plan_price (view w)) income in Ok (Some (r * 100)%Q)
  | (Some m, None) =>
      let+ r := pydiv (plan_price (view m)) income in Ok (Some (r * 100)%Q)
  | (Some m, Some w) =>
      let+ r := pydiv (plan_price (view m) + plan_price (view w)) income in
      Ok (Some (r * 100)%Q)
  end.
End Tree.

(* ---------------------------------------------------------------- *)
(** ** The state of a run                                             *)
(* ---------------------------------------------------------------- *)

(** The globals of the program ([ISPs], [operator_locations], [grid], the
    generator and [add_to_seed]) and the store of plan objects.  The grid
    is the sequence of its cells, row after row. *)
Record world : Type := mkWorld {
  w_draws : draws;
  w_store : list plan;
  w_ISPs : list (ISP nat);
  w_operator_locations : list (list nat);
  w_grid : list (person nat)
}.

Definition with_draws (w : world) (d : draws) : world :=
  mkWorld d (w_store w) (w_ISPs w) (w_operator_locations w) (w_grid w).
Definition with_store (w : world) (store : list plan) : world :=
  mkWorld (w_draws w) store (w_ISPs w) (w_operator_locations w) (w_grid w).
Definition with_ISPs (w : world) (ISPs : list (ISP nat)) : world :=
  mkWorld (w_draws w) (w_store w) ISPs (w_operator_locations w) (w_grid w).
Definition with_operator_locations (w : world) (ops : list (list nat)) : world :=
  mkWorld (w_draws w) (w_store w) (w_ISPs w) ops (w_grid w).
Definition with_grid (w : world) (grid : list (person nat)) : world :=
  mkWorld (w_draws w) (w_store w) (w_ISPs w) (w_operator_locations w) grid.

(** A computation on the draw source, run inside the world. *)
Definition drawing {A} (m : St draws A) : St world A :=
  fun w => match m (w_draws w) with
           | Ok (a, d) => Ok (a, with_draws w d)
           | Raise e => Raise e
           | OutOfFuel => OutOfFuel
           end.

Definition get_ISP (i : nat) : St world (ISP nat) :=
  fun w => st_lift (subscript (w_ISPs w) i) w.

Definition put_ISP (i : nat) (isp : ISP nat) : St world unit :=
  fun w => Ok (tt, with_ISPs w (<[i := isp]> (w_ISPs w))).

(** The plan object at position [i] of a firm's plans. *)
Definition plan_at (isp : ISP nat) (i : nat) : St world nat :=
  st_lift (subscript (plans_offered isp) i).

Definition read_plan (r : nat) : St world plan :=
  fun w => Ok (deref (w_store w) r, w).

Definition write_plan (r : nat) (pl : plan) : St world unit :=
  fun w => Ok (tt, with_store w (<[r := pl]> (w_store w))).

(** A new plan object ([copy.deepcopy] of a plan). *)
Definition new_plan (pl : plan) : St world nat :=
  fun w => Ok (length (w_store w), with_store w (w_store w ++ [pl])).

(** The plans of a firm, read from the store. *)
Definition read_plans (isp : ISP nat) : St world (list plan) :=
  fun w => Ok (map (deref (w_store w)) (plans_offered isp), w).

Definition set_price_exp (isp : ISP nat) (e : option (price_experiment nat))
    : ISP nat :=
  mkISP (isp_name isp) (plans_offered isp) (mobile_offered isp)
        (mobile_locations_offered isp) (wifi_offered isp) (wifi_locations_offered isp)
        e (tech_exp isp) (profit isp) (moneypool isp).

Definition set_tech_exp (isp : ISP nat) (e : option (plan_experiment nat))
    : ISP nat :=
  mkISP (isp_name isp) (plans_offered isp) (mobile_offered isp)
        (mobile_locations_offered isp) (wifi_offered isp) (wifi_locations_offered isp)
        (price_exp isp) e (profit isp) (moneypool isp).

Definition set_plans_offered (isp : ISP nat) (plans : list nat) : ISP nat :=
  mkISP (isp_name isp) plans (mobile_offered isp)
        (mobile_locations_offered isp) (wifi_offered isp) (wifi_locations_offered isp)
        (price_exp isp) (tech_exp isp) (profit isp) (moneypool isp).

(** [for x in l: body(x)] *)
Fixpoint for_each {S A} (l : list A) (body : A -> St S unit) : St S unit :=
  match l with
  | [] => st_ret tt
  | x :: rest => body x ;;; for_each rest body
  end.

(* ---------------------------------------------------------------- *)
(** ** Price experiments                                              *)
(* ---------------------------------------------------------------- *)

(** The review of a running price experiment whose time has come:
    the price is reverted when profits did not improve, and the
    experiment is terminated. *)
Definition conclude_price_experiment (i : nat) (isp : ISP nat)
    (price_exp : price_experiment nat) : St world unit :=
  (if Qle_bool (profit isp) (pe_prev_profit price_exp) then
     let* r := plan_at isp (pe_index price_exp) in
     let* pl := read_plan r in
     let* price := st_lift (pydiv (plan_price pl) (1 + pe_change price_exp)) in
     write_plan r (set_price pl price)       (* revert price *)
   else st_ret tt) ;;;
  put_ISP i (set_price_exp isp None).        (* terminate the experiment *)

(** The start of a new price experiment, once the draw against
    [PrPriceExp] has succeeded. *)
Definition start_price_experiment (i : nat) (isp : ISP nat)
    (LenPriceExp : Z) (PercentPriceChange : Q) (Seed : Z) : St world unit :=
  let* plans := read_plans isp in
  let choices := price_experiment_choices plans in
  drawing (reseed Seed) ;;;
  let* targeted_plan := drawing (random_choice choices) in
  let* r := plan_at isp targeted_plan in
  let* target := read_plan r in
  let current_price := plan_price target in
  drawing (reseed Seed) ;;;
  let* u := drawing random_random in
  let* change :=
    if Qltb u 0.5 then
      let change := (-1 * PercentPriceChange)%Q in
      let* lowest := st_lift (min_price_allowed plans target) in
      if Qltb (current_price + change * current_price) lowest
      then st_ret None else st_ret (Some change)
    else st_ret (Some PercentPriceChange) in
  match change with
  | None => st_ret tt
  | Some change =>
      let new_price := (current_price + change * current_price)%Q in
      write_plan r (set_price target new_price) ;;;
      put_ISP i (set_price_exp isp
                   (Some (mkPriceExp r targeted_plan change LenPriceExp (profit isp))))
  end.

(** The body of the loop of [review_price_experiments] for firm [i]. *)
Definition review_price_experiment (PrPriceExp : Q) (LenPriceExp : Z)
    (PercentPriceChange : Q) (Seed : Z) (i : nat) : St world unit :=
  let* isp := get_ISP i in
  if Qgtb (moneypool isp) 0 then     (* nothing is done for a dead firm *)
    match price_exp isp with
    | Some price_exp =>
        if (pe_months_left price_exp =? 0)%Z then
          conclude_price_experiment i isp price_exp
        else
          put_ISP i (set_price_exp isp
                       (Some (mkPriceExp (pe_plan price_exp) (pe_index price_exp)
                                         (pe_change price_exp)
                                         (pe_months_left price_exp - 1)
                                         (pe_prev_profit price_exp))))
    | None =>
        match tech_exp isp with
        | Some _ => st_ret tt
        | None =>
            drawing (reseed Seed) ;;;
            let* u := drawing random_random in
            if Qltb u PrPriceExp
            then start_price_experiment i isp LenPriceExp PercentPriceChange Seed
            else st_ret tt
        end
    end
  else st_ret tt.

Definition review_price_experiments (PrPriceExp : Q) (LenPriceExp : Z)
    (PercentPriceChange : Q) (Seed : Z) : St world unit :=
  let* w := st_get in
  for_each (seq 0 (length (w_ISPs w)))
           (review_price_experiment PrPriceExp LenPriceExp PercentPriceChange Seed).

(* ---------------------------------------------------------------- *)
(** ** Plan experiments                                               *)
(* ---------------------------------------------------------------- *)

(** [choose_plan_to_remove]: the experiment record, if any, and the
    position of the plan that displaced subscribers move to. *)
Definition choose_plan_to_remove (isp : ISP nat) (LenPlanExp : Z) (Seed : Z)
    : St world (option (plan_experiment nat) * option nat) :=
  let* plans := read_plans isp in
  let choices :=
    List.filter (fun i => service_eqb (plan_service (nth i plans no_plan)) wifi)
                (seq 0 (length plans)) in
  drawing (reseed Seed) ;;;
  match choices with
  | [] => st_ret (None, None)
  | _ =>
      let* experiment := drawing (random_choice choices) in
      let removed := nth experiment plans no_plan in
      (* a plan for the users currently on the old plan to switch to *)
      let replacements :=
        List.filter (fun c => negb (c =? experiment)%nat
                              && (plan_footprint (nth c plans no_plan)
                                  =? plan_footprint removed)%string)
                    choices in
      let current_best_index :=
        replacement_loop plans replacements (plan_price removed) (-1) None in
      let* copy := new_plan removed in
      st_ret (Some (mkPlanExp copy experiment false LenPlanExp (profit isp)),
              current_best_index)
  end.

(** The competitor loop of [choose_plan_to_add]:
    [while competitor[0] == isp[0] or competitor[9] <= 0]. *)
Fixpoint choose_competitor (fuel : nat) (isp : ISP nat) (Seed : Z)
    : St world (ISP nat) :=
  match fuel with
  | O => st_out_of_fuel
  | S fuel' =>
      drawing (reseed Seed) ;;;
      let* w := st_get in
      let* competitor := drawing (random_choice (w_ISPs w)) in
      if (isp_name competitor =? isp_name isp)%string
         || Qle_bool (moneypool competitor) 0
      then choose_competitor fuel' isp Seed
      else st_ret competitor
  end.

Definition choose_plan_to_add (fuel : nat) (isp : ISP nat) (LenPlanExp : Z)
    (Seed : Z) : St world (option (plan_experiment nat)) :=
  let* competitor := choose_competitor fuel isp Seed in
  let* possibilities := read_plans competitor in
  let* plans := read_plans isp in
  let possibilities := remaining_possibilities plans possibilities in
  if negb (length possibilities =? 0)%nat then
    drawing (reseed Seed) ;;;
    let* index := drawing (random_randint0 (Z.of_nat (length possibilities) - 1)) in
    let* experiment := st_lift (subscript possibilities index) in
    let* r := new_plan (set_name experiment (isp_name isp)) in
    st_ret (Some (mkPlanExp r index true LenPlanExp (profit isp)))
  else st_ret None.

(** [while plan_exp == None and while_loop_iterations < 50] *)
Fixpoint try_to_add_plan (attempts : nat) (fuel : nat) (isp : ISP nat)
    (LenPlanExp : Z) (Seed : Z) : St world (option (plan_experiment nat)) :=
  match attempts with
  | O => st_ret None
  | S attempts' =>
      let* plan_exp := choose_plan_to_add fuel isp LenPlanExp Seed in
      match plan_exp with
      | Some _ => st_ret plan_exp
      | None => try_to_add_plan attempts' fuel isp LenPlanExp Seed
      end
  end.

(** The review of a running plan experiment whose time has come. *)
Definition conclude_plan_experiment (i : nat) (isp : ISP nat)
    (plan_exp : plan_experiment nat) : St world unit :=
  if Qle_bool (profit isp) (te_prev_profit plan_exp) then
    if te_added plan_exp then
      (* revert by taking the plan away: [ISPs[isp][1][:-1]] *)
      put_ISP i (set_tech_exp (set_plans_offered isp (removelast (plans_offered isp)))
                              None)
    else
      (* put the plan back in its original location *)
      let* r := plan_at isp (te_index plan_exp) in
      let* copy := read_plan (te_plan plan_exp) in
      let* pl := read_plan r in
      write_plan r (set_name_and_service pl (plan_isp copy) wifi) ;;;
      put_ISP i (set_tech_exp isp None)
  else put_ISP i (set_tech_exp isp None).

(** The start of a new plan experiment, once the draw against [PrPlanExp]
    has succeeded; [replacements] is the array built so far. *)
Definition start_plan_experiment (fuel : nat) (i : nat) (isp : ISP nat)
    (LenPlanExp : Z) (Seed : Z) (replacements : list (nat * option nat))
    : St world (list (nat * option nat)) :=
  drawing (reseed Seed) ;;;
  let* u := drawing random_random in
  if Qgtb u 0.5 then
    (* the experiment is to remove a plan *)
    let* (plan_exp, replacement) := choose_plan_to_remove isp LenPlanExp Seed in
    match plan_exp with
    | None => st_ret replacements
    | Some plan_exp =>
        let* r := plan_at isp (te_index plan_exp) in
        let* pl := read_plan r in
        let replacements := replacements ++ [(i, replacement)] in
        write_plan r (set_name_and_service pl PLAN_GONE
                        (replaced_at (length replacements - 1))) ;;;
        put_ISP i (set_tech_exp isp (Some plan_exp)) ;;;
        st_ret replacements
    end
  else
    (* the experiment is to add a plan *)
    let* plan_exp := try_to_add_plan 50 fuel isp LenPlanExp Seed in
    match plan_exp with
    | None => st_ret replacements
    | Some plan_exp =>
        put_ISP i (set_tech_exp
                     (set_plans_offered isp (plans_offered isp ++ [te_plan plan_exp]))
                     (Some plan_exp)) ;;;
        st_ret replacements
    end.

(** The body of the loop of [review_plan_experiments] for firm [i]. *)
Definition review_plan_experiment (fuel : nat) (PrPlanExp : Q) (LenPlanExp : Z)
    (Seed : Z) (replacements : list (nat * option nat)) (i : nat)
    : St world (list (nat * option nat)) :=
  let* isp := get_ISP i in
  if Qgtb (moneypool isp) 0 then
    match tech_exp isp with
    | Some plan_exp =>
        (if (te_months_left plan_exp =? 0)%Z then
           conclude_plan_experiment i isp plan_exp
         else
           put_ISP i (set_tech_exp isp
                        (Some (mkPlanExp (te_plan plan_exp) (te_index plan_exp)
                                         (te_added plan_exp)
                                         (te_months_left plan_exp - 1)
                                         (te_prev_profit plan_exp))))) ;;;
        st_ret replacements
    | None =>
        match price_exp isp with
        | Some _ => st_ret replacements
        | None =>
            drawing (reseed Seed) ;;;
            let* u := drawing random_random in
            if Qltb u PrPlanExp && wifi_offered isp
            then start_plan_experiment fuel i isp LenPlanExp Seed replacements
            else st_ret replacements
        end
    end
  else st_ret replacements.

Fixpoint review_plan_experiments_from (fuel : nat) (PrPlanExp : Q) (LenPlanExp : Z)
    (Seed : Z) (firms : list nat) (replacements : list (nat * option nat))
    : St world (list (nat * option nat)) :=
  match firms with
  | [] => st_ret replacements
  | i :: rest =>
      let* replacements :=
        review_plan_experiment fuel PrPlanExp LenPlanExp Seed replacements i in
      review_plan_experiments_from fuel PrPlanExp LenPlanExp Seed rest replacements
  end.

Definition review_plan_experiments (fuel : nat) (PrPlanExp : Q) (LenPlanExp : Z)
    (Seed : Z) : St world (list (nat * option nat)) :=
  let* w := st_get in
  review_plan_experiments_from fuel PrPlanExp LenPlanExp Seed
                               (seq 0 (length (w_ISPs w))) [].

(* ---------------------------------------------------------------- *)
(** ** The monthly pass over the households                           *)
(* ---------------------------------------------------------------- *)

(** The cell [grid[row, cell]] is cell number [100 * row + cell]. *)
Definition cell_number (row cell : nat) : nat := 100 * row + cell.

Definition get_cell (k : nat) : St world (person nat) :=
  fun w => st_lift (subscript (w_grid w) k) w.

Definition put_cell (k : nat) (c : person nat) : St world unit :=
  fun w => Ok (tt, with_grid w (<[k := c]> (w_grid w))).

Definition set_bundle (c : person nat) (b : option nat * option nat) : person nat :=
  mkPerson (location c) (populated c) (income c) b (percent_spent c).

Definition set_percent_spent (c : person nat) (pc : option Q) : person nat :=
  mkPerson (location c) (populated c) (income c) (bundle c) pc.

(** Stages 3 and 4 for the household in cell [k]: the bundle it
    chooses. *)
Definition reassess (fuel : nat) (k : nat) (TimeBudget : Z)
    (MarketingBudget PrSacrificeWifi PrPickBetterValue IncomeBudget : Q) (Seed : Z)
    (initial_call : bool) : St world (option nat * option nat) :=
  let* c := get_cell k in
  let* w := st_get in
  let* (bundles, mobile_plans, wifi_plans) :=
    drawing (prep_bundles (deref (w_store w)) fuel c (w_ISPs w) TimeBudget
                          MarketingBudget (w_operator_locations w) Seed) in
  drawing (decide_bundle (deref (w_store w)) c bundles mobile_plans wifi_plans
                         PrSacrificeWifi PrPickBetterValue IncomeBudget Seed
                         initial_call).

(** What [all_agents_updates] carries from one cell to the next: its
    counter, the two arrays and the local variable [income]. *)
Record pass : Type := mkPass {
  num_real_problems : Z;
  pass_switching_costs : list Q;
  pass_switchers : list nat;
  pass_income : local Q
}.

(** A household whose wifi plan is gone moves to the replacement, or
    loses its wifi leg; the result tells whether the leg was lost. *)
Definition follow_replacement (k : nat) (replacements : list (nat * option nat))
    : St world bool :=
  let* c := get_cell k in
  let* w := st_get in
  match snd (bundle c) with
  | None => st_ret false
  | Some wifi_plan =>
      let pl := deref (w_store w) wifi_plan in
      if (plan_isp pl =? PLAN_GONE)%string then
        match plan_service pl with
        | replaced_at n =>
            let* replacement := st_lift (subscript replacements n) in
            match snd replacement with
            | None =>
                put_cell k (set_bundle c (fst (bundle c), None)) ;;;
                st_ret true
            | Some plan_index =>
                let* isp := get_ISP (fst replacement) in
                let* r := plan_at isp plan_index in
                put_cell k (set_bundle c (fst (bundle c), Some r)) ;;;
                st_ret false
            end
        | _ => st_raise TypeError
        end
      else st_ret false
  end.

(** The body of the loops of [all_agents_updates] for cell [k]. *)
Definition agent_update (fuel : nat) (replacements : list (nat * option nat))
    (SwitchingCostIncrease IncomeBudget : Q) (TimeBudget : Z)
    (MarketingBudget PrSacrificeWifi PrPickBetterValue : Q) (Seed : Z)
    (st : pass) (k : nat) : St world pass :=
  let* c := get_cell k in
  if populated c then
    (* update switching costs *)
    let* switcher := st_lift (subscript (pass_switchers st) k) in
    let* cost := st_lift (subscript (pass_switching_costs st) k) in
    let costs := <[k := update_switching_cost switcher cost SwitchingCostIncrease]>
                   (pass_switching_costs st) in
    let switched := <[k := 0%nat]> (pass_switchers st) in
    let* (bundle_update_trigger, income_local) :=
      if negb (is_none (fst (bundle c)) && is_none (snd (bundle c))) then
        let* lost_leg := follow_replacement k replacements in
        (* anyone suddenly paying over their budget finds a new plan *)
        let* c := get_cell k in
        let* w := st_get in
        let* percent_spent_on_bundle :=
          st_lift (decide_expenditure (deref (w_store w)) (bundle c) (income c)) in
        st_ret (lost_leg
                || match percent_spent_on_bundle with
                   | None => true
                   | Some pc => Qgeb pc (IncomeBudget * 100)
                   end,
                bound (income c))
      else st_ret (true, pass_income st) in
    if bundle_update_trigger then
      let* new_bundle :=
        reassess fuel k TimeBudget MarketingBudget PrSacrificeWifi PrPickBetterValue
                 IncomeBudget Seed false in
      let* income_now := st_lift (read_local income_local) in
      let* w := st_get in
      let* percent_spent_on_new_bundle :=
        st_lift (decide_expenditure (deref (w_store w)) new_bundle income_now) in
      let* c := get_cell k in
      put_cell k (set_percent_spent (set_bundle c new_bundle)
                                    percent_spent_on_new_bundle) ;;;
      st_ret (mkPass (num_real_problems st + 1) costs (<[k := 1%nat]> switched)
                     income_local)
    else
      let* income_now := st_lift (read_local income_local) in
      let* c := get_cell k in
      let* w := st_get in
      let* pc := st_lift (decide_expenditure (deref (w_store w)) (bundle c) income_now) in
      put_cell k (set_percent_spent c pc) ;;;
      st_ret (mkPass (num_real_problems st) costs switched income_local)
  else st_ret st.

Fixpoint agent_updates_from (fuel : nat) (replacements : list (nat * option nat))
    (SwitchingCostIncrease IncomeBudget : Q) (TimeBudget : Z)
    (MarketingBudget PrSacrificeWifi PrPickBetterValue : Q) (Seed : Z)
    (cells : list nat) (st : pass) : St world pass :=
  match cells with
  | [] => st_ret st
  | k :: rest =>
      let* st := agent_update fuel replacements SwitchingCostIncrease IncomeBudget
                              TimeBudget MarketingBudget PrSacrificeWifi
                              PrPickBetterValue Seed st k in
      agent_updates_from fuel replacements SwitchingCostIncrease IncomeBudget
                         TimeBudget MarketingBudget PrSacrificeWifi
                         PrPickBetterValue Seed rest st
  end.

(** The cells in the order of [for row in range(100): for cell in
    range(100)]. *)
Definition all_cells : list nat := seq 0 (100 * 100).

Definition all_agents_updates (fuel : nat) (replacements : list (nat * option nat))
    (dynamic_switching_costs : list Q) (switchers : list nat)
    (SwitchingCostIncrease IncomeBudget : Q) (TimeBudget : Z)
    (MarketingBudget PrSacrificeWifi PrPickBetterValue : Q) (Seed : Z)
    : St world (Z * list Q * list nat) :=
  let* st := agent_updates_from fuel replacements SwitchingCostIncrease IncomeBudget
               TimeBudget MarketingBudget PrSacrificeWifi PrPickBetterValue Seed
               all_cells (mkPass 0 dynamic_switching_costs switchers unbound) in
  st_ret (num_real_problems st, pass_switching_costs st, pass_switchers st).

(* ---------------------------------------------------------------- *)
(** ** Contemplating households                                       *)
(* ---------------------------------------------------------------- *)

(** The loop state of [choose_contemplators]; [rows] and [cols] hold, for
    every row and column, the iterations at which it was chosen. *)
Record sampling : Type := mkSampling {
  contemplators : list (nat * nat);
  rows : list (list nat);
  cols : list (list nat);
  iteration : nat;
  num_iteration_repeats : nat
}.

(** The number of pairs [(t1, t2)] of [ys] and [xs] with [t1 == t2]. *)
Definition common_iterations (ys xs : list nat) : nat :=
  length (flat_map (fun t1 => List.filter (Nat.eqb t1) xs) ys).

Fixpoint contemplators_loop (fuel : nat) (num_imaginary_problems : Z) (Seed : Z)
    (st : sampling) : St world sampling :=
  if (Z.of_nat (length (contemplators st)) <? num_imaginary_problems)%Z
     && (num_iteration_repeats st <? 50)%nat
  then
    match fuel with
    | O => st_out_of_fuel
    | S fuel' =>
        drawing (reseed Seed) ;;;
        let* y := drawing (random_choice (combine (seq 0 (length (rows st))) (rows st))) in
        drawing (reseed Seed) ;;;
        let* x := drawing (random_choice (combine (seq 0 (length (cols st))) (cols st))) in
        let* c := get_cell (cell_number (fst y) (fst x)) in
        if populated c then     (* the randomly generated cell isn't empty *)
          let repeats := common_iterations (snd y) (snd x) in
          if (repeats =? 0)%nat then
            contemplators_loop fuel' num_imaginary_problems Seed
              (mkSampling (contemplators st ++ [(fst x, fst y)])
                          (<[fst y := snd y ++ [iteration st]]> (rows st))
                          (<[fst x := snd x ++ [iteration st]]> (cols st))
                          (S (iteration st))
                          (num_iteration_repeats st))
          else
            contemplators_loop fuel' num_imaginary_problems Seed
              (mkSampling (contemplators st) (rows st) (cols st) (iteration st)
                          (num_iteration_repeats st + repeats))
        else contemplators_loop fuel' num_imaginary_problems Seed st
    end
  else st_ret st.

(** The contemplators, each as [(x, y)], that is [(cell, row)]. *)
Definition choose_contemplators (fuel : nat) (num_imaginary_problems : Z) (Seed : Z)
    : St world (list (nat * nat)) :=
  if (num_imaginary_problems <? 0)%Z then st_ret []
  else
    let num := if (num_imaginary_problems >? 100 * 100)%Z then (100 * 100)%Z
               else num_imaginary_problems in
    let* st := contemplators_loop fuel num Seed
                 (mkSampling [] (repeat [] 100) (repeat [] 100) 0 0) in
    st_ret (contemplators st).

(** [choose_preperators] reads [person[0]] as the row and [person[1]] as
    the cell of the switching cost. *)
Fixpoint choose_preperators (contemplators : list (nat * nat))
    (dynamic_switching_costs : list Q) (Seed : Z) : St world (list (nat * nat)) :=
  match contemplators with
  | [] => st_ret []
  | person :: rest =>
      let row := fst person in
      let cell := snd person in
      drawing (reseed Seed) ;;;
      let* u := drawing random_random in
      let* cost := st_lift (subscript dynamic_switching_costs (cell_number row cell)) in
      let* others := choose_preperators rest dynamic_switching_costs Seed in
      if Qgtb u cost then st_ret (person :: others) else st_ret others
  end.

(** Stages 3 and 4 for the preparators; the simulation loop reads
    [person[1]] as the row and [person[0]] as the cell. *)
Fixpoint act_on_preparators (fuel : nat) (preparators : list (nat * nat))
    (TimeBudget : Z) (MarketingBudget PrSacrificeWifi PrPickBetterValue
     IncomeBudget : Q) (Seed : Z) (switchers : list nat) : St world (list nat) :=
  match preparators with
  | [] => st_ret switchers
  | person :: rest =>
      let row := snd person in
      let cell := fst person in
      let k := cell_number row cell in
      let* new_bundle :=
        reassess fuel k TimeBudget MarketingBudget PrSacrificeWifi PrPickBetterValue
                 IncomeBudget Seed false in
      let* c := get_cell k in
      let* w := st_get in
      let* percent_spent_on_new_bundle :=
        st_lift (decide_expenditure (deref (w_store w)) new_bundle (income c)) in
      put_cell k (set_percent_spent (set_bundle c new_bundle)
                                    percent_spent_on_new_bundle) ;;;
      act_on_preparators fuel rest TimeBudget MarketingBudget PrSacrificeWifi
                         PrPickBetterValue IncomeBudget Seed (<[k := 1%nat]> switchers)
  end.

(* ---------------------------------------------------------------- *)
(** ** Initialising the grid                                          *)
(* ---------------------------------------------------------------- *)

Definition decide_if_populated (location : nat * nat) (Seed : Z) : St draws bool :=
  let y := fst location in
  let x := snd location in
  reseed Seed ;;;
  let* num := random_random in
  if (x <? 50)%nat && (y <? 50)%nat then st_ret (Qltb num 0.8)          (* urban *)
  else if (50 <=? x)%nat && (50 <=? y)%nat then st_ret (Qltb num 0.07)  (* remote *)
  else st_ret (Qltb num 0.15).                                          (* regional *)

(** [random.uniform(a, b)] *)
Definition random_uniform (a b : Q) : St draws Q :=
  let* u := random_random in st_ret (a + (b - a) * u)%Q.

Definition initialise_income (location : nat * nat) (Seed : Z) : St draws Q :=
  let y := fst location in
  let x := snd location in
  let probabilities :=
    if (x <? 50)%nat && (y <? 50)%nat then [0.238; 0.235; 0.239; 0.288]%Q
    else if (50 <=? x)%nat && (50 <=? y)%nat then [0.294; 0.246; 0.237; 0.223]%Q
    else [0.287; 0.268; 0.246; 0.199]%Q in
  reseed Seed ;;;
  let* k := random_choices 4 probabilities in
  let quartile := S k in
  reseed Seed ;;;
  match quartile with
  | 1 => random_uniform 381 2594
  | 2 => random_uniform 2595 3838
  | 3 => random_uniform 3839 5602
  | 4 => random_uniform 5603 15000
  | _ => st_raise UnboundLocalError
  end%nat.

(** The cell of an empty grid. *)
Definition empty_cell : person nat := mkPerson (0, 0)%nat false 0 (None, None) None.

(** The body of the loops of [initialise_grid] for cell [k]. *)
Definition initialise_cell (fuel : nat) (TimeBudget : Z)
    (IncomeBudget MarketingBudget PrSacrificeWifi PrPickBetterValue : Q) (Seed : Z)
    (k : nat) : St world unit :=
  let location := (k / 100, k mod 100)%nat in
  let* is_populated := drawing (decide_if_populated location Seed) in
  if is_populated then
    let* income := drawing (initialise_income location Seed) in
    let newcomer := mkPerson location true income (None, None) None in
    let* w := st_get in
    let* (bundles, mobile_plans, wifi_plans) :=
      drawing (prep_bundles (deref (w_store w)) fuel newcomer (w_ISPs w) TimeBudget
                            MarketingBudget (w_operator_locations w) Seed) in
    let* bundle :=
      drawing (decide_bundle (deref (w_store w)) newcomer bundles mobile_plans
                             wifi_plans PrSacrificeWifi PrPickBetterValue IncomeBudget
                             Seed true) in
    let* percent_spent_on_bundle :=
      st_lift (decide_expenditure (deref (w_store w)) bundle income) in
    put_cell k (mkPerson location true income bundle percent_spent_on_bundle)
  else put_cell k (mkPerson location false 0 (None, None) None).

Definition initialise_grid (fuel : nat) (TimeBudget : Z)
    (IncomeBudget MarketingBudget PrSacrificeWifi PrPickBetterValue : Q) (Seed : Z)
    : St world unit :=
  (fun w => Ok (tt, with_grid w (repeat empty_cell (100 * 100)))) ;;;
  for_each all_cells
           (initialise_cell fuel TimeBudget IncomeBudget MarketingBudget
                            PrSacrificeWifi PrPickBetterValue Seed).

(** [perform_grid_cleaning] *)
Definition clean_cell (k : nat) : St world unit :=
  let* c := get_cell k in
  if populated c then
    let* w := st_get in
    let* pc := st_lift (decide_expenditure (deref (w_store w)) (bundle c) (income c)) in
    put_cell k (set_percent_spent c pc)
  else st_ret tt.

Definition perform_grid_cleaning : St world unit := for_each all_cells clean_cell.

(* ---------------------------------------------------------------- *)
(** ** The simulation                                                 *)
(* ---------------------------------------------------------------- *)

(** What the loop of [simulate_market_dynamics] carries from one month
    to the next besides the globals: [Seed] and the two arrays. *)
Record carried : Type := mkCarried {
  current_seed : Z;
  switching_costs : list Q;
  who_switched : list nat
}.

(** The firms' part of month [i]. *)
Definition firms_month (fuel : nat) (p : parameters) (Seed : Z)
    : St world (list (nat * option nat)) :=
  let* w := st_get in
  let* (ISPs, _, _) :=
    st_lift (update_ISP_profits_and_moneypool (deref (w_store w)) (w_ISPs w) (w_grid w)
               (LargeMarkup p) (SmallMarkup p) (ResellerOperatingFee p)
               (WholesalerOperatingFee p) (MarketingBudget p)) in
  (fun w => Ok (tt, with_ISPs w ISPs)) ;;;
  (fun w => Ok (tt, with_operator_locations w
                      (check_for_bankruptcy (w_ISPs w) (w_operator_locations w)))) ;;;
  review_price_experiments (PrPriceExp p) (LenPriceExp p) (PercentPriceChange p) Seed ;;;
  review_plan_experiments fuel (PrPlanExp p) (LenPlanExp p) Seed.

(** The households' part of month [i]. *)
Definition households_month (fuel : nat) (p : parameters) (Seed : Z)
    (replacements : list (nat * option nat)) (st : carried) : St world carried :=
  (* 1: those whose plans got affected by experiments *)
  let* (num_real_problems, dynamic_switching_costs, switchers) :=
    all_agents_updates fuel replacements (switching_costs st) (who_switched st)
                       (SwitchingCostIncrease p) (IncomeBudget p) (TimeBudget p)
                       (MarketingBudget p) (PrSacrificeWifi p) (PrPickBetterValue p)
                       Seed in
  (* 2: random agents through the 4 stage decision making process *)
  if (num_real_problems <? NumDissatisfied p)%Z then
    let num_imaginary_problems := (NumDissatisfied p - num_real_problems)%Z in
    let* contemplators := choose_contemplators fuel num_imaginary_problems Seed in
    let* preparators := choose_preperators contemplators dynamic_switching_costs Seed in
    let* switchers :=
      act_on_preparators fuel preparators (TimeBudget p) (MarketingBudget p)
                         (PrSacrificeWifi p) (PrPickBetterValue p) (IncomeBudget p)
                         Seed switchers in
    st_ret (mkCarried Seed dynamic_switching_costs switchers)
  else st_ret (mkCarried Seed dynamic_switching_costs switchers).

(** Iteration [i] of the loop of [simulate_market_dynamics]. *)
Definition simulate_month (fuel : nat) (p : parameters) (total_population : Q)
    (i : nat) (st : carried) : St world carried :=
  let Seed := (current_seed st + 10 * Z.of_nat i)%Z in
  (if (i mod 25 =? 0)%nat then
     let* w := st_get in
     st_lift (update_data_stores3 (w_ISPs w) (w_store w) (w_grid w)) ;;;
     let total_sc := fold_left Qplus (firstn (100 * 100) (switching_costs st)) 0%Q in
     st_lift (pydiv total_sc total_population) ;;;
     st_ret tt
   else st_ret tt) ;;;
  let* replacements := firms_month fuel p Seed in
  households_month fuel p Seed replacements (mkCarried Seed (switching_costs st)
                                                       (who_switched st)).

(** Iterations [i], [i + 1], ..., [i + months - 1]. *)
Fixpoint simulate_months (fuel : nat) (p : parameters) (total_population : Q)
    (months : nat) (i : nat) (st : carried) : St world carried :=
  match months with
  | O => st_ret st
  | S months' =>
      let* st := simulate_month fuel p total_population i st in
      simulate_months fuel p total_population months' (S i) st
  end.

(** The first [months] months of [simulate_market_dynamics]. *)
Definition simulate_market_dynamics_upto (fuel : nat) (p : parameters) (months : nat)
    : St world carried :=
  let* w := st_get in
  let* total_population := st_lift (initialise_report_structures (w_grid w)) in
  simulate_months fuel p total_population months 0
                  (mkCarried (Seed p) (repeat 0%Q (100 * 100)) (repeat 0%nat (100 * 100))).

Definition simulate_market_dynamics (fuel : nat) (p : parameters) : St world unit :=
  simulate_market_dynamics_upto fuel p (MaxIter p) ;;;
  perform_grid_cleaning.

(** The initialisation of [run_simulation]: the counter is reset and
    the globals are rebuilt. *)
Definition initialise_run (fuel : nat) (p : parameters) : St world unit :=
  (fun w => Ok (tt, with_draws w (mkDraws (gen (w_draws w)) 0))) ;;;
  let* (ISPs, operator_locations) :=
    st_lift (initialise_ISPs (plans p) (avg_shares p) (InitialMoneyPool p)) in
  (fun w => Ok (tt, mkWorld (w_draws w) (plans p) ISPs operator_locations (w_grid w))) ;;;
  initialise_grid fuel (TimeBudget p) (IncomeBudget p) (MarketingBudget p)
                  (PrSacrificeWifi p) (PrPickBetterValue p) (Seed p).

Definition run_simulation (fuel : nat) (p : parameters) : St world unit :=
  initialise_run fuel p ;;;
  simulate_market_dynamics fuel p.

(** The run stopped after its first [months] months. *)
Definition run_simulation_upto (fuel : nat) (p : parameters) (months : nat)
    : St world carried :=
  initialise_run fuel p ;;;
  simulate_market_dynamics_upto fuel p months.
End Model.

(* ================================================================== *)
(** * Example data                                                       *)
(* ================================================================== *)

(** A generator whose [random.random()] always yields [u] and whose
    [_randbelow(n)] always yields [k]. *)
Definition constant_random (u : Q) (k : nat) : RandomModule :=
  {| rng := unit;
     rng_seed := fun _ => tt;
     rng_random := fun _ => (u, tt);
     rng_randbelow := fun _ _ => (k, tt) |}.


(** A loss-making firm: profit [-500], savings [1000]. *)
Definition loss_maker : ISP nat :=
  mkISP "Telstra" [] true (Some [0; 1; 2; 3]%nat) false None None None (-500) 1000.

(** A household of the urban quadrant with income 3000 that holds a mobile
    plan at 30 and a wifi plan at 50, in a market with no firm. *)
Definition small_store : list plan :=
  [mkPlan "A" mobile 10 "remote" 30 "Telstra"; mkPlan "A" wifi 12 "urban" 50 "NBN Co"].

Definition settled_household : person nat :=
  mkPerson (0, 0)%nat true 3000 (Some 0%nat, Some 1%nat) None.

Definition one_household_world : @world (constant_random 0.3 0) :=
  @mkWorld (constant_random 0.3 0) (@mkDraws (constant_random 0.3 0) tt 0%Z)
           small_store [] [[]; []; []; []] [settled_household].

(** The pass state in which that household, untouched last month, has a
    switching cost of 0.9. *)
Definition reluctant_pass : pass := mkPass 0 [0.9%Q] [0%nat] unbound.

(** The monthly price of a bundle: the sum of the prices of its legs. *)
Definition bundle_price {P} (view : P -> plan) (b : option P * option P) : Q :=
  match b with
  | (Some m, Some w) => (plan_price (view m) + plan_price (view w))%Q
  | (Some m, None) => plan_price (view m)
  | (None, Some w) => plan_price (view w)
  | (None, None) => 0%Q
  end.

(** The price of option number [i] of a list of options. *)
Definition option_price {P} (view : P -> plan) (bundles : options P) (i : nat)
    : option Q :=
  match bundles with
  | bundles_of l =>
      match l !! i with
      | Some (m, w) => Some (plan_price (view m) + plan_price (view w))%Q
      | None => None
      end
  | plans_of l =>
      match l !! i with
      | Some pl => Some (plan_price (view pl))
      | None => None
      end
  end.

(** A household with income 1000 that holds a mobile plan at 100 and a wifi
    plan at 150: its bundle costs exactly a quarter of its income. *)
Definition mobile_at_100 : plan := mkPlan "A" mobile 40 "remote" 100 "Telstra".
Definition wifi_at_150 : plan := mkPlan "A" wifi 50 "urban" 150 "NBN Co".

Definition household_at_ceiling : person plan :=
  mkPerson (0, 0)%nat true 1000 (Some mobile_at_100, Some wifi_at_150) (Some 25%Q).

(** The evaluation tuple of a complete bundle, given the two maxima. *)
Definition evaluated {P} (view : P -> plan) (max_GB max_Mbps : Q) (b : P * P) : eval :=
  mkEval (plan_price (view (fst b)) + plan_price (view (snd b)))
         ((plan_capacity (view (fst b)) / max_GB
           + plan_capacity (view (snd b)) / max_Mbps) / 2)
         (flag_of_bool (Qgtb (plan_capacity (view (fst b))) 61))
         (flag_of_bool (Qgtb (plan_capacity (view (snd b))) 25)).

Definition positive_capacities {P} (view : P -> plan) (b : P * P) : Prop :=
  (0 < plan_capacity (view (fst b)))%Q /\ (0 < plan_capacity (view (snd b)))%Q.

(** The cheap-bundle scenario: an agent with income 3000 and no bundle, a
    basic bundle at 30 + 50 = 80 (10 GB, 12 Mbps: under both quality
    thresholds), a fast bundle at 60 + 80 = 140 (100 GB, 50 Mbps: over both)
    and a good bundle at 30 + 50 = 80 (100 GB, 50 Mbps). *)
Definition newcomer_3000 : person plan :=
  mkPerson (0, 0)%nat true 3000 (None, None) None.

Definition basic_mobile_30 : plan := mkPlan "A" mobile 10 "remote" 30 "Telstra".
Definition basic_wifi_50 : plan := mkPlan "A" wifi 12 "urban" 50 "NBN Co".
Definition fast_mobile_60 : plan := mkPlan "B" mobile 100 "remote" 60 "Telstra".
Definition fast_wifi_80 : plan := mkPlan "B" wifi 50 "urban" 80 "NBN Co".
Definition good_mobile_30 : plan := mkPlan "C" mobile 100 "remote" 30 "Optus".
Definition good_wifi_50 : plan := mkPlan "C" wifi 50 "urban" 50 "NBN Co".

Definition slow_wifi_80 : plan := mkPlan "B" wifi 12 "urban" 80 "NBN Co".

(** A computation that returns in every state. *)
Definition never_fails {S A} (m : St S A) : Prop :=
  forall s, exists a s', m s = Ok (a, s').





(** Firm [isp] serves quadrant [quad]: both capability tests of
    [pick_operators] succeed and one of them holds. *)
Definition covers {P} (quad : nat) (isp : ISP P) : Prop :=
  exists has_mobile has_wifi,
    serves (mobile_offered isp) (mobile_locations_offered isp) quad = Ok has_mobile
    /\ serves (wifi_offered isp) (wifi_locations_offered isp) quad = Ok has_wifi
    /\ has_mobile || has_wifi = true.

(** Every index of [choices] names a firm that serves [quad]. *)
Definition operators_cover {P} (ISPs : list (ISP P)) (quad : nat) (choices : list nat)
    : Prop :=
  Forall (fun i => exists isp, ISPs !! i = Some isp /\ covers quad isp) choices.

(** A firm that offers mobile service everywhere, with a profit of 2 and
    savings of 100. *)
Definition national_firm : ISP nat :=
  mkISP "Telstra" [] true (Some [0; 1; 2; 3]%nat) false None None None 2 100.

(** The loop state of [pick_operators] is sound: one positive probability
    per remaining candidate, and every remaining candidate serves the
    quadrant. *)
Definition sound_picking {P} (ISPs : list (ISP P)) (quad : nat) (st : @picking P)
    : Prop :=
  length (pr_effective_marketing st) = length (choices st)
  /\ Forall (fun x => (0 < x)%Q) (pr_effective_marketing st)
  /\ operators_cover ISPs quad (choices st).

(** A computation that leaves [operator_locations] as it found it. *)
Definition keeps_operators `{RandomModule} {A} (m : St world A) : Prop :=
  forall w a w', m w = Ok (a, w') -> w_operator_locations w' = w_operator_locations w.

(** No quadrant lists a firm twice. *)
Definition no_duplicate_operators (operator_locations : list (list nat)) : Prop :=
  Forall (fun quad => NoDup quad) operator_locations.

(** Firm [firm] is listed in no quadrant. *)
Definition operates_nowhere (firm : nat) (operator_locations : list (list nat)) : Prop :=
  Forall (fun quad => ~ In firm quad) operator_locations.


(** A market of a single mobile-only firm without savings, in a country
    where no cell is populated (every draw is 0.99); the run is started
    from a world that holds the leftovers of nothing. *)
Definition lone_firm_parameters : parameters :=
  mkParameters [mkPlan "Telstra" mobile 10 "remote" 30 "Telstra"] [1%Q] 0
    0.5 0.2 10 20 0.1 0.1 3 0.1 0.1 3 0 0.1 2 0.25 0.5 0.5 7 2.


(** The cell number [k] of the grid when nobody lives there. *)
Definition unpopulated (k : nat) : person nat :=
  mkPerson (k / 100, k mod 100)%nat false 0 (None, None) None.

Definition deserted_grid : list (person nat) := map unpopulated (seq 0 (100 * 100)).






(** A list of numbers that increases strictly from each position to the
    next ones. *)
Fixpoint strictly_increasing (l : list nat) : Prop :=
  match l with
  | [] => True
  | a :: rest => Forall (fun b => (a < b)%nat) rest /\ strictly_increasing rest
  end.

(** What the mobile footprint of a roster comes to: everywhere once a
    mobile plan is remote, otherwise what the last mobile plan says. *)
Definition is_mobile_plan (pl : plan) : bool := service_eqb (plan_service pl) mobile.

Definition mobile_footprint (plans : list plan) : list nat :=
  if existsb (fun pl => is_mobile_plan pl && (plan_footprint pl =? "remote")%string) plans
  then [0; 1; 2; 3]%nat
  else match last (List.filter is_mobile_plan plans) with
       | None => []
       | Some pl => if (plan_footprint pl =? "regional")%string then [0; 1; 2]%nat
                    else [0]%nat
       end.

(** A table of four plans of two providers. *)
Definition small_table : list plan :=
  [mkPlan "Telstra" mobile 40 "remote" 60 "Telstra";
   mkPlan "Telstra" wifi 50 "urban" 80 "NBN Co";
   mkPlan "Optus" mobile 20 "regional" 30 "Optus";
   mkPlan "Optus" wifi 25 "regional" 60 "NBN Co"].


(** What the wifi footprint of a roster comes to: the urban quadrant once a
    wifi plan is neither remote nor regional, the two regional quadrants
    once a wifi plan is remote or regional, the remote quadrant once a wifi
    plan is remote. *)
Definition is_wifi_plan (pl : plan) : bool := service_eqb (plan_service pl) wifi.

Definition wifi_footprint (plans : list plan) : list nat :=
  (if existsb (fun pl => is_wifi_plan pl
                         && negb (plan_footprint pl =? "remote")%string
                         && negb (plan_footprint pl =? "regional")%string) plans
   then [0]%nat else [])
  ++ (if existsb (fun pl => is_wifi_plan pl
                            && ((plan_footprint pl =? "remote")%string
                                || (plan_footprint pl =? "regional")%string)) plans
      then [1; 2]%nat else [])
  ++ (if existsb (fun pl => is_wifi_plan pl && (plan_footprint pl =? "remote")%string)
                 plans
      then [3]%nat else []).

(** What the wifi loop keeps true of [total_locations_operational]: no
    quadrant twice, and the two regional quadrants together. *)
Definition footprint_invariant (acc : list nat) : Prop :=
  List.NoDup acc /\ (In 1%nat acc <-> In 2%nat acc).


(** Two firms: one with mobile service everywhere and wifi in the urban
    quadrant, one with mobile service in quadrants 0 to 2 and wifi in the
    regional quadrants. *)
Definition two_firms : list (ISP nat) :=
  [mkISP "Telstra" [0; 1]%nat true (Some [0; 1; 2; 3]%nat) true (Some [0]%nat)
         None None 1 100;
   mkISP "Optus" [2; 3]%nat true (Some [0; 1; 2]%nat) true (Some [1; 2]%nat)
         None None 1 100].


(** The three footprint strings of the plan tables. *)
Definition known_footprint (footprint : string) : Prop :=
  footprint = "urban"%string \/ footprint = "regional"%string
  \/ footprint = "remote"%string.

(** Plans of the availability examples. *)
Definition regional_wifi_60 : plan := mkPlan "Optus" wifi 25 "regional" 60 "NBN Co".
Definition urban_mobile_30 : plan := mkPlan "Optus" mobile 20 "urban" 30 "Optus".
Definition slow_wifi_14 : plan := mkPlan "Optus" wifi 14 "urban" 40 "NBN Co".
Definition wifi_of_speed (speed : Q) : plan := mkPlan "Optus" wifi speed "urban" 40 "NBN Co".


(** A roster with a wifi plan of 14 Mbps at 40 and one of 50 Mbps at 80,
    both urban. *)
Definition urban_wifi_80 : plan := mkPlan "Optus" wifi 50 "urban" 80 "NBN Co".
Definition wifi_roster : list plan := [slow_wifi_14; urban_wifi_80].


(** What Python promises of its generator: [random.random()] lies in
    [0, 1), and [_randbelow(n)] lies below [n]. *)
Definition random_in_unit_interval (R : RandomModule) : Prop :=
  forall g : rng, (0 <= fst (rng_random g))%Q /\ (fst (rng_random g) < 1)%Q.

Definition randbelow_in_range (R : RandomModule) : Prop :=
  forall (n : nat) (g : rng), (0 < n)%nat -> (fst (rng_randbelow n g) < n)%nat.


(** Two firms of which the second has run out of savings. *)
Definition firm_and_dead_firm : list (ISP nat) :=
  [mkISP "Telstra" [0; 1]%nat true (Some [0; 1; 2; 3]%nat) true (Some [0]%nat)
         None None 1 100;
   mkISP "Optus" [2; 3]%nat true (Some [0; 1; 2]%nat) true (Some [1; 2]%nat)
         None None (-5) 0].


(** A wifi roster with plans at 40, 60, 80 and 100, all urban. *)
Definition four_wifi_plans : list plan :=
  [mkPlan "Optus" wifi 12 "urban" 40 "NBN Co";
   mkPlan "Optus" wifi 25 "urban" 60 "NBN Co";
   mkPlan "Optus" wifi 50 "urban" 80 "NBN Co";
   mkPlan "Optus" wifi 100 "urban" 100 "NBN Co"].

(** Whether an own wifi plan and a candidate wifi plan are similar: same
    footprint, and the own speed within 40% of the candidate's. *)
Definition similar_wifi (own candidate : plan) : Prop :=
  plan_service own = wifi /\ plan_service candidate = wifi
  /\ plan_footprint own = plan_footprint candidate
  /\ (plan_capacity candidate - 0.4 * plan_capacity candidate < plan_capacity own)%Q
  /\ (plan_capacity own < plan_capacity candidate + 0.4 * plan_capacity candidate)%Q.


(** A world without firms whose grid has no populated cell. *)
Definition deserted_world : @world (constant_random 0.3 0) :=
  @mkWorld (constant_random 0.3 0) (@mkDraws (constant_random 0.3 0) tt 0%Z)
           [] [] [[]; []; []; []] deserted_grid.


(* ================================================================== *)
(** * The population structures of the bookkeeping                       *)
(* ================================================================== *)

(** The grid array is read in the order of [for row in range(100): for
    cell in range(100)]; cell number [k] is [grid[k // 100, k % 100]]. *)

(** [int(x)]: truncation towards zero. *)
Definition py_int (x : Q) : Z := if Qle_bool 0 x then Qfloor x else Qceiling x.

(** [sorted(incomes)] *)
Fixpoint insert_income (x : Q) (l : list Q) : list Q :=
  match l with
  | [] => [x]
  | y :: rest => if Qle_bool x y then x :: l else y :: insert_income x rest
  end.

Definition sorted_incomes (l : list Q) : list Q := fold_right insert_income [] l.

(** [find_the_quintiles]: the income thresholds of the five quintiles. *)
Definition find_the_quintiles {P} (grid : list (person P)) : result (list Z) :=
  let incomes := sorted_incomes (map income (List.filter populated grid)) in
  let num_agents := length incomes in
  let num_per_quintile := (num_agents / 5)%nat in
  let+ threshholds :=
    res_map (fun i => let+ x := subscript incomes (num_per_quintile * (i + 1)) in
                      Ok (py_int x))
            (seq 0 4) in
  match last incomes with          (* [incomes[-1]] *)
  | Some x => Ok (threshholds ++ [py_int x])
  | None => Raise IndexError
  end.

(** The [if income < threshholds[0]: ... elif ...] cascade. *)
Definition quintile_of (threshholds : list Z) (income : Q) : result nat :=
  let+ t0 := subscript threshholds 0 in
  if Qltb income (inject_Z t0) then Ok 1%nat
  else
    let+ t1 := subscript threshholds 1 in
    if Qltb income (inject_Z t1) then Ok 2%nat
    else
      let+ t2 := subscript threshholds 2 in
      if Qltb income (inject_Z t2) then Ok 3%nat
      else
        let+ t3 := subscript threshholds 3 in
        if Qltb income (inject_Z t3) then Ok 4%nat else Ok 5%nat.

(** [for ...: q = structure[row, cell]; if q != 0: populations[q - 1] += 1] *)
Fixpoint count_up (populations : list nat) (structure : list nat) : result (list nat) :=
  match structure with
  | [] => Ok populations
  | q :: rest =>
      if (q =? 0)%nat then count_up populations rest
      else
        let+ n := subscript populations (q - 1) in
        count_up (<[(q - 1)%nat := S n]> populations) rest
  end.

(** [initialise_quintile_structures]: the quintile of every cell (0 for an
    empty cell), the population of each quintile and the total
    population. *)
Definition initialise_quintile_structures {P} (grid : list (person P))
    : result (list nat * list nat * nat) :=
  let+ threshholds := find_the_quintiles grid in
  let+ quintile_structure :=
    res_map (fun c => if populated c then quintile_of threshholds (income c)
                      else Ok 0%nat) grid in
  let total_population := length (List.filter populated grid) in
  let+ populations := count_up (repeat 0%nat (length threshholds)) quintile_structure in
  Ok (quintile_structure, populations, total_population).

(** The remoteness area of cell number [k]: 1 urban, 2 regional,
    3 remote. *)
Definition remoteness_area (k : nat) : nat :=
  let row := (k / 100)%nat in
  let cell := (k mod 100)%nat in
  if (row <? 50)%nat && (cell <? 50)%nat then 1%nat
  else if (50 <=? row)%nat && (50 <=? cell)%nat then 3%nat
  else 2%nat.

(** [initialise_RA_structures]: the remoteness area of every cell (0 for an
    empty cell) and the population of each area. *)
Definition initialise_RA_structures {P} (grid : list (person P))
    : result (list nat * list nat) :=
  let RA_structure :=
    map (fun kc => if populated (snd kc) then remoteness_area (fst kc) else 0%nat)
        (combine (seq 0 (length grid)) grid) in
  let+ populations := count_up [0; 0; 0]%nat RA_structure in
  Ok (RA_structure, populations).

(** The bookkeeping as [simulate_market_dynamics] starts it:
    [initialise_quintile_structures], then [initialise_RA_structures];
    [update] stands for [update_data_stores3]. *)
Definition counting_reporting
    (update : list (ISP nat) -> list plan -> list (person nat) -> result unit)
    : Reporting :=
  {| initialise_report_structures :=
       fun grid =>
         let+ (_, _, total_population) := initialise_quintile_structures grid in
         let+ _ := initialise_RA_structures grid in
         Ok (inject_Z (Z.of_nat total_population));
     update_data_stores3 := update |}.

(** The remoteness area of a quadrant. *)
Definition area_of_quad (quad : nat) : nat :=
  match quad with
  | 0 => 1
  | 1 | 2 => 2
  | _ => 3
  end%nat.

Fixpoint non_decreasing (l : list Q) : Prop :=
  match l with
  | [] => True
  | a :: rest => Forall (fun b => (a <= b)%Q) rest /\ non_decreasing rest
  end.

(** A country with a single household, in cell (50, 50). *)
Definition lone_household_grid : list (person nat) :=
  <[cell_number 50 50 := mkPerson (50, 50)%nat true 3000.75 (None, None) None]> deserted_grid.

(* ================================================================== *)
(** * Properties                                                         *)
(* ================================================================== *)

(* ------------------------------------------------------------------ *)
(** ** Comparisons and arithmetic                                        *)
(* ------------------------------------------------------------------ *)

Lemma Qltb_true (x y : Q) : Qltb x y = true <-> (x < y)%Q.
Proof.
  unfold Qltb. rewrite negb_true_iff.
  destruct (Qle_bool y x) eqn:E.
  - apply Qle_bool_iff in E. split; [discriminate | intros L; exfalso; lra].
  - split; [intros _ | reflexivity].
    destruct (Qlt_le_dec x y) as [L | L]; [exact L |].
    apply Qle_bool_iff in L. congruence.
Qed.

Lemma Qltb_false (x y : Q) : Qltb x y = false <-> (y <= x)%Q.
Proof.
  unfold Qltb. rewrite negb_false_iff. apply Qle_bool_iff.
Qed.

Lemma Qgtb_true (x y : Q) : Qgtb x y = true <-> (y < x)%Q.
Proof. apply Qltb_true. Qed.

Lemma Qgtb_false (x y : Q) : Qgtb x y = false <-> (x <= y)%Q.
Proof. apply Qltb_false. Qed.

Lemma Qgeb_true (x y : Q) : Qgeb x y = true <-> (y <= x)%Q.
Proof. apply Qle_bool_iff. Qed.

Lemma Qgeb_false (x y : Q) : Qgeb x y = false <-> (x < y)%Q.
Proof.
  unfold Qgeb. rewrite <- (Qltb_true x y). unfold Qltb.
  destruct (Qle_bool y x); simpl; split; congruence.
Qed.

Lemma Qle_bool_false (x y : Q) : Qle_bool x y = false <-> (y < x)%Q.
Proof. apply (Qgeb_false y x). Qed.

Lemma Qeq_bool_false (x y : Q) : Qeq_bool x y = false <-> ~ (x == y)%Q.
Proof.
  split.
  - intros E Heq. apply Qeq_bool_iff in Heq. congruence.
  - intros N. destruct (Qeq_bool x y) eqn:E; [| reflexivity].
    apply Qeq_bool_iff in E. contradiction.
Qed.

Global Instance Qltb_proper : Proper (Qeq ==> Qeq ==> eq) Qltb.
Proof. intros x x' Hx y y' Hy. unfold Qltb. now rewrite Hx, Hy. Qed.

Global Instance Qgtb_proper : Proper (Qeq ==> Qeq ==> eq) Qgtb.
Proof. intros x x' Hx y y' Hy. unfold Qgtb. now rewrite Hx, Hy. Qed.

Global Instance Qgeb_proper : Proper (Qeq ==> Qeq ==> eq) Qgeb.
Proof. intros x x' Hx y y' Hy. unfold Qgeb. now rewrite Hx, Hy. Qed.

Lemma pydiv_ok (x y : Q) : ~ (y == 0)%Q -> pydiv x y = Ok (x / y)%Q.
Proof.
  intros N. unfold pydiv. now rewrite (proj2 (Qeq_bool_false y 0) N).
Qed.

Lemma pydiv_inv (x y q : Q) : pydiv x y = Ok q -> ~ (y == 0)%Q /\ q = (x / y)%Q.
Proof.
  unfold pydiv. destruct (Qeq_bool y 0) eqn:E; [discriminate |].
  intros [= <-]. split; [now apply Qeq_bool_false | reflexivity].
Qed.

(** [Qsum] with an explicit start value. *)
Lemma fold_Qplus_shift (l : list Q) (a : Q) :
  (fold_left Qplus l a == a + Qsum l)%Q.
Proof.
  unfold Qsum. revert a. induction l as [| x l IH]; intros a; simpl.
  - lra.
  - rewrite (IH (a + x)%Q), (IH (0 + x)%Q). lra.
Qed.

Lemma Qsum_cons (x : Q) (l : list Q) : (Qsum (x :: l) == x + Qsum l)%Q.
Proof.
  unfold Qsum at 1. simpl. rewrite fold_Qplus_shift. lra.
Qed.

Lemma Qsum_nil : Qsum [] = 0%Q.
Proof. reflexivity. Qed.

(* ------------------------------------------------------------------ *)
(** ** The monad                                                         *)
(* ------------------------------------------------------------------ *)

Lemma st_bind_ok {S A B} (m : St S A) (k : A -> St S B) (s : S) (b : B) (s' : S) :
  st_bind m k s = Ok (b, s') ->
  exists a s1, m s = Ok (a, s1) /\ k a s1 = Ok (b, s').
Proof.
  unfold st_bind. destruct (m s) as [[a s1] | e |]; [| discriminate ..].
  intros E. now exists a, s1.
Qed.

Lemma st_lift_ok {S A} (r : result A) (s : S) (a : A) (s' : S) :
  st_lift r s = Ok (a, s') -> r = Ok a /\ s' = s.
Proof.
  unfold st_lift. destruct r; [| discriminate ..]. now intros [= -> ->].
Qed.

Lemma st_ret_ok {S A} (x : A) (s : S) (a : A) (s' : S) :
  st_ret x s = Ok (a, s') -> a = x /\ s' = s.
Proof. unfold st_ret. now intros [= -> ->]. Qed.

Lemma res_bind_ok {A B} (r : result A) (k : A -> result B) (b : B) :
  res_bind r k = Ok b -> exists a, r = Ok a /\ k a = Ok b.
Proof.
  unfold res_bind. destruct r as [a | e |]; [| discriminate ..].
  intros E. now exists a.
Qed.

Lemma res_map_length {A B} (f : A -> result B) (l : list A) (l' : list B) :
  res_map f l = Ok l' -> length l' = length l.
Proof.
  revert l'. induction l as [| x l IH]; intros l'; simpl.
  - now intros [= <-].
  - intros E. apply res_bind_ok in E as (y & _ & E).
    apply res_bind_ok in E as (ys & Hys & E). injection E as <-.
    simpl. f_equal. now apply IH.
Qed.

Lemma res_map_lookup {A B} (f : A -> result B) (l : list A) (l' : list B)
    (i : nat) (y : B) :
  res_map f l = Ok l' -> l' !! i = Some y -> exists x, l !! i = Some x /\ f x = Ok y.
Proof.
  revert l' i. induction l as [| x l IH]; intros l' i; simpl.
  - intros [= <-]. now rewrite lookup_nil.
  - intros E. apply res_bind_ok in E as (z & Hz & E).
    apply res_bind_ok in E as (zs & Hzs & E). injection E as <-.
    destruct i as [| i]; simpl.
    + intros [= <-]. now exists x.
    + intros Hi. now apply (IH zs i).
Qed.

(* ------------------------------------------------------------------ *)
(** ** Marketing spend                                                   *)
(* ------------------------------------------------------------------ *)

(** The expense deducted by the profit computation and the sampling weight
    agree for a firm whose profit is not negative. *)
Lemma marketing_agrees_without_losses {P} (MarketingBudget : Q) (isp : ISP P) :
  (0 <= profit isp)%Q ->
  marketing_expenditure MarketingBudget isp = marketing_weight MarketingBudget isp.
Proof.
  intros Hp. unfold marketing_expenditure, marketing_weight.
  destruct (Qeq_bool (profit isp) 0) eqn:E0, (Qle_bool (profit isp) 0) eqn:E1;
    try reflexivity.
  - apply Qeq_bool_iff in E0. apply Qle_bool_false in E1. lra.
  - apply Qeq_bool_false in E0. apply Qle_bool_iff in E1.
    exfalso. apply E0. lra.
Qed.

(** For a firm with a negative profit the profit computation deducts
    [MarketingBudget * profit] while the sampling weight is
    [MarketingBudget * moneypool]. *)
Lemma marketing_differs_on_losses {P} (MarketingBudget : Q) (isp : ISP P) :
  (profit isp < 0)%Q ->
  marketing_expenditure MarketingBudget isp = (MarketingBudget * profit isp)%Q
  /\ marketing_weight MarketingBudget isp = (MarketingBudget * moneypool isp)%Q.
Proof.
  intros Hp. unfold marketing_expenditure, marketing_weight. split.
  - destruct (Qeq_bool (profit isp) 0) eqn:E0; [| reflexivity].
    apply Qeq_bool_iff in E0. lra.
  - destruct (Qle_bool (profit isp) 0) eqn:E1; [reflexivity |].
    apply Qle_bool_false in E1. lra.
Qed.

(** C8, at a firm with profit -500 and savings 1000 and a marketing budget
    of one tenth: the monthly profit computation deducts -50 (a tenth of
    the profit), the consideration sampling weighs the firm by 100 (a tenth
    of the savings), and with no subscribers and no fees the firm's new
    profit is +50. *)
Theorem marketing_spend_of_a_loss_maker :
  (marketing_expenditure 0.1 loss_maker == -50)%Q
  /\ (marketing_weight 0.1 loss_maker == 100)%Q
  /\ match update_ISP_profits_and_moneypool (deref []) [loss_maker] [] 300 120 0 0 0.1 with
     | Ok ([firm], [new_profit], _) =>
         (new_profit == 50)%Q /\ (profit firm == 50)%Q /\ (moneypool firm == 1002.5)%Q
     | _ => False
     end.
Proof.
  split; [reflexivity |]. split; [reflexivity |].
  vm_compute. repeat split; reflexivity.
Qed.

(* ------------------------------------------------------------------ *)
(** ** Switching costs                                                   *)
(* ------------------------------------------------------------------ *)

(** What [update_switching_cost] computes, case by case, and the interval
    it stays in. *)
Lemma update_switching_cost_cases (switcher : nat) (cost inc : Q) :
  let new := update_switching_cost switcher cost inc in
  (switcher <> 0%nat -> new = 0%Q)
  /\ (switcher = 0%nat -> (cost < 1)%Q -> new = (cost + inc)%Q)
  /\ (switcher = 0%nat -> ~ (cost < 1)%Q -> new = cost)
  /\ ((0 <= inc)%Q -> (0 <= cost)%Q /\ (cost < 1 + inc)%Q ->
      (0 <= new)%Q /\ (new < 1 + inc)%Q).
Proof.
  unfold update_switching_cost.
  destruct (Nat.eqb_spec switcher 0) as [-> | Hs];
    destruct (Qltb cost 1) eqn:E;
    try apply Qltb_true in E; try apply Qltb_false in E;
    repeat split; intros; try congruence; try lra.
Qed.

Section PassProperties.
Context `{RandomModule} `{Reporting}.

(** C7 as the code has it: in the monthly pass, the switching cost of a
    populated household is reset to exactly zero if the household changed
    bundles last month; otherwise it rises by [SwitchingCostIncrease] while
    it is below 1 and is left alone once it is 1 or more.  With a
    non-negative increase the value stays in [0, 1 + SwitchingCostIncrease)
    (not in [0, 1)). *)
Theorem switching_cost_update_rule
    (fuel : nat) (replacements : list (nat * option nat))
    (SwitchingCostIncrease IncomeBudget : Q) (TimeBudget : Z)
    (MarketingBudget PrSacrificeWifi PrPickBetterValue : Q) (Seed : Z)
    (st st' : pass) (k : nat) (w w' : world) (c : person nat)
    (switcher : nat) (cost : Q) :
  agent_update fuel replacements SwitchingCostIncrease IncomeBudget TimeBudget
               MarketingBudget PrSacrificeWifi PrPickBetterValue Seed st k w
  = Ok (st', w') ->
  w_grid w !! k = Some c ->
  populated c = true ->
  pass_switchers st !! k = Some switcher ->
  pass_switching_costs st !! k = Some cost ->
  exists new,
    pass_switching_costs st' !! k = Some new
    /\ (switcher <> 0%nat -> new = 0%Q)
    /\ (switcher = 0%nat -> (cost < 1)%Q -> new = (cost + SwitchingCostIncrease)%Q)
    /\ (switcher = 0%nat -> ~ (cost < 1)%Q -> new = cost)
    /\ ((0 <= SwitchingCostIncrease)%Q ->
        (0 <= cost)%Q /\ (cost < 1 + SwitchingCostIncrease)%Q ->
        (0 <= new)%Q /\ (new < 1 + SwitchingCostIncrease)%Q).
Proof.
  intros Hrun Hc Hpop Hsw Hcost.
  exists (update_switching_cost switcher cost SwitchingCostIncrease).
  split; [| apply update_switching_cost_cases].
  unfold agent_update in Hrun.
  apply st_bind_ok in Hrun as (c0 & w0 & Hget & Hrun).
  unfold get_cell, subscript in Hget. rewrite Hc in Hget.
  apply st_lift_ok in Hget as [[= <-] ->].
  rewrite Hpop in Hrun.
  unfold subscript in Hrun. rewrite Hsw, Hcost in Hrun.
  apply st_bind_ok in Hrun as (? & ? & E1 & Hrun).
  apply st_lift_ok in E1 as [[= <-] ->].
  apply st_bind_ok in Hrun as (? & ? & E1 & Hrun).
  apply st_lift_ok in E1 as [[= <-] ->].
  assert (Hk : (k < length (pass_switching_costs st))%nat)
    by (apply lookup_lt_is_Some; eauto).
  apply st_bind_ok in Hrun as ([trigger inc_local] & w1 & _ & Hrun).
  destruct trigger.
  - repeat (apply st_bind_ok in Hrun as (? & ? & _ & Hrun)).
    apply st_ret_ok in Hrun as [-> _]. simpl.
    now apply list_lookup_insert_eq.
  - repeat (apply st_bind_ok in Hrun as (? & ? & _ & Hrun)).
    apply st_ret_ok in Hrun as [-> _]. simpl.
    now apply list_lookup_insert_eq.
Qed.
End PassProperties.

(** The rule at a household whose cost is 0.9, with an increase of 0.2. *)
Lemma switching_cost_update_rule_witness :
  exists st' w',
    @agent_update (constant_random 0.3 0) 10 [] 0.2 0.1 3 0.1 0.5 0.5 7
                  reluctant_pass 0 one_household_world = Ok (st', w')
    /\ exists new,
         pass_switching_costs st' !! 0%nat = Some new
         /\ (0%nat <> 0%nat -> new = 0%Q)
         /\ (0%nat = 0%nat -> (0.9 < 1)%Q -> new = (0.9 + 0.2)%Q)
         /\ (0%nat = 0%nat -> ~ (0.9 < 1)%Q -> new = 0.9%Q)
         /\ ((0 <= 0.2)%Q -> (0 <= 0.9)%Q /\ (0.9 < 1 + 0.2)%Q ->
             (0 <= new)%Q /\ (new < 1 + 0.2)%Q).
Proof.
  eexists. eexists. split.
  - vm_compute. reflexivity.
  - eapply (@switching_cost_update_rule (constant_random 0.3 0)
              10 [] 0.2 0.1 3 0.1 0.5 0.5 7 reluctant_pass _ 0%nat
              one_household_world _ settled_household 0%nat 0.9%Q).
    + vm_compute. reflexivity.
    + reflexivity.
    + reflexivity.
    + reflexivity.
    + reflexivity.
Defined.

(** C7 as stated fails: a household that made no change last month and has
    a switching cost of 0.9 leaves the pass (increase 0.2) with a cost of
    1.1, which is further from zero and outside [0, 1). *)
Lemma switching_cost_rises_out_of_unit_interval :
  match @agent_update (constant_random 0.3 0) 10 [] 0.2 0.1 3 0.1 0.5 0.5 7
                      reluctant_pass 0 one_household_world with
  | Ok (st', _) =>
      exists new, pass_switching_costs st' !! 0%nat = Some new
                  /\ (new == 1.1)%Q /\ (0.9 < new)%Q /\ ~ (new < 1)%Q
  | _ => False
  end.
Proof.
  vm_compute. eexists. split; [reflexivity |].
  split; [reflexivity |]. split; [reflexivity | discriminate].
Qed.

(* ------------------------------------------------------------------ *)
(** ** Normalisation of the consideration probabilities                  *)
(* ------------------------------------------------------------------ *)



(** The loop falls through to [return None] only when the excess is not
    positive. *)
Lemma shave_loop_none (fuel : nat) (amount_over : Q) (probs_array : list Q) :
  shave_loop fuel amount_over probs_array = Ok None -> (amount_over <= 0)%Q.
Proof.
  revert probs_array. induction fuel as [| fuel IH]; intros probs_array; simpl.
  - destruct (Qgtb amount_over 0) eqn:E; [discriminate |].
    intros _. now apply Qgtb_false.
  - destruct (Qgtb amount_over 0) eqn:E; [| intros _; now apply Qgtb_false].
    destruct (shave_pass amount_over probs_array); [apply IH | discriminate].
Qed.

Section Normalisation.
Context `{RandomModule}.

(** A vector that already adds up to 1 is returned as it is. *)
Lemma ensure_adds_to_1_exact (fuel : nat) (probs_array : list Q) (Seed : Z) (d : draws) :
  (Qsum probs_array == 1)%Q ->
  ensure_adds_to_1 fuel probs_array Seed d = Ok (Some probs_array, d).
Proof.
  intros Hsum. unfold ensure_adds_to_1.
  now rewrite (proj2 (Qeq_bool_iff _ _) Hsum).
Qed.

(** [ensure_adds_to_1] never returns [None]. *)
Lemma ensure_adds_to_1_not_none (fuel : nat) (probs_array : list Q) (Seed : Z)
    (d d' : draws) :
  ensure_adds_to_1 fuel probs_array Seed d <> Ok (None, d').
Proof.
  unfold ensure_adds_to_1.
  destruct (Qeq_bool (Qsum probs_array) 1) eqn:E1; [discriminate |].
  destruct (Qltb (Qsum probs_array) 1) eqn:E2.
  - intros E. repeat (apply st_bind_ok in E as (? & ? & _ & E)). discriminate.
  - intros E. apply st_lift_ok in E as [E _].
    apply shave_loop_none in E.
    apply Qeq_bool_false in E1. apply Qltb_false in E2.
    apply E1. lra.
Qed.


End Normalisation.

(** The probabilities computed in [pick_operators] add up to exactly 1 in
    exact arithmetic; the value of [round_up_to_nearest_001] is not used,
    so they are the plain quotients. *)
Lemma normalised_budgets_quotients (marketing_budgets : list Q) :
  ~ (Qsum marketing_budgets == 0)%Q ->
  normalised_budgets marketing_budgets
  = Ok (map (fun budget => budget / Qsum marketing_budgets)%Q marketing_budgets).
Proof.
  intros Htotal. unfold normalised_budgets.
  set (total := Qsum marketing_budgets) in *. clearbody total.
  induction marketing_budgets as [| b l IH]; simpl; [reflexivity |].
  rewrite (pydiv_ok b total Htotal). simpl. now rewrite IH.
Qed.

Lemma Qsum_quotients (l : list Q) (total : Q) :
  (Qsum (map (fun x => x / total) l) == Qsum l / total)%Q.
Proof.
  induction l as [| x l IH].
  - simpl. rewrite Qsum_nil. unfold Qdiv. lra.
  - simpl map. rewrite !Qsum_cons, IH. unfold Qdiv. lra.
Qed.

Lemma normalised_budgets_add_up (marketing_budgets pr : list Q) :
  normalised_budgets marketing_budgets = Ok pr ->
  marketing_budgets <> [] ->
  (Qsum pr == 1)%Q /\ length pr = length marketing_budgets.
Proof.
  intros Hpr Hne.
  assert (Ht : ~ (Qsum marketing_budgets == 0)%Q).
  { destruct marketing_budgets as [| b l]; [congruence |].
    unfold normalised_budgets in Hpr. simpl in Hpr.
    apply res_bind_ok in Hpr as (y & Hy & _).
    apply res_bind_ok in Hy as (q & Hq & _).
    now apply pydiv_inv in Hq as [Hq _]. }
  rewrite (normalised_budgets_quotients _ Ht) in Hpr. injection Hpr as <-.
  split; [| now rewrite length_map].
  rewrite Qsum_quotients. now field.
Qed.


(* ------------------------------------------------------------------ *)
(** ** The decision tree and the affordability ceiling                   *)
(* ------------------------------------------------------------------ *)

Section EvalProperties.
Context {P : Type} (view : P -> plan).

Lemma eval_bundle_price (max_GB max_Mbps : Q) (b : P * P) (e : eval) :
  eval_bundle view max_GB max_Mbps b = Ok e ->
  ev_price e = (plan_price (view (fst b)) + plan_price (view (snd b)))%Q.
Proof.
  unfold eval_bundle. intros E.
  apply res_bind_ok in E as (vm & _ & E).
  apply res_bind_ok in E as (vw & _ & E).
  now injection E as <-.
Qed.

Lemma eval_plan_price (max_value : Q) (p : P) (e : eval) :
  eval_plan view max_value p = Ok e -> ev_price e = plan_price (view p).
Proof.
  unfold eval_plan. intros E.
  apply res_bind_ok in E as (v & _ & E).
  destruct (plan_service (view p)); now injection E as <-.
Qed.

(** The evaluation of option [i] carries the price of option [i]. *)
Lemma create_bundle_eval_list_price (bundles : options P) (evals : list eval)
    (i : nat) (e : eval) :
  create_bundle_eval_list view bundles = Ok evals ->
  evals !! i = Some e ->
  option_price view bundles i = Some (ev_price e).
Proof.
  intros Hev Hi. destruct bundles as [l | l]; simpl.
  - assert (E : res_map (eval_bundle view
                  (max_capacity (map (fun b => plan_capacity (view (fst b))) l))
                  (max_capacity (map (fun b => plan_capacity (view (snd b))) l))) l
                = Ok evals) by (destruct l; [discriminate | exact Hev]).
    destruct (res_map_lookup _ _ _ _ _ E Hi) as ([m w] & -> & Hb).
    apply eval_bundle_price in Hb. simpl in Hb. now rewrite Hb.
  - assert (E : res_map (eval_plan view
                  (max_capacity (map (fun p => plan_capacity (view p)) l))) l
                = Ok evals) by (destruct l; [discriminate | exact Hev]).
    destruct (res_map_lookup _ _ _ _ _ E Hi) as (p & -> & Hb).
    apply eval_plan_price in Hb. now rewrite Hb.
Qed.

Lemma eval_single_price (bundles : options P) (e : eval) :
  eval_single view bundles = Ok e ->
  option_price view bundles 0 = Some (ev_price e).
Proof.
  unfold eval_single. intros E.
  apply res_bind_ok in E as (l & Hl & E).
  destruct l as [| e0 l]; [discriminate |]. injection E as <-.
  now apply (create_bundle_eval_list_price bundles (e0 :: l) 0 e0).
Qed.

(** The baseline is the placeholder or the evaluation of the bundle the
    person holds. *)
Lemma initial_current_best_price (person : person P) (bundles : options P)
    (initial_call : bool) (cb : eval) :
  initial_current_best view person bundles initial_call = Ok cb ->
  cb = dummy_bundle \/ ev_price cb = bundle_price view (bundle person).
Proof.
  unfold initial_current_best.
  destruct (bundle person) as [[m |] [w |]]; simpl;
    repeat match goal with
           | |- (if ?b then _ else _) = _ -> _ => destruct b
           end;
    intros E; try (left; congruence);
    right; apply eval_single_price in E; simpl in E; congruence.
Qed.
End EvalProperties.

Section TreeProperties.
Context `{RandomModule}.

Ltac crunch H :=
  repeat first
    [ apply st_ret_ok in H as [? ?]; subst
    | apply st_bind_ok in H as (? & ? & ? & H)
    | match type of H with
      | (if ?b then _ else _) _ = Ok _ => destruct b eqn:?
      | (let (_, _) := ?x in _) _ = Ok _ => destruct x
      end ].

(** One round of the loop of [decision_tree] keeps the current best or
    takes the new option, and it takes it only when the new option is under
    the ceiling. *)
Lemma decision_tree_loop_step
    (income IncomeBudget PrS PrV : Q) (Seed : Z) (new : eval) (rest : list eval)
    (n : nat) (cb : eval) (cbi : option nat) (d d' : draws) (r : eval * option nat) :
  decision_tree_loop income IncomeBudget PrS PrV Seed (new :: rest) n cb cbi d = Ok (r, d') ->
  ~ (income == 0)%Q
  /\ exists cb1 cbi1 d1,
       decision_tree_loop income IncomeBudget PrS PrV Seed rest (S n) cb1 cbi1 d1 = Ok (r, d')
       /\ ((cb1 = cb /\ cbi1 = cbi)
           \/ (cb1 = new /\ cbi1 = Some n /\ (ev_price new / income < IncomeBudget)%Q)).
Proof.
  intros Hrun. simpl in Hrun.
  apply st_bind_ok in Hrun as (ratio & d0 & Hratio & Hrun).
  apply st_lift_ok in Hratio as [Hratio ->].
  apply pydiv_inv in Hratio as [Hinc ->].
  split; [exact Hinc |].
  apply st_bind_ok in Hrun as ([cb1 cbi1] & d1 & Hbody & Hrun).
  exists cb1, cbi1, d1. split; [exact Hrun |].
  clear Hrun.
  destruct (Qltb (ev_price new / income) IncomeBudget) eqn:Eaff.
  - apply Qltb_true in Eaff.
    crunch Hbody;
      match goal with
      | E : (_, _) = (_, _) |- _ => injection E as -> ->
      end; auto.
  - apply st_ret_ok in Hbody as [[= -> ->] _]. auto.
Qed.

(** The loop ends with the baseline it started from, or with one of the
    options, and then that option is strictly under the ceiling. *)
Lemma decision_tree_loop_result
    (income IncomeBudget PrS PrV : Q) (Seed : Z) (evals : list eval)
    (n : nat) (cb : eval) (cbi : option nat) (d d' : draws)
    (cb' : eval) (cbi' : option nat) :
  decision_tree_loop income IncomeBudget PrS PrV Seed evals n cb cbi d
  = Ok ((cb', cbi'), d') ->
  (cb' = cb /\ cbi' = cbi)
  \/ exists i, cbi' = Some (n + i)%nat /\ evals !! i = Some cb'
               /\ (ev_price cb' / income < IncomeBudget)%Q.
Proof.
  revert n cb cbi d. induction evals as [| new rest IH]; intros n cb cbi d Hrun.
  - apply st_ret_ok in Hrun as [[= -> ->] _]. now left.
  - apply decision_tree_loop_step in Hrun as (_ & cb1 & cbi1 & d1 & Hrest & Hstep).
    apply IH in Hrest as [[-> ->] | (i & -> & Hi & Hlt)].
    + destruct Hstep as [[-> ->] | (-> & -> & Hlt)]; [now left |].
      right. exists 0%nat. rewrite Nat.add_0_r. auto.
    + right. exists (S i). split; [f_equal; lia | auto].
Qed.
End TreeProperties.


Section TreeResults.
Context `{RandomModule} {P : Type} (view : P -> plan).

(** What a result of [decision_tree] means: a picked option is strictly
    under the ceiling; ['no change'] means that the baseline was never
    displaced and is not over the ceiling. *)
Lemma decision_tree_result (person : person P) (bundles : options P)
    (IncomeBudget PrS PrV : Q) (Seed : Z) (initial_call : bool)
    (d d' : draws) (c : choice) :
  decision_tree view person bundles IncomeBudget PrS PrV Seed initial_call d
  = Ok (c, d') ->
  match c with
  | no_option => True
  | pick i =>
      exists price, option_price view bundles i = Some price
                    /\ (price / income person < IncomeBudget)%Q
  | no_change =>
      exists cb, initial_current_best view person bundles initial_call = Ok cb
                 /\ ~ (income person == 0)%Q
                 /\ (ev_price cb / income person <= IncomeBudget)%Q
  end.
Proof.
  unfold decision_tree. intros Hrun.
  destruct (options_empty bundles).
  { apply st_ret_ok in Hrun as [-> _]. exact I. }
  apply st_bind_ok in Hrun as (evals & d0 & Hev & Hrun).
  apply st_lift_ok in Hev as [Hev ->].
  apply st_bind_ok in Hrun as (cb & d0 & Hcb & Hrun).
  apply st_lift_ok in Hcb as [Hcb ->].
  apply st_bind_ok in Hrun as ([cb' cbi'] & d1 & Hloop & Hrun).
  apply decision_tree_loop_result in Hloop.
  destruct cbi' as [i |].
  - apply st_ret_ok in Hrun as [-> _].
    destruct Hloop as [[_ [=]] | (j & [= ->] & Hj & Hlt)].
    exists (ev_price cb'). split; [| exact Hlt].
    now apply (create_bundle_eval_list_price view bundles evals).
  - destruct Hloop as [[-> _] | (j & [=] & _)].
    unfold price_is_dummy_string in Hrun.
    apply st_bind_ok in Hrun as (ratio & d2 & Hratio & Hrun).
    apply st_lift_ok in Hratio as [Hratio ->].
    apply pydiv_inv in Hratio as [Hinc ->].
    destruct (Qgtb (ev_price cb / income person) IncomeBudget) eqn:E;
      apply st_ret_ok in Hrun as [-> _]; [exact I |].
    apply Qgtb_false in E. now exists cb.
Qed.

(** The affordability invariant as the code has it.  When the placeholder
    is itself over the ceiling (1000000000 / income > IncomeBudget), every
    bundle that [decide_bundle] returns is the disconnected state, or a
    newly chosen option strictly under the ceiling, or the bundle the
    person already holds, which is under or exactly at the ceiling. *)
Theorem decide_bundle_affordable (person : person P)
    (complete_bundles : list (P * P)) (mobile_plans wifi_plans : list P)
    (PrS PrV IncomeBudget : Q) (Seed : Z) (initial_call : bool)
    (d d' : draws) (b : option P * option P) :
  (IncomeBudget < 1000000000 / income person)%Q ->
  decide_bundle view person complete_bundles mobile_plans wifi_plans
                PrS PrV IncomeBudget Seed initial_call d = Ok (b, d') ->
  b = (None, None)
  \/ (bundle_price view b / income person < IncomeBudget)%Q
  \/ (b = bundle person
      /\ (bundle_price view b / income person <= IncomeBudget)%Q).
Proof.
  intros Hdummy Hrun. unfold decide_bundle in Hrun.
  assert (Hkeep : forall bundles d1 d2,
             decision_tree view person bundles IncomeBudget PrS PrV Seed initial_call d1
             = Ok (no_change, d2) ->
             (bundle_price view (bundle person) / income person <= IncomeBudget)%Q).
  { intros bundles d1 d2 Htree.
    apply decision_tree_result in Htree as (cb & Hcb & Hinc & Hle).
    apply initial_current_best_price in Hcb as [-> | <-]; [| exact Hle].
    simpl in Hle. lra. }
  apply st_bind_ok in Hrun as (c1 & d1 & Htree1 & Hrun).
  destruct c1 as [| | i].
  - apply st_bind_ok in Hrun as (c2 & d2 & Htree2 & Hrun).
    destruct c2 as [| | i].
    + apply st_bind_ok in Hrun as (c3 & d3 & Htree3 & Hrun).
      destruct c3 as [| | i].
      * apply st_ret_ok in Hrun as [-> _]. now left.
      * apply st_ret_ok in Hrun as [-> _]. right. right. eauto.
      * apply decision_tree_result in Htree3 as (price & Hprice & Hlt).
        simpl in Hprice. destruct (wifi_plans !! i) as [w |]; [| discriminate].
        injection Hprice as <-.
        apply st_ret_ok in Hrun as [-> _]. right. now left.
    + apply st_ret_ok in Hrun as [-> _]. right. right. eauto.
    + apply decision_tree_result in Htree2 as (price & Hprice & Hlt).
      simpl in Hprice. destruct (mobile_plans !! i) as [m |]; [| discriminate].
      injection Hprice as <-.
      apply st_ret_ok in Hrun as [-> _]. right. now left.
  - apply st_ret_ok in Hrun as [-> _]. right. right. eauto.
  - apply decision_tree_result in Htree1 as (price & Hprice & Hlt).
    simpl in Hprice. destruct (complete_bundles !! i) as [[m w] |]; [| discriminate].
    injection Hprice as <-.
    apply st_ret_ok in Hrun as [-> _]. right. now left.
Qed.
End TreeResults.


Section Ceiling.
Context `{RandomModule}.

(** C1 at a household whose bundle costs exactly IncomeBudget times its
    income (income 1000, bundle 100 + 150, IncomeBudget 0.25), offered the
    plans of its own provider: [decide_bundle] keeps the bundle, although
    its price to income ratio is not strictly below the ceiling.  No draw
    is made, so this holds for every seed and every generator. *)
Theorem decide_bundle_keeps_bundle_at_ceiling
    (PrSacrificeWifi PrPickBetterValue : Q) (Seed : Z) (d : draws) :
  decide_bundle (fun pl => pl) household_at_ceiling
                [(mobile_at_100, wifi_at_150)] [mobile_at_100] [wifi_at_150]
                PrSacrificeWifi PrPickBetterValue 0.25 Seed false d
  = Ok ((Some mobile_at_100, Some wifi_at_150), d)
  /\ (bundle_price (fun pl => pl) (Some mobile_at_100, Some wifi_at_150)
      / income household_at_ceiling == 0.25)%Q
  /\ ~ (bundle_price (fun pl => pl) (Some mobile_at_100, Some wifi_at_150)
        / income household_at_ceiling < 0.25)%Q.
Proof.
  split; [reflexivity |]. split; [reflexivity |].
  intros Hlt. vm_compute in Hlt. discriminate.
Qed.
End Ceiling.


(* ------------------------------------------------------------------ *)
(** ** Evaluation succeeds on positive capacities                        *)
(* ------------------------------------------------------------------ *)

Lemma max_capacity_from (caps : list Q) (start : Q) :
  (start <= fold_left (fun m c => if Qgtb c m then c else m) caps start)%Q
  /\ forall c, In c caps ->
       (c <= fold_left (fun m c => if Qgtb c m then c else m) caps start)%Q.
Proof.
  revert start. induction caps as [| x caps IH]; intros start; simpl.
  - split; [lra | contradiction].
  - destruct (IH (if Qgtb x start then x else start)) as [Hs Hin].
    destruct (Qgtb x start) eqn:E;
      [apply Qgtb_true in E | apply Qgtb_false in E].
    + split; [lra |]. intros c [<- | Hc]; [exact Hs | now apply Hin].
    + split; [exact Hs |]. intros c [<- | Hc]; [lra | now apply Hin].
Qed.

Lemma max_capacity_positive (caps : list Q) (c : Q) :
  In c caps -> (0 < c)%Q -> ~ (max_capacity caps == 0)%Q.
Proof.
  intros Hin Hpos Hz. unfold max_capacity in Hz.
  destruct (max_capacity_from caps 0) as [_ Hge].
  specialize (Hge c Hin). lra.
Qed.

Lemma res_map_total {A B} (f : A -> result B) (g : A -> B) (l : list A) :
  (forall x, In x l -> f x = Ok (g x)) -> res_map f l = Ok (map g l).
Proof.
  induction l as [| x l IH]; intros Hf; simpl; [reflexivity |].
  rewrite (Hf x (or_introl eq_refl)). simpl.
  rewrite IH; [reflexivity |]. intros y Hy. apply Hf. now right.
Qed.

Section EvalTotal.
Context {P : Type} (view : P -> plan).

(** A non-empty list of complete bundles with positive capacities is
    evaluated without error. *)
Lemma create_bundle_eval_list_total (l : list (P * P)) :
  l <> [] ->
  Forall (positive_capacities view) l ->
  create_bundle_eval_list view (bundles_of l)
  = Ok (map (evaluated view (max_capacity (map (fun b => plan_capacity (view (fst b))) l))
                       (max_capacity (map (fun b => plan_capacity (view (snd b))) l)))
            l).
Proof.
  intros Hne Hpos.
  destruct l as [| b0 l0] eqn:El; [congruence |]. rewrite <- El in *.
  assert (Hin0 : In b0 l) by (rewrite El; now left).
  assert (Hb0 : positive_capacities view b0)
    by (rewrite Forall_forall in Hpos; apply Hpos; now apply list_elem_of_In).
  assert (HGB : ~ (max_capacity (map (fun b => plan_capacity (view (fst b))) l) == 0)%Q).
  { apply (max_capacity_positive _ (plan_capacity (view (fst b0)))).
    - now apply (in_map (fun b => plan_capacity (view (fst b)))).
    - apply Hb0. }
  assert (HMb : ~ (max_capacity (map (fun b => plan_capacity (view (snd b))) l) == 0)%Q).
  { apply (max_capacity_positive _ (plan_capacity (view (snd b0)))).
    - now apply (in_map (fun b => plan_capacity (view (snd b)))).
    - apply Hb0. }
  transitivity (res_map (eval_bundle view
                  (max_capacity (map (fun b => plan_capacity (view (fst b))) l))
                  (max_capacity (map (fun b => plan_capacity (view (snd b))) l))) l).
  { rewrite El. reflexivity. }
  apply res_map_total. intros b _.
  unfold eval_bundle. rewrite (pydiv_ok _ _ HGB), (pydiv_ok _ _ HMb). reflexivity.
Qed.
End EvalTotal.


(* ------------------------------------------------------------------ *)
(** ** The cheap-bundle scenario                                         *)
(* ------------------------------------------------------------------ *)

Section Scenario.
Context `{RandomModule}.

(** A round of the loop against a baseline that costs 5% of income or
    more: an option under the ceiling and cheaper than the baseline is
    taken. *)
Lemma loop_takes_cheaper (income IncomeBudget PrS PrV : Q) (Seed : Z)
    (new : eval) (rest : list eval) (n : nat) (cb : eval) (cbi : option nat)
    (d : draws) :
  ~ (income == 0)%Q ->
  Qltb (ev_price new / income) IncomeBudget = true ->
  Qgeb (ev_price cb / income) 0.05 = true ->
  Qltb (ev_price new) (ev_price cb) = true ->
  decision_tree_loop income IncomeBudget PrS PrV Seed (new :: rest) n cb cbi d
  = decision_tree_loop income IncomeBudget PrS PrV Seed rest (S n) new (Some n) d.
Proof.
  intros Hinc F1 F2 F3. simpl. unfold st_bind at 1, st_lift at 1.
  rewrite (pydiv_ok _ _ Hinc), F1.
  unfold st_bind at 1. unfold st_bind at 1, st_lift at 1.
  rewrite (pydiv_ok _ _ Hinc), F2, F3. reflexivity.
Qed.

(** A round of the loop against a baseline under 5% of income, for an
    option under 5% but over 2% of income: the minimum-quality comparison
    decides. *)
Lemma loop_compares_quality (income IncomeBudget PrS PrV : Q) (Seed : Z)
    (new : eval) (rest : list eval) (n : nat) (cb : eval) (cbi : option nat)
    (d d1 : draws) (b : bool) :
  ~ (income == 0)%Q ->
  Qltb (ev_price new / income) IncomeBudget = true ->
  Qgeb (ev_price cb / income) 0.05 = false ->
  Qltb (ev_price new / income) 0.05 = true ->
  Qle_bool (ev_price new / income) 0.02 = false ->
  new_is_a_cheaper_minimum_quality new cb PrS Seed d = Ok (b, d1) ->
  decision_tree_loop income IncomeBudget PrS PrV Seed (new :: rest) n cb cbi d
  = decision_tree_loop income IncomeBudget PrS PrV Seed rest (S n)
                       (if b then new else cb) (if b then Some n else cbi) d1.
Proof.
  intros Hinc F1 F2 F3 F4 Hq. simpl. unfold st_bind at 1, st_lift at 1.
  rewrite (pydiv_ok _ _ Hinc), F1.
  unfold st_bind at 1. unfold st_bind at 1, st_lift at 1.
  rewrite (pydiv_ok _ _ Hinc), F2, F3, F4. cbn [andb].
  unfold st_bind at 1. rewrite Hq. now destruct b.
Qed.

(** The minimum-quality comparison of two complete bundles when the flags
    of the first are at least as good as those of the second, and not both
    false: the first is never displaced by a dearer second, and displaces a
    dearer second. *)
Lemma quality_comparison_of_dominated
    (p v p' v' : Q) (a b a' b' : bool) (PrS : Q) (Seed : Z) (d : draws) :
  (a' = true -> a = true) -> (b' = true -> b = true) -> a || b = true ->
  Qle_bool p' p = false ->
  let good := mkEval p v (flag_of_bool a) (flag_of_bool b) in
  let dear := mkEval p' v' (flag_of_bool a') (flag_of_bool b') in
  new_is_a_cheaper_minimum_quality dear good PrS Seed d
  = Ok (false, mkDraws (rng_seed (Seed + add_to_seed d)) (add_to_seed d + 23))
  /\ new_is_a_cheaper_minimum_quality good dear PrS Seed d
     = Ok (true, mkDraws (rng_seed (Seed + add_to_seed d)) (add_to_seed d + 23)).
Proof.
  intros Ha Hb Hab Hp good dear.
  assert (Hp' : Qle_bool p p' = true).
  { apply Qle_bool_iff. apply Qle_bool_false in Hp. lra. }
  unfold new_is_a_cheaper_minimum_quality, good, dear, st_bind, reseed, st_ret.
  destruct a, b, a', b'; simpl in *;
    try (specialize (Ha eq_refl)); try (specialize (Hb eq_refl));
    try discriminate; rewrite ?Hp, ?Hp'; split; reflexivity.
Qed.

Lemma loop_80_then_140 (p80 v80 p140 v140 : Q) (a80 b80 a140 b140 : bool)
    (PrS PrV : Q) (Seed : Z) (d : draws) :
  (p80 == 80)%Q -> (p140 == 140)%Q ->
  (a140 = true -> a80 = true) -> (b140 = true -> b80 = true) ->
  a80 || b80 = true ->
  let e80 := mkEval p80 v80 (flag_of_bool a80) (flag_of_bool b80) in
  let e140 := mkEval p140 v140 (flag_of_bool a140) (flag_of_bool b140) in
  (exists d',
     decision_tree_loop 3000 0.1 PrS PrV Seed [e80; e140] 0 dummy_bundle None d
     = Ok ((e80, Some 0%nat), d'))
  /\ (exists d',
        decision_tree_loop 3000 0.1 PrS PrV Seed [e140; e80] 0 dummy_bundle None d
        = Ok ((e80, Some 1%nat), d')).
Proof.
  intros H80 H140 Ha Hb Hab e80 e140.
  assert (Hinc : ~ (3000 == 0)%Q) by discriminate.
  assert (F9 : Qle_bool p140 p80 = false) by (rewrite H80, H140; reflexivity).
  destruct (quality_comparison_of_dominated p80 v80 p140 v140 a80 b80 a140 b140
              PrS Seed d Ha Hb Hab F9) as [Hkeep Htake].
  fold e80 e140 in Hkeep, Htake.
  assert (T80 : forall c, Qltb (p80 / 3000) c = Qltb (80 / 3000) c)
    by (intros c; now rewrite H80).
  assert (T140 : forall c, Qltb (p140 / 3000) c = Qltb (140 / 3000) c)
    by (intros c; now rewrite H140).
  assert (G80 : forall c, Qle_bool (p80 / 3000) c = Qle_bool (80 / 3000) c)
    by (intros c; now rewrite H80).
  assert (G140 : forall c, Qle_bool (p140 / 3000) c = Qle_bool (140 / 3000) c)
    by (intros c; now rewrite H140).
  assert (L80 : Qltb p80 1000000000 = true) by (now rewrite H80).
  assert (L140 : Qltb p140 1000000000 = true) by (now rewrite H140).
  assert (R80 : Qgeb (p80 / 3000) 0.05 = false) by (now rewrite H80).
  assert (R140 : Qgeb (p140 / 3000) 0.05 = false) by (now rewrite H140).
  split.
  - rewrite loop_takes_cheaper;
      [| exact Hinc | simpl; now rewrite T80 | reflexivity | exact L80].
    erewrite (loop_compares_quality _ _ _ _ _ _ _ _ _ _ _ _ false);
      [| exact Hinc | simpl; now rewrite T140 | exact R80
       | simpl; now rewrite T140 | simpl; now rewrite G140 | exact Hkeep].
    eexists. reflexivity.
  - rewrite loop_takes_cheaper;
      [| exact Hinc | simpl; now rewrite T140 | reflexivity | exact L140].
    erewrite (loop_compares_quality _ _ _ _ _ _ _ _ _ _ _ _ true);
      [| exact Hinc | simpl; now rewrite T80 | exact R140
       | simpl; now rewrite T80 | simpl; now rewrite G80 | exact Htake].
    eexists. reflexivity.
Qed.
End Scenario.

Section ScenarioBundles.
Context `{RandomModule} {P : Type} (view : P -> plan).

(** C9 as the code has it: an agent with income 3000 and no previous
    bundle, IncomeBudget 0.1, and exactly two complete bundles priced 80 and
    140 (in either order).  The engine selects the 80-priced bundle, for
    every seed, every state of the draw source and every value score,
    provided the 80-priced bundle meets each minimum-quality threshold
    (mobile above 61 GB, wifi above 25 Mbps) that the 140-priced bundle
    meets, and meets at least one of them. *)
Theorem cheap_bundle_selected
    (person : person P) (m80 w80 m140 w140 : P)
    (mobile_plans wifi_plans : list P)
    (PrSacrificeWifi PrPickBetterValue : Q) (Seed : Z) (initial_call : bool)
    (d : draws) :
  income person = 3000%Q ->
  bundle person = (None, None) ->
  (plan_price (view m80) + plan_price (view w80) == 80)%Q ->
  (plan_price (view m140) + plan_price (view w140) == 140)%Q ->
  positive_capacities view (m80, w80) ->
  positive_capacities view (m140, w140) ->
  (Qgtb (plan_capacity (view m140)) 61 = true ->
   Qgtb (plan_capacity (view m80)) 61 = true) ->
  (Qgtb (plan_capacity (view w140)) 25 = true ->
   Qgtb (plan_capacity (view w80)) 25 = true) ->
  Qgtb (plan_capacity (view m80)) 61 || Qgtb (plan_capacity (view w80)) 25 = true ->
  (exists d',
     decide_bundle view person [(m80, w80); (m140, w140)] mobile_plans wifi_plans
                   PrSacrificeWifi PrPickBetterValue 0.1 Seed initial_call d
     = Ok ((Some m80, Some w80), d'))
  /\ (exists d',
        decide_bundle view person [(m140, w140); (m80, w80)] mobile_plans wifi_plans
                      PrSacrificeWifi PrPickBetterValue 0.1 Seed initial_call d
        = Ok ((Some m80, Some w80), d')).
Proof.
  intros Hincome Hbundle H80 H140 Hc80 Hc140 Hm Hw Hsome.
  assert (Hbase : forall bundles,
             initial_current_best view person bundles initial_call = Ok dummy_bundle).
  { intros bundles. unfold initial_current_best. rewrite Hbundle. simpl.
    now rewrite orb_true_r. }
  assert (Hstart : forall l d0,
             l <> [] -> Forall (positive_capacities view) l ->
             decision_tree view person (bundles_of l) 0.1 PrSacrificeWifi
                           PrPickBetterValue Seed initial_call d0
             = st_bind
                 (decision_tree_loop 3000 0.1 PrSacrificeWifi PrPickBetterValue Seed
                    (map (evaluated view
                            (max_capacity (map (fun b => plan_capacity (view (fst b))) l))
                            (max_capacity (map (fun b => plan_capacity (view (snd b))) l)))
                         l)
                    0 dummy_bundle None)
                 (fun r => match snd r with
                           | None =>
                               let* ratio := st_lift (pydiv (ev_price (fst r)) 3000) in
                               if Qgtb ratio 0.1 then st_ret no_option
                               else st_ret no_change
                           | Some i => st_ret (pick i)
                           end) d0).
  { intros l d0 Hne Hpos. unfold decision_tree.
    destruct l as [| b0 l0] eqn:El; [congruence |]. rewrite <- El in *.
    replace (options_empty (bundles_of l)) with false by (now rewrite El).
    unfold st_bind at 1. unfold st_lift at 1.
    rewrite (create_bundle_eval_list_total view l Hne Hpos).
    unfold st_bind at 1. unfold st_lift at 1. rewrite Hbase, Hincome.
    unfold st_bind at 1 3.
    destruct (decision_tree_loop _ _ _ _ _ _ _ _ _ d0) as [[[cb cbi] d1] | e |];
      reflexivity. }
  split.
  - unfold decide_bundle. unfold st_bind at 1.
    rewrite Hstart;
      [| discriminate
       | constructor; [assumption | constructor; [assumption | constructor]]].
    cbn [map]. unfold evaluated. cbn [fst snd].
    match goal with
    | |- context [decision_tree_loop _ _ _ _ _
                    [mkEval _ ?v1 _ _; mkEval _ ?v2 _ _]] =>
        destruct (loop_80_then_140 _ v1 _ v2 _ _ _ _ PrSacrificeWifi PrPickBetterValue
                    Seed d H80 H140 Hm Hw Hsome) as [[d' Hloop] _]
    end.
    exists d'. unfold st_bind at 1. rewrite Hloop. reflexivity.
  - unfold decide_bundle. unfold st_bind at 1.
    rewrite Hstart;
      [| discriminate
       | constructor; [assumption | constructor; [assumption | constructor]]].
    cbn [map]. unfold evaluated. cbn [fst snd].
    match goal with
    | |- context [decision_tree_loop _ _ _ _ _
                    [mkEval _ ?v2 _ _; mkEval _ ?v1 _ _]] =>
        destruct (loop_80_then_140 _ v1 _ v2 _ _ _ _ PrSacrificeWifi PrPickBetterValue
                    Seed d H80 H140 Hm Hw Hsome) as [_ [d' Hloop]]
    end.
    exists d'. unfold st_bind at 1. rewrite Hloop. reflexivity.
Qed.
End ScenarioBundles.


(** The scenario with a good bundle at 80 against the fast bundle at 140. *)
Lemma cheap_bundle_selected_witness :
  (exists d',
     @decide_bundle (constant_random 0.3 0) plan (fun pl => pl) newcomer_3000
       [(good_mobile_30, good_wifi_50); (fast_mobile_60, fast_wifi_80)] [] []
       0.5 0.5 0.1 7 true (@mkDraws (constant_random 0.3 0) tt 0)
     = Ok ((Some good_mobile_30, Some good_wifi_50), d'))
  /\ (exists d',
        @decide_bundle (constant_random 0.3 0) plan (fun pl => pl) newcomer_3000
          [(fast_mobile_60, fast_wifi_80); (good_mobile_30, good_wifi_50)] [] []
          0.5 0.5 0.1 7 true (@mkDraws (constant_random 0.3 0) tt 0)
        = Ok ((Some good_mobile_30, Some good_wifi_50), d')).
Proof.
  apply (@cheap_bundle_selected (constant_random 0.3 0) plan (fun pl => pl)
           newcomer_3000 good_mobile_30 good_wifi_50 fast_mobile_60 fast_wifi_80).
  - reflexivity.
  - reflexivity.
  - reflexivity.
  - reflexivity.
  - split; reflexivity.
  - split; reflexivity.
  - reflexivity.
  - reflexivity.
  - reflexivity.
Defined.

(** C9 as stated fails: with the basic bundle at 80 (under both quality
    thresholds) and the fast bundle at 140 (over both), both under 5% of the
    income of 3000, the engine selects the 140-priced bundle, in either
    order of the candidates. *)
Lemma dearer_bundle_selected_on_quality :
  (forall d',
     @decide_bundle (constant_random 0.3 0) plan (fun pl => pl) newcomer_3000
       [(basic_mobile_30, basic_wifi_50); (fast_mobile_60, fast_wifi_80)] [] []
       0.5 0.5 0.1 7 true (@mkDraws (constant_random 0.3 0) tt 0)
     <> Ok ((Some basic_mobile_30, Some basic_wifi_50), d'))
  /\ @decide_bundle (constant_random 0.3 0) plan (fun pl => pl) newcomer_3000
       [(basic_mobile_30, basic_wifi_50); (fast_mobile_60, fast_wifi_80)] [] []
       0.5 0.5 0.1 7 true (@mkDraws (constant_random 0.3 0) tt 0)
     = Ok ((Some fast_mobile_60, Some fast_wifi_80),
           @mkDraws (constant_random 0.3 0) tt 23)
  /\ @decide_bundle (constant_random 0.3 0) plan (fun pl => pl) newcomer_3000
       [(fast_mobile_60, fast_wifi_80); (basic_mobile_30, basic_wifi_50)] [] []
       0.5 0.5 0.1 7 true (@mkDraws (constant_random 0.3 0) tt 0)
     = Ok ((Some fast_mobile_60, Some fast_wifi_80),
           @mkDraws (constant_random 0.3 0) tt 23).
Proof.
  split; [| split; vm_compute; reflexivity].
  intros d' E. vm_compute in E. discriminate.
Qed.

(** The outcome can also depend on the draw: a bundle at 80 that only
    meets the wifi threshold against a bundle at 140 that only meets the
    mobile threshold is kept when the draw is 0.7 and displaced when it is
    0.3 (PrSacrificeWifi = 0.5). *)
Lemma selection_depends_on_the_draw :
  let wifi_only := [(basic_mobile_30, good_wifi_50); (fast_mobile_60, slow_wifi_80)] in
  (exists d',
     @decide_bundle (constant_random 0.7 0) plan (fun pl => pl) newcomer_3000
       wifi_only [] [] 0.5 0.5 0.1 7 true (@mkDraws (constant_random 0.7 0) tt 0)
     = Ok ((Some basic_mobile_30, Some good_wifi_50), d'))
  /\ (exists d',
        @decide_bundle (constant_random 0.3 0) plan (fun pl => pl) newcomer_3000
          wifi_only [] [] 0.5 0.5 0.1 7 true (@mkDraws (constant_random 0.3 0) tt 0)
        = Ok ((Some fast_mobile_60, Some slow_wifi_80), d')).
Proof.
  split; eexists; vm_compute; reflexivity.
Qed.


(* ------------------------------------------------------------------ *)
(** ** Precedence of complete bundles                                    *)
(* ------------------------------------------------------------------ *)

Lemma never_fails_ret {S A} (a : A) : never_fails (@st_ret S A a).
Proof. intros s. now exists a, s. Qed.

Lemma never_fails_bind {S A B} (m : St S A) (k : A -> St S B) :
  never_fails m -> (forall a, never_fails (k a)) -> never_fails (st_bind m k).
Proof.
  intros Hm Hk s. destruct (Hm s) as (a & s1 & E).
  destruct (Hk a s1) as (b & s2 & E2).
  exists b, s2. unfold st_bind. now rewrite E.
Qed.


Section Totality.
Context `{RandomModule}.

Lemma never_fails_reseed (Seed : Z) : never_fails (reseed Seed).
Proof. intros d. unfold reseed. eauto. Qed.

Lemma never_fails_random_random : never_fails random_random.
Proof.
  intros d. unfold random_random. destruct (rng_random (gen d)) as [u g]. eauto.
Qed.

Ltac never_fails :=
  repeat first
    [ assumption
    | apply never_fails_ret
    | apply never_fails_reseed
    | apply never_fails_random_random
    | apply never_fails_bind; [| intros ?]
    | match goal with
      | |- never_fails (if ?b then _ else _) => destruct b
      end ].




End Totality.

Section Precedence.
Context `{RandomModule} {P : Type} (view : P -> plan).

End Precedence.





(* ------------------------------------------------------------------ *)
(** ** Review of price experiments                                       *)
(* ------------------------------------------------------------------ *)


Section PriceReview.
Context `{RandomModule}.

End PriceReview.




(** A cut of 100% (change = -1) cannot be reverted: the review of a solvent
    firm divides by 1 + change = 0. *)
Lemma full_cut_review_divides_by_zero :
  @review_price_experiment (constant_random 0.3 0) 0.5 3 1 7 0
    (@mkWorld (constant_random 0.3 0) (@mkDraws (constant_random 0.3 0) tt 0%Z)
       [mkPlan "A" mobile 10 "urban" 0 "Telstra"]
       [mkISP "A" [0%nat] true (Some [0%nat]) false None
              (Some (mkPriceExp 0%nat 0%nat (-1) 0 10)) None 5 100]
       [[0%nat]; []; []; []] [])
  = Raise ZeroDivisionError.
Proof. reflexivity. Qed.


(* ------------------------------------------------------------------ *)
(** ** Consideration sampling                                            *)
(* ------------------------------------------------------------------ *)

Lemma bisect_steps_bounds (steps : nat) (a : list Q) (x : Q) (lo hi : nat) :
  (lo <= hi)%nat ->
  (lo <= bisect_steps steps a x lo hi)%nat /\ (bisect_steps steps a x lo hi <= hi)%nat.
Proof.
  revert lo hi. induction steps as [| steps IH]; intros lo hi Hle;
    cbn [bisect_steps]; [lia |].
  destruct (Nat.ltb_spec lo hi) as [Hlt | Hge]; [| lia].
  assert (Hmid : (lo <= (lo + hi) / 2)%nat /\ ((lo + hi) / 2 < hi)%nat).
  { split.
    - apply Nat.div_le_lower_bound; lia.
    - apply Nat.Div0.div_lt_upper_bound; lia. }
  destruct (a !! ((lo + hi) / 2)%nat) as [a_mid |]; [| lia].
  destruct (Qltb x a_mid).
  - destruct (IH lo ((lo + hi) / 2)%nat) as [? ?]; lia.
  - destruct (IH (S ((lo + hi) / 2)) hi) as [? ?]; lia.
Qed.

Lemma accumulate_from_length (acc : Q) (weights : list Q) :
  length (accumulate_from acc weights) = length weights.
Proof.
  revert acc. induction weights as [| w ws IH]; intros acc; simpl; [reflexivity |].
  now rewrite IH.
Qed.

Lemma accumulate_from_last (acc : Q) (weights : list Q) :
  weights <> [] ->
  exists total, last (accumulate_from acc weights) = Some total
                /\ (total == acc + Qsum weights)%Q.
Proof.
  revert acc. induction weights as [| w ws IH]; intros acc Hne; [congruence |].
  destruct ws as [| w' ws'].
  - exists (acc + w)%Q. split; [reflexivity |]. rewrite Qsum_cons, Qsum_nil. lra.
  - destruct (IH (acc + w)%Q) as (total & Hlast & Htotal); [discriminate |].
    exists total. split.
    + simpl in *. exact Hlast.
    + rewrite Htotal, (Qsum_cons w). lra.
Qed.

Lemma Qsum_positive (l : list Q) :
  l <> [] -> Forall (fun x => (0 < x)%Q) l -> (0 < Qsum l)%Q.
Proof.
  intros Hne Hpos. induction Hpos as [| x l Hx Hl IH]; [congruence |].
  rewrite Qsum_cons. destruct l as [| y l'].
  - rewrite Qsum_nil. lra.
  - assert (0 < Qsum (y :: l'))%Q by (apply IH; discriminate). lra.
Qed.

Lemma without_length {A} (l : list A) (i : nat) :
  (i < length l)%nat -> length (without l i) = (length l - 1)%nat.
Proof.
  intros Hi. unfold without. rewrite length_app, length_take, length_drop. lia.
Qed.

Lemma without_Forall {A} (Q0 : A -> Prop) (l : list A) (i : nat) :
  Forall Q0 l -> Forall Q0 (without l i).
Proof.
  intros Hl. unfold without. apply Forall_app. split.
  - now apply Forall_take.
  - now apply Forall_drop.
Qed.

Section Sampling.
Context `{RandomModule}.

(** A weighted draw over a non-empty pool with positive weights returns an
    index of the pool. *)
Lemma random_choices_in_range (n : nat) (weights : list Q) (d : draws) :
  weights <> [] -> length weights = n ->
  Forall (fun x => (0 < x)%Q) weights ->
  exists k d', random_choices n weights d = Ok (k, d')
               /\ (k < n)%nat /\ add_to_seed d' = add_to_seed d.
Proof.
  intros Hne Hlen Hpos. unfold random_choices.
  rewrite accumulate_from_length, Hlen, Nat.eqb_refl. cbn [negb].
  destruct (accumulate_from_last 0 weights Hne) as (total & -> & Htotal).
  assert (Hsum := Qsum_positive weights Hne Hpos).
  assert (E : Qle_bool total 0 = false) by (apply Qle_bool_false; lra).
  rewrite E. unfold st_bind, random_random, st_ret. cbv beta.
  destruct (rng_random (gen d)) as [u g].
  eexists. eexists. split; [reflexivity |]. simpl. split; [| reflexivity].
  assert (0 < n)%nat by (destruct weights; [congruence | simpl in Hlen; lia]).
  destruct (bisect_steps_bounds (S (n - 1 - 0)) (accumulate_from 0 weights)
              (u * total) 0 (n - 1)) as [_ Hb]; [lia |].
  unfold bisect. lia.
Qed.
End Sampling.


Lemma st_bind_eq {S A B} (m : St S A) (k : A -> St S B) (s s1 : S) (a : A) :
  m s = Ok (a, s1) -> st_bind m k s = k a s1.
Proof. intros E. unfold st_bind. now rewrite E. Qed.

Lemma st_lift_eq {S A} (r : result A) (a : A) (s : S) :
  r = Ok a -> st_lift r s = Ok (a, s).
Proof. now intros ->. Qed.

(** Dropping the drawn candidate keeps the probabilities positive and in
    step with the candidates. *)
Lemma drop_choice_ok (choices : list nat) (pr : list Q) (choice : nat) :
  length pr = length choices ->
  (choice < length choices)%nat ->
  Forall (fun x => (0 < x)%Q) pr ->
  exists pr',
    drop_choice choices pr choice = Ok (without choices choice, pr')
    /\ length pr' = length (without choices choice)
    /\ Forall (fun x => (0 < x)%Q) pr'.
Proof.
  intros Hlen Hchoice Hpos. unfold drop_choice.
  assert (Hpos' : Forall (fun x => (0 < x)%Q) (without pr choice))
    by now apply without_Forall.
  assert (Hlen' : length (without pr choice) = length (without choices choice))
    by (rewrite !without_length; lia).
  destruct (without pr choice) as [| p rest] eqn:Epr.
  - exists []. simpl. repeat split; [exact Hlen' | constructor].
  - rewrite <- Epr in *.
    assert (Hsum : (0 < Qsum (without pr choice))%Q)
      by (apply Qsum_positive; [rewrite Epr; discriminate | exact Hpos']).
    exists (map (fun x => x / Qsum (without pr choice))%Q (without pr choice)).
    rewrite (res_map_total _ (fun x => x / Qsum (without pr choice))%Q).
    + simpl. rewrite length_map. repeat split; [exact Hlen' |].
      apply Forall_fmap. eapply Forall_impl; [exact Hpos' |].
      intros x Hx. cbv beta in *.
      apply Qlt_shift_div_l; [exact Hsum | now rewrite Qmult_0_l].
    + intros x _. apply pydiv_ok. lra.
Qed.

Section SamplingLoops.
Context `{RandomModule} {P : Type}.

(** A draw from a sound state with candidates left returns one of them,
    and the firm drawn serves the quadrant. *)
Lemma draw_operator_ok (ISPs : list (ISP P)) (quad : nat) (Seed : Z)
    (st : picking) (d : draws) :
  sound_picking ISPs quad st ->
  choices st <> [] ->
  exists choice isp d',
    draw_operator ISPs Seed st d = Ok ((choice, isp), d')
    /\ (choice < length (choices st))%nat
    /\ covers quad isp.
Proof.
  intros (Hlen & Hpos & Hcover) Hne. unfold draw_operator.
  assert (Hne' : pr_effective_marketing st <> []).
  { intros E. rewrite E in Hlen. destruct (choices st); [congruence | discriminate]. }
  destruct (random_choices_in_range (length (choices st)) (pr_effective_marketing st)
              (mkDraws (rng_seed (Seed + add_to_seed d)) (add_to_seed d + 23))
              Hne' Hlen Hpos) as (k & d' & Hdraw & Hk & _).
  destruct (lookup_lt_is_Some_2 (choices st) k Hk) as [index Hindex].
  unfold operators_cover in Hcover. rewrite Forall_forall in Hcover.
  destruct (Hcover index) as (isp & Hisp & Hcov);
    [eapply list_elem_of_lookup_2; eauto |].
  exists k, isp, d'. split; [| split; assumption].
  unfold st_bind at 1. unfold reseed at 1.
  erewrite st_bind_eq by exact Hdraw.
  erewrite st_bind_eq
    by (apply st_lift_eq; unfold subscript; rewrite Hindex; reflexivity).
  erewrite st_bind_eq
    by (apply st_lift_eq; unfold subscript; rewrite Hisp; reflexivity).
  reflexivity.
Qed.

(** The main loop returns: under a sound state each round draws from a
    non-empty pool, removes the candidate drawn and uses up one unit of the
    time budget. *)
Lemma main_loop_returns (fuel : nat) (ISPs : list (ISP P)) (quad : nat) (Seed : Z)
    (TimeBudget : Z) (st : picking) (d : draws) :
  sound_picking ISPs quad st ->
  (TimeBudget <= Z.of_nat (length (choices st)))%Z ->
  (Z.to_nat TimeBudget <= fuel)%nat ->
  exists st' d',
    main_loop fuel ISPs quad Seed TimeBudget st d = Ok (st', d')
    /\ sound_picking ISPs quad st'
    /\ (length (choices st') <= length (choices st))%nat.
Proof.
  revert TimeBudget st d.
  induction fuel as [| fuel IH]; intros TimeBudget st d Hsound Hbudget Hfuel.
  - simpl. destruct (Z.gtb_spec TimeBudget 0) as [Hpos | Hle]; [lia |].
    exists st, d. split; [reflexivity | split; [exact Hsound | lia]].
  - cbn [main_loop]. destruct (Z.gtb_spec TimeBudget 0) as [Hpos | Hle];
      [| exists st, d; split; [reflexivity | split; [exact Hsound | lia]]].
    assert (Hne : choices st <> [])
      by (intros E; rewrite E in Hbudget; simpl in Hbudget; lia).
    destruct (draw_operator_ok ISPs quad Seed st d Hsound Hne)
      as (choice & isp & d1 & Hdraw & Hchoice & has_mobile & has_wifi & Hm & Hw & Hany).
    destruct Hsound as (Hlen & Hprobs & Hcover).
    destruct (drop_choice_ok (choices st) (pr_effective_marketing st) choice
                Hlen Hchoice Hprobs) as (pr' & Hdrop & Hlen' & Hprobs').
    erewrite st_bind_eq by exact Hdraw. cbv beta iota.
    erewrite st_bind_eq by (apply st_lift_eq; exact Hm).
    assert (Hnext : forall mobiles wifis,
               exists st' d',
                 main_loop fuel ISPs quad Seed (TimeBudget - 1)
                           (mkPicking (without (choices st) choice) pr' mobiles wifis) d1
                 = Ok (st', d')
                 /\ sound_picking ISPs quad st'
                 /\ (length (choices st') <= length (choices st))%nat).
    { intros mobiles wifis.
      destruct (IH (TimeBudget - 1)%Z
                   (mkPicking (without (choices st) choice) pr' mobiles wifis) d1)
        as (st' & d' & Hrun & Hsound' & Hshort).
      - repeat split; [exact Hlen' | exact Hprobs' |].
        now apply without_Forall.
      - simpl. rewrite without_length by exact Hchoice. lia.
      - lia.
      - exists st', d'. split; [exact Hrun | split; [exact Hsound' |]].
        simpl in Hshort. rewrite without_length in Hshort by exact Hchoice. lia. }
    destruct has_mobile.
    + erewrite st_bind_eq
        by (erewrite st_bind_eq by (apply st_lift_eq; exact Hw); reflexivity).
      cbv beta iota.
      erewrite st_bind_eq by (apply st_lift_eq; exact Hdrop). cbv beta iota.
      apply Hnext.
    + simpl in Hany. subst has_wifi.
      erewrite st_bind_eq
        by (erewrite st_bind_eq by (apply st_lift_eq; exact Hw); reflexivity).
      cbv beta iota.
      erewrite st_bind_eq by (apply st_lift_eq; exact Hdrop). cbv beta iota.
      apply Hnext.
Qed.
End SamplingLoops.


Section SamplingTotal.
Context `{RandomModule} {P : Type}.

(** The loop that tops up the wifi operators returns: its guard keeps the
    pool non-empty and each round removes a candidate. *)
Lemma top_up_wifi_returns (fuel : nat) (ISPs : list (ISP P)) (quad : nat) (Seed : Z)
    (st : picking) (d : draws) :
  sound_picking ISPs quad st ->
  (length (choices st) <= fuel)%nat ->
  exists st' d',
    top_up_wifi fuel ISPs quad Seed st d = Ok (st', d')
    /\ sound_picking ISPs quad st'
    /\ (length (choices st') <= length (choices st))%nat.
Proof.
  revert st d. induction fuel as [| fuel IH]; intros st d Hsound Hfuel.
  - assert (E : length (choices st) = 0%nat) by lia.
    simpl. rewrite E. simpl.
    exists st, d. split; [reflexivity | split; [exact Hsound | lia]].
  - cbn [top_up_wifi].
    destruct ((0 <? length (choices st))%nat
              && (length (selected_wifi_operators st)
                  <? length (selected_mobile_operators st))%nat) eqn:Eguard;
      [| exists st, d; split; [reflexivity | split; [exact Hsound | lia]]].
    apply andb_true_iff in Eguard as [Hsome _]. apply Nat.ltb_lt in Hsome.
    assert (Hne : choices st <> []) by (intros E; rewrite E in Hsome; simpl in Hsome; lia).
    destruct (draw_operator_ok ISPs quad Seed st d Hsound Hne)
      as (choice & isp & d1 & Hdraw & Hchoice & has_mobile & has_wifi & Hm & Hw & Hany).
    destruct Hsound as (Hlen & Hprobs & Hcover).
    destruct (drop_choice_ok (choices st) (pr_effective_marketing st) choice
                Hlen Hchoice Hprobs) as (pr' & Hdrop & Hlen' & Hprobs').
    erewrite st_bind_eq by exact Hdraw. cbv beta iota.
    erewrite st_bind_eq by (apply st_lift_eq; exact Hw).
    erewrite st_bind_eq by (apply st_lift_eq; exact Hdrop). cbv beta iota.
    match goal with
    | |- context [top_up_wifi fuel ISPs quad Seed ?st1 d1] =>
        destruct (IH st1 d1) as (st' & d' & Hrun & Hsound' & Hshort)
    end.
    + split; [exact Hlen' | split; [exact Hprobs' | now apply without_Forall]].
    + simpl. rewrite without_length by exact Hchoice. lia.
    + exists st', d'. split; [exact Hrun | split; [exact Hsound' |]].
      simpl in Hshort. rewrite without_length in Hshort by exact Hchoice. lia.
Qed.

Lemma top_up_mobile_returns (fuel : nat) (ISPs : list (ISP P)) (quad : nat) (Seed : Z)
    (st : picking) (d : draws) :
  sound_picking ISPs quad st ->
  (length (choices st) <= fuel)%nat ->
  exists st' d',
    top_up_mobile fuel ISPs quad Seed st d = Ok (st', d')
    /\ sound_picking ISPs quad st'
    /\ (length (choices st') <= length (choices st))%nat.
Proof.
  revert st d. induction fuel as [| fuel IH]; intros st d Hsound Hfuel.
  - assert (E : length (choices st) = 0%nat) by lia.
    simpl. rewrite E. simpl.
    exists st, d. split; [reflexivity | split; [exact Hsound | lia]].
  - cbn [top_up_mobile].
    destruct ((0 <? length (choices st))%nat
              && (length (selected_mobile_operators st)
                  <? length (selected_wifi_operators st))%nat) eqn:Eguard;
      [| exists st, d; split; [reflexivity | split; [exact Hsound | lia]]].
    apply andb_true_iff in Eguard as [Hsome _]. apply Nat.ltb_lt in Hsome.
    assert (Hne : choices st <> []) by (intros E; rewrite E in Hsome; simpl in Hsome; lia).
    destruct (draw_operator_ok ISPs quad Seed st d Hsound Hne)
      as (choice & isp & d1 & Hdraw & Hchoice & has_mobile & has_wifi & Hm & Hw & Hany).
    destruct Hsound as (Hlen & Hprobs & Hcover).
    destruct (drop_choice_ok (choices st) (pr_effective_marketing st) choice
                Hlen Hchoice Hprobs) as (pr' & Hdrop & Hlen' & Hprobs').
    erewrite st_bind_eq by exact Hdraw. cbv beta iota.
    erewrite st_bind_eq by (apply st_lift_eq; exact Hm).
    erewrite st_bind_eq by (apply st_lift_eq; exact Hdrop). cbv beta iota.
    match goal with
    | |- context [top_up_mobile fuel ISPs quad Seed ?st1 d1] =>
        destruct (IH st1 d1) as (st' & d' & Hrun & Hsound' & Hshort)
    end.
    + split; [exact Hlen' | split; [exact Hprobs' | now apply without_Forall]].
    + simpl. rewrite without_length by exact Hchoice. lia.
    + exists st', d'. split; [exact Hrun | split; [exact Hsound' |]].
      simpl in Hshort. rewrite without_length in Hshort by exact Hchoice. lia.
Qed.

Lemma firms_of_choices (ISPs : list (ISP P)) (quad : nat) (choices : list nat) :
  operators_cover ISPs quad choices ->
  exists firms,
    res_map (subscript ISPs) choices = Ok firms
    /\ Forall2 (fun i isp => ISPs !! i = Some isp) choices firms.
Proof.
  intros Hcover. induction Hcover as [| i rest (isp & Hisp & _) _ (firms & Hmap & Hall)].
  - exists []. split; [reflexivity | constructor].
  - exists (isp :: firms). split; [| now constructor].
    simpl. unfold subscript at 1. rewrite Hisp. simpl. now rewrite Hmap.
Qed.

(** Totality of the consideration sampling, as far as it holds: when the
    quadrant has at least one operator, every operator listed for it serves
    it and has a positive marketing weight, [pick_operators] returns once
    the fuel covers the number of operators; it never draws from an empty
    pool, and its loops end. *)
Theorem pick_operators_returns (fuel : nat) (ISPs : list (ISP P)) (quad : nat)
    (operator_locations : list (list nat)) (TimeBudget : Z) (MarketingBudget : Q)
    (Seed : Z) (d : draws) (choices : list nat) :
  operator_locations !! quad = Some choices ->
  choices <> [] ->
  operators_cover ISPs quad choices ->
  (forall i isp, In i choices -> ISPs !! i = Some isp ->
                 (0 < marketing_weight MarketingBudget isp)%Q) ->
  (length choices <= fuel)%nat ->
  exists mobiles wifis d',
    pick_operators fuel ISPs quad operator_locations TimeBudget MarketingBudget Seed d
    = Ok ((mobiles, wifis), d').
Proof.
  intros Hquad Hne Hcover Hweights Hfuel.
  destruct (firms_of_choices ISPs quad choices Hcover) as (firms & Hfirms & Hall).
  set (budgets := map (marketing_weight MarketingBudget) firms).
  assert (Hlenf : length firms = length choices)
    by (symmetry; eapply Forall2_length; eauto).
  assert (Hbpos : Forall (fun x => (0 < x)%Q) budgets).
  { unfold budgets. apply Forall_fmap. apply Forall_forall. intros isp Hin.
    apply list_elem_of_lookup_1 in Hin as [k Hk].
    destruct (Forall2_lookup_r _ _ _ _ _ Hall Hk) as (i & Hi & Hisp).
    apply (Hweights i isp); [| exact Hisp].
    apply list_elem_of_In. eapply list_elem_of_lookup_2; eauto. }
  assert (Hbne : budgets <> []).
  { unfold budgets. intros E. apply (f_equal length) in E.
    rewrite length_map, Hlenf in E. destruct choices; [congruence | discriminate]. }
  assert (Htotal : (0 < Qsum budgets)%Q) by now apply Qsum_positive.
  assert (Hnorm := normalised_budgets_quotients budgets).
  set (pr := map (fun budget => budget / Qsum budgets)%Q budgets) in *.
  assert (Hpr : normalised_budgets budgets = Ok pr) by (apply Hnorm; lra).
  destruct (normalised_budgets_add_up budgets pr Hpr Hbne) as [Hsum Hlenpr].
  assert (Hprpos : Forall (fun x => (0 < x)%Q) pr).
  { unfold pr. apply Forall_fmap. eapply Forall_impl; [exact Hbpos |].
    intros x Hx. cbv beta in *. apply Qlt_shift_div_l; [exact Htotal |].
    now rewrite Qmult_0_l. }
  unfold pick_operators.
  erewrite st_bind_eq
    by (apply st_lift_eq; unfold subscript; rewrite Hquad; reflexivity).
  erewrite st_bind_eq by (apply st_lift_eq; exact Hfirms).
  fold budgets.
  erewrite st_bind_eq by (apply st_lift_eq; exact Hpr).
  erewrite st_bind_eq by (now apply ensure_adds_to_1_exact).
  set (budget := if (TimeBudget >? Z.of_nat (length choices))%Z
                 then Z.of_nat (length choices) else TimeBudget).
  assert (Hbudget : (budget <= Z.of_nat (length choices))%Z).
  { unfold budget. destruct (Z.gtb_spec TimeBudget (Z.of_nat (length choices))); lia. }
  destruct (main_loop_returns fuel ISPs quad Seed budget
              (mkPicking choices pr [] []) d)
    as (st1 & d1 & Hmain & Hsound1 & Hshort1).
  { split; [| split; [exact Hprpos | exact Hcover]].
    simpl. unfold budgets in Hlenpr. rewrite length_map in Hlenpr. lia. }
  { exact Hbudget. }
  { simpl in Hbudget. lia. }
  erewrite st_bind_eq by exact Hmain.
  destruct (top_up_wifi_returns fuel ISPs quad Seed st1 d1 Hsound1)
    as (st2 & d2 & Hwifi & Hsound2 & Hshort2); [simpl in Hshort1; lia |].
  erewrite st_bind_eq by exact Hwifi.
  destruct (top_up_mobile_returns fuel ISPs quad Seed st2 d2 Hsound2)
    as (st3 & d3 & Hmobile & _ & _); [simpl in Hshort1; lia |].
  erewrite st_bind_eq by exact Hmobile.
  eexists. eexists. eexists. reflexivity.
Qed.

(** C10 at a quadrant that has no operator left (here the remote quadrant,
    number 3): the invariant of the claim holds vacuously, and
    [pick_operators] stops in [ensure_adds_to_1], which draws
    [random.randint(0, -1)] over the empty vector of probabilities. *)
Theorem pick_operators_empty_quadrant (fuel : nat) (ISPs : list (ISP P))
    (TimeBudget : Z) (MarketingBudget : Q) (Seed : Z) (d : draws) :
  operators_cover ISPs 3 []
  /\ pick_operators fuel ISPs 3 [[0%nat]; [0%nat]; [0%nat]; []]
                    TimeBudget MarketingBudget Seed d
     = Raise EmptyRange.
Proof.
  split; [constructor | reflexivity].
Qed.
End SamplingTotal.


(* ------------------------------------------------------------------ *)
(** ** Bankruptcy                                                        *)
(* ------------------------------------------------------------------ *)

Lemma delete_later_copies_In (x y : nat) (later : list nat) :
  In y (delete_later_copies x later) <-> In y later /\ y <> x.
Proof.
  induction later as [| z rest IH]; simpl; [tauto |].
  destruct (Nat.eqb_spec x z) as [-> | Hne]; simpl; rewrite IH.
  - split; [tauto | intros [[-> | Hin] Hy]; [congruence | tauto]].
  - split.
    + intros [<- | [Hin Hy]]; [split; [now left | congruence] | tauto].
    + intros [[<- | Hin] Hy]; [now left | tauto].
Qed.

Lemma delete_later_copies_length (x : nat) (later : list nat) :
  (length (delete_later_copies x later) <= length later)%nat.
Proof.
  induction later as [| z rest IH]; simpl; [lia |].
  destruct (x =? z)%nat; simpl; lia.
Qed.

(** The duplicate removal of [define_ISPs_per_location] leaves each firm
    at most once, and leaves the firms that were there. *)
Lemma remove_duplicates_NoDup (rounds : nat) (quad : list nat) :
  (length quad <= rounds)%nat ->
  NoDup (remove_duplicates rounds quad)
  /\ forall y, In y (remove_duplicates rounds quad) <-> In y quad.
Proof.
  revert quad. induction rounds as [| rounds IH]; intros quad Hlen.
  - destruct quad; [| simpl in Hlen; lia]. simpl. split; [constructor | tauto].
  - destruct quad as [| x later]; simpl; [split; [constructor | tauto] |].
    destruct (IH (delete_later_copies x later)) as [Hnd Hin].
    { pose proof (delete_later_copies_length x later). simpl in Hlen. lia. }
    split.
    + constructor; [| exact Hnd].
      rewrite list_elem_of_In, Hin, delete_later_copies_In. tauto.
    + intros y. rewrite Hin, delete_later_copies_In.
      destruct (Nat.eq_dec y x); [subst; tauto | tauto].
Qed.

Lemma remove_operator_In (firm y : nat) (operators : list nat) :
  In y (remove_operator firm operators) -> In y operators.
Proof.
  induction operators as [| o rest IH]; simpl; [tauto |].
  destruct (o =? firm)%nat; simpl; tauto.
Qed.

Lemma remove_operator_NoDup (firm : nat) (operators : list nat) :
  NoDup operators -> NoDup (remove_operator firm operators).
Proof.
  induction 1 as [| o rest Hnot Hnd IH]; simpl; [constructor |].
  destruct (o =? firm)%nat; [exact Hnd |].
  constructor; [| exact IH].
  rewrite list_elem_of_In. intros Hin. apply remove_operator_In in Hin.
  now apply Hnot, list_elem_of_In.
Qed.

(** In a list without duplicates, the removal of the first occurrence
    removes the firm. *)
Lemma remove_operator_removes (firm : nat) (operators : list nat) :
  NoDup operators -> ~ In firm (remove_operator firm operators).
Proof.
  induction 1 as [| o rest Hnot Hnd IH]; simpl; [tauto |].
  destruct (Nat.eqb_spec o firm) as [-> | Hne].
  - now rewrite <- list_elem_of_In.
  - simpl. tauto.
Qed.

Section BankruptcyCheck.
Context {P : Type}.

(** [check_for_bankruptcy] only deletes entries. *)
Lemma bankruptcy_loop_shrinks (ISPs : list (ISP P)) (firm : nat)
    (operator_locations : list (list nat)) :
  Forall2 (fun after before => forall y, In y after -> In y before)
          (bankruptcy_loop ISPs firm operator_locations) operator_locations.
Proof.
  revert firm operator_locations.
  induction ISPs as [| isp rest IH]; intros firm ops; simpl.
  - apply Forall2_same_length_lookup_2; [reflexivity |].
    intros i x y Hx Hy. rewrite Hx in Hy. now injection Hy as <-.
  - specialize (IH (S firm)
      (if Qle_bool (moneypool isp) 0 then map (remove_operator firm) ops else ops)).
    destruct (Qle_bool (moneypool isp) 0); [| exact IH].
    apply Forall2_fmap_r in IH.
    eapply Forall2_impl; [exact IH |].
    intros after before Hsub y Hy. simpl in Hsub.
    eapply remove_operator_In, Hsub, Hy.
Qed.

Lemma bankruptcy_loop_NoDup (ISPs : list (ISP P)) (firm : nat)
    (operator_locations : list (list nat)) :
  no_duplicate_operators operator_locations ->
  no_duplicate_operators (bankruptcy_loop ISPs firm operator_locations).
Proof.
  revert firm operator_locations.
  induction ISPs as [| isp rest IH]; intros firm ops Hnd; simpl; [exact Hnd |].
  apply IH. destruct (Qle_bool (moneypool isp) 0); [| exact Hnd].
  unfold no_duplicate_operators in *. apply Forall_fmap.
  eapply Forall_impl; [exact Hnd |]. intros quad. apply remove_operator_NoDup.
Qed.

(** A firm whose moneypool is not positive at the check is listed in no
    quadrant after it. *)
Lemma bankruptcy_loop_removes (ISPs : list (ISP P)) (first : nat)
    (operator_locations : list (list nat)) (k : nat) (isp : ISP P) :
  no_duplicate_operators operator_locations ->
  ISPs !! k = Some isp ->
  (moneypool isp <= 0)%Q ->
  operates_nowhere (first + k) (bankruptcy_loop ISPs first operator_locations).
Proof.
  revert first operator_locations k.
  induction ISPs as [| isp0 rest IH]; intros first ops k Hnd Hk Hdead;
    [now rewrite lookup_nil in Hk |].
  simpl. destruct k as [| k]; simpl in Hk.
  - injection Hk as ->. rewrite (proj2 (Qle_bool_iff _ _) Hdead).
    rewrite Nat.add_0_r.
    assert (Hgone : operates_nowhere first (map (remove_operator first) ops)).
    { unfold operates_nowhere. apply Forall_fmap.
      eapply Forall_impl; [exact Hnd |]. intros quad. apply remove_operator_removes. }
    pose proof (bankruptcy_loop_shrinks rest (S first)
                  (map (remove_operator first) ops)) as Hsub.
    unfold operates_nowhere in *.
    apply Forall_forall. intros quad Hquad Hin.
    apply list_elem_of_lookup_1 in Hquad as [q Hq].
    destruct (Forall2_lookup_l _ _ _ _ _ Hsub Hq) as (before & Hbefore & Hin').
    rewrite Forall_forall in Hgone.
    apply (Hgone before); [eapply list_elem_of_lookup_2; eauto | now apply Hin'].
  - replace (first + S k)%nat with (S first + k)%nat by lia.
    apply IH; [| exact Hk | exact Hdead].
    destruct (Qle_bool (moneypool isp0) 0); [| exact Hnd].
    unfold no_duplicate_operators in *. apply Forall_fmap.
    eapply Forall_impl; [exact Hnd |]. intros quad. apply remove_operator_NoDup.
Qed.
End BankruptcyCheck.

(** The quadrant index built at initialisation lists no firm twice. *)
Lemma define_ISPs_per_location_NoDup {P} (ISPs : list (ISP P))
    (operator_locations : list (list nat)) :
  define_ISPs_per_location ISPs = Ok operator_locations ->
  no_duplicate_operators operator_locations.
Proof.
  unfold define_ISPs_per_location. intros E.
  apply res_bind_ok in E as (ops & _ & E). injection E as <-.
  unfold no_duplicate_operators. apply Forall_fmap, Forall_forall.
  intros quad _. simpl. now apply remove_duplicates_NoDup.
Qed.


(* ------------------------------------------------------------------ *)
(** ** What changes [operator_locations]                                 *)
(* ------------------------------------------------------------------ *)

Section Frame.
Context `{RandomModule}.

Lemma keeps_ret {A} (a : A) : keeps_operators (st_ret a).
Proof. intros w a' w' E. now apply st_ret_ok in E as [_ ->]. Qed.

Lemma keeps_bind {A B} (m : St world A) (k : A -> St world B) :
  keeps_operators m -> (forall a, keeps_operators (k a)) ->
  keeps_operators (st_bind m k).
Proof.
  intros Hm Hk w b w' E. apply st_bind_ok in E as (a & w1 & E1 & E2).
  rewrite (Hk a _ _ _ E2). now apply (Hm _ _ _ E1).
Qed.

Lemma keeps_lift {A} (r : result A) : keeps_operators (st_lift r).
Proof. intros w a w' E. now apply st_lift_ok in E as [_ ->]. Qed.

Lemma keeps_raise {A} (e : exn) : keeps_operators (@st_raise world A e).
Proof. intros w a w' E. discriminate. Qed.

Lemma keeps_out_of_fuel {A} : keeps_operators (@st_out_of_fuel world A).
Proof. intros w a w' E. discriminate. Qed.

Lemma keeps_get : keeps_operators (@st_get world).
Proof. intros w a w' E. now injection E as _ <-. Qed.

Lemma keeps_drawing {A} (m : St draws A) : keeps_operators (drawing m).
Proof.
  intros w a w' E. unfold drawing in E.
  destruct (m (w_draws w)) as [[a0 d] | |]; [| discriminate ..].
  now injection E as _ <-.
Qed.

Lemma keeps_get_ISP (i : nat) : keeps_operators (get_ISP i).
Proof. intros w a w' E. unfold get_ISP in E. now apply st_lift_ok in E as [_ ->]. Qed.

Lemma keeps_put_ISP (i : nat) (isp : ISP nat) : keeps_operators (put_ISP i isp).
Proof. intros w a w' E. now injection E as _ <-. Qed.

Lemma keeps_plan_at (isp : ISP nat) (i : nat) : keeps_operators (plan_at isp i).
Proof. apply keeps_lift. Qed.

Lemma keeps_read_plan (r : nat) : keeps_operators (read_plan r).
Proof. intros w a w' E. now injection E as _ <-. Qed.

Lemma keeps_write_plan (r : nat) (pl : plan) : keeps_operators (write_plan r pl).
Proof. intros w a w' E. now injection E as _ <-. Qed.

Lemma keeps_new_plan (pl : plan) : keeps_operators (new_plan pl).
Proof. intros w a w' E. now injection E as _ <-. Qed.

Lemma keeps_read_plans (isp : ISP nat) : keeps_operators (read_plans isp).
Proof. intros w a w' E. now injection E as _ <-. Qed.

Lemma keeps_get_cell (k : nat) : keeps_operators (get_cell k).
Proof. intros w a w' E. unfold get_cell in E. now apply st_lift_ok in E as [_ ->]. Qed.

Lemma keeps_put_cell (k : nat) (c : person nat) : keeps_operators (put_cell k c).
Proof. intros w a w' E. now injection E as _ <-. Qed.

Lemma keeps_for_each {A} (l : list A) (body : A -> St world unit) :
  (forall x, keeps_operators (body x)) -> keeps_operators (for_each l body).
Proof.
  intros Hbody. induction l as [| x rest IH]; simpl.
  - apply keeps_ret.
  - apply keeps_bind; [apply Hbody | intros _; exact IH].
Qed.

Ltac keeps :=
  repeat first
    [ assumption
    | apply keeps_ret | apply keeps_lift | apply keeps_raise
    | apply keeps_out_of_fuel | apply keeps_get | apply keeps_drawing
    | apply keeps_get_ISP | apply keeps_put_ISP | apply keeps_plan_at
    | apply keeps_read_plan | apply keeps_write_plan | apply keeps_new_plan
    | apply keeps_read_plans | apply keeps_get_cell | apply keeps_put_cell
    | apply keeps_bind; [| intros ?]
    | match goal with
      | |- keeps_operators (if ?b then _ else _) => destruct b
      | |- keeps_operators (match ?x with _ => _ end) => destruct x
      end ].

Lemma keeps_review_price_experiments (PrPriceExp : Q) (LenPriceExp : Z)
    (PercentPriceChange : Q) (Seed : Z) :
  keeps_operators (review_price_experiments PrPriceExp LenPriceExp
                                            PercentPriceChange Seed).
Proof.
  unfold review_price_experiments. apply keeps_bind; [apply keeps_get | intros w].
  apply keeps_for_each. intros i.
  unfold review_price_experiment, conclude_price_experiment, start_price_experiment.
  keeps.
Qed.

Lemma keeps_choose_competitor (fuel : nat) (isp : ISP nat) (Seed : Z) :
  keeps_operators (choose_competitor fuel isp Seed).
Proof.
  induction fuel as [| fuel IH]; simpl; keeps.
Qed.

Lemma keeps_try_to_add_plan (attempts fuel : nat) (isp : ISP nat)
    (LenPlanExp : Z) (Seed : Z) :
  keeps_operators (try_to_add_plan attempts fuel isp LenPlanExp Seed).
Proof.
  pose proof (keeps_choose_competitor fuel isp Seed).
  induction attempts as [| attempts IH]; simpl; [apply keeps_ret |].
  unfold choose_plan_to_add. keeps.
Qed.

Lemma keeps_review_plan_experiments (fuel : nat) (PrPlanExp : Q) (LenPlanExp : Z)
    (Seed : Z) :
  keeps_operators (review_plan_experiments fuel PrPlanExp LenPlanExp Seed).
Proof.
  unfold review_plan_experiments. apply keeps_bind; [apply keeps_get | intros w].
  generalize (seq 0 (length (w_ISPs w))) (@nil (nat * option nat)).
  intros firms. induction firms as [| i rest IH]; intros replacements; simpl.
  - apply keeps_ret.
  - apply keeps_bind; [| intros ?; apply IH].
    unfold review_plan_experiment. apply keeps_bind; [apply keeps_get_ISP | intros isp].
    pose proof (keeps_try_to_add_plan 50 fuel isp LenPlanExp Seed).
    unfold conclude_plan_experiment, start_plan_experiment, choose_plan_to_remove.
    keeps.
Qed.

Lemma keeps_reassess (fuel : nat) (k : nat) (TimeBudget : Z)
    (MarketingBudget PrS PrV IncomeBudget : Q) (Seed : Z) (initial_call : bool) :
  keeps_operators (reassess fuel k TimeBudget MarketingBudget PrS PrV IncomeBudget
                            Seed initial_call).
Proof. unfold reassess. keeps. Qed.

Lemma keeps_all_agents_updates (fuel : nat) (replacements : list (nat * option nat))
    (costs : list Q) (switchers : list nat)
    (SwitchingCostIncrease IncomeBudget : Q) (TimeBudget : Z)
    (MarketingBudget PrS PrV : Q) (Seed : Z) :
  keeps_operators (all_agents_updates fuel replacements costs switchers
                     SwitchingCostIncrease IncomeBudget TimeBudget MarketingBudget
                     PrS PrV Seed).
Proof.
  unfold all_agents_updates. apply keeps_bind; [| intros ?; apply keeps_ret].
  generalize all_cells (mkPass 0 costs switchers unbound).
  intros cells. induction cells as [| k rest IH]; intros st; simpl.
  - apply keeps_ret.
  - apply keeps_bind; [| intros ?; apply IH].
    unfold agent_update, follow_replacement.
    pose proof (keeps_reassess fuel k TimeBudget MarketingBudget PrS PrV IncomeBudget
                               Seed false).
    keeps.
Qed.

Lemma keeps_choose_contemplators (fuel : nat) (num : Z) (Seed : Z) :
  keeps_operators (choose_contemplators fuel num Seed).
Proof.
  unfold choose_contemplators.
  assert (Hloop : forall n st, keeps_operators (contemplators_loop fuel n Seed st)).
  { intros n. induction fuel as [| fuel IH]; intros st; simpl; keeps; apply IH. }
  destruct (num <? 0)%Z; [apply keeps_ret |].
  apply keeps_bind; [apply Hloop | intros ?; apply keeps_ret].
Qed.

Lemma keeps_choose_preperators (contemplators : list (nat * nat)) (costs : list Q)
    (Seed : Z) :
  keeps_operators (choose_preperators contemplators costs Seed).
Proof.
  induction contemplators as [| person rest IH]; simpl; keeps.
Qed.

Lemma keeps_act_on_preparators (fuel : nat) (preparators : list (nat * nat))
    (TimeBudget : Z) (MarketingBudget PrS PrV IncomeBudget : Q) (Seed : Z)
    (switchers : list nat) :
  keeps_operators (act_on_preparators fuel preparators TimeBudget MarketingBudget
                                      PrS PrV IncomeBudget Seed switchers).
Proof.
  revert switchers. induction preparators as [| person rest IH]; intros switchers;
    simpl; [apply keeps_ret |].
  pose proof (keeps_reassess fuel (cell_number (snd person) (fst person)) TimeBudget
                MarketingBudget PrS PrV IncomeBudget Seed false).
  keeps. apply IH.
Qed.

Lemma keeps_households_month (fuel : nat) (p : parameters) (Seed : Z)
    (replacements : list (nat * option nat)) (st : carried) :
  keeps_operators (households_month fuel p Seed replacements st).
Proof.
  unfold households_month.
  apply keeps_bind; [apply keeps_all_agents_updates | intros [[n costs] switchers]].
  destruct (n <? NumDissatisfied p)%Z; [| apply keeps_ret].
  apply keeps_bind; [apply keeps_choose_contemplators | intros ?].
  apply keeps_bind; [apply keeps_choose_preperators | intros ?].
  apply keeps_bind; [apply keeps_act_on_preparators | intros ?; apply keeps_ret].
Qed.
End Frame.


(* ------------------------------------------------------------------ *)
(** ** The months of a run                                               *)
(* ------------------------------------------------------------------ *)

Lemma bankruptcy_loop_keeps_out {P} (ISPs : list (ISP P)) (first firm : nat)
    (operator_locations : list (list nat)) :
  operates_nowhere firm operator_locations ->
  operates_nowhere firm (bankruptcy_loop ISPs first operator_locations).
Proof.
  intros Hout. pose proof (bankruptcy_loop_shrinks ISPs first operator_locations) as Hsub.
  unfold operates_nowhere in *. apply Forall_forall. intros quad Hquad Hin.
  apply list_elem_of_lookup_1 in Hquad as [q Hq].
  destruct (Forall2_lookup_l _ _ _ _ _ Hsub Hq) as (before & Hbefore & Hin').
  rewrite Forall_forall in Hout.
  apply (Hout before); [eapply list_elem_of_lookup_2; eauto | now apply Hin'].
Qed.

Section Months.
Context `{RandomModule} `{Reporting}.

(** The only change a month makes to [operator_locations] is the one of
    its bankruptcy check, on the firms as [update_ISP_profits_and_moneypool]
    left them. *)
Lemma firms_month_operators (fuel : nat) (p : parameters) (Seed : Z) (w : world)
    (replacements : list (nat * option nat)) (w' : world) :
  firms_month fuel p Seed w = Ok (replacements, w') ->
  exists ISPs profits revenue,
    update_ISP_profits_and_moneypool (deref (w_store w)) (w_ISPs w) (w_grid w)
      (LargeMarkup p) (SmallMarkup p) (ResellerOperatingFee p)
      (WholesalerOperatingFee p) (MarketingBudget p) = Ok (ISPs, profits, revenue)
    /\ w_operator_locations w'
       = check_for_bankruptcy ISPs (w_operator_locations w).
Proof.
  unfold firms_month. intros E.
  apply st_bind_ok in E as (w0 & w1 & E0 & E). injection E0 as <- <-.
  apply st_bind_ok in E as ([[ISPs profits] revenue] & w1 & E1 & E).
  apply st_lift_ok in E1 as [E1 ->].
  exists ISPs, profits, revenue. split; [exact E1 |].
  apply st_bind_ok in E as ([] & w1 & E2 & E). injection E2 as <-.
  apply st_bind_ok in E as ([] & w2 & E3 & E). injection E3 as <-.
  apply st_bind_ok in E as ([] & w3 & E4 & E).
  apply keeps_review_price_experiments in E4.
  apply keeps_review_plan_experiments in E.
  rewrite E, E4. reflexivity.
Qed.

Lemma simulate_month_operators (fuel : nat) (p : parameters) (total_population : Q)
    (i : nat) (st : carried) (w : world) (st' : carried) (w' : world) :
  simulate_month fuel p total_population i st w = Ok (st', w') ->
  exists ISPs profits revenue,
    update_ISP_profits_and_moneypool (deref (w_store w)) (w_ISPs w) (w_grid w)
      (LargeMarkup p) (SmallMarkup p) (ResellerOperatingFee p)
      (WholesalerOperatingFee p) (MarketingBudget p) = Ok (ISPs, profits, revenue)
    /\ w_operator_locations w'
       = check_for_bankruptcy ISPs (w_operator_locations w).
Proof.
  unfold simulate_month. intros E.
  apply st_bind_ok in E as ([] & w1 & E1 & E).
  assert (w1 = w) as ->.
  { destruct (i mod 25 =? 0)%nat.
    - apply st_bind_ok in E1 as (w0 & w2 & E0 & E1). injection E0 as <- <-.
      apply st_bind_ok in E1 as ([] & w2 & E0 & E1). apply st_lift_ok in E0 as [_ ->].
      apply st_bind_ok in E1 as (q & w2 & E0 & E1). apply st_lift_ok in E0 as [_ ->].
      now apply st_ret_ok in E1 as [_ ->].
    - now apply st_ret_ok in E1 as [_ ->]. }
  apply st_bind_ok in E as (replacements & w1 & E2 & E).
  apply firms_month_operators in E2 as (ISPs & profits & revenue & Hupd & Hops).
  exists ISPs, profits, revenue. split; [exact Hupd |].
  apply keeps_households_month in E. now rewrite E.
Qed.

Lemma simulate_month_NoDup (fuel : nat) (p : parameters) (total_population : Q)
    (i : nat) (st : carried) (w : world) (st' : carried) (w' : world) :
  simulate_month fuel p total_population i st w = Ok (st', w') ->
  no_duplicate_operators (w_operator_locations w) ->
  no_duplicate_operators (w_operator_locations w').
Proof.
  intros E Hnd.
  apply simulate_month_operators in E as (ISPs & profits & revenue & _ & ->).
  now apply bankruptcy_loop_NoDup.
Qed.

Lemma simulate_month_keeps_out (fuel : nat) (p : parameters) (total_population : Q)
    (i : nat) (st : carried) (w : world) (st' : carried) (w' : world) (firm : nat) :
  simulate_month fuel p total_population i st w = Ok (st', w') ->
  operates_nowhere firm (w_operator_locations w) ->
  operates_nowhere firm (w_operator_locations w').
Proof.
  intros E Hout.
  apply simulate_month_operators in E as (ISPs & profits & revenue & _ & ->).
  now apply bankruptcy_loop_keeps_out.
Qed.

Lemma simulate_months_NoDup (fuel : nat) (p : parameters) (total_population : Q)
    (months i : nat) (st : carried) (w : world) (st' : carried) (w' : world) :
  simulate_months fuel p total_population months i st w = Ok (st', w') ->
  no_duplicate_operators (w_operator_locations w) ->
  no_duplicate_operators (w_operator_locations w').
Proof.
  revert i st w. induction months as [| months IH]; intros i st w E Hnd; simpl in E.
  - now apply st_ret_ok in E as [_ ->].
  - apply st_bind_ok in E as (st1 & w1 & E1 & E).
    eapply IH; [exact E |]. eapply simulate_month_NoDup; eauto.
Qed.

Lemma simulate_months_keep_out (fuel : nat) (p : parameters) (total_population : Q)
    (months i : nat) (st : carried) (w : world) (st' : carried) (w' : world)
    (firm : nat) :
  simulate_months fuel p total_population months i st w = Ok (st', w') ->
  operates_nowhere firm (w_operator_locations w) ->
  operates_nowhere firm (w_operator_locations w').
Proof.
  revert i st w. induction months as [| months IH]; intros i st w E Hout; simpl in E.
  - now apply st_ret_ok in E as [_ ->].
  - apply st_bind_ok in E as (st1 & w1 & E1 & E).
    eapply IH; [exact E |]. eapply simulate_month_keeps_out; eauto.
Qed.

(** [a + b] months are [a] months followed by [b] months. *)
Lemma simulate_months_split (fuel : nat) (p : parameters) (total_population : Q)
    (a b i : nat) (st : carried) (w : world) :
  simulate_months fuel p total_population (a + b) i st w
  = st_bind (simulate_months fuel p total_population a i st)
            (simulate_months fuel p total_population b (i + a)) w.
Proof.
  revert i st w. induction a as [| a IH]; intros i st w.
  - simpl. unfold st_bind, st_ret. now rewrite Nat.add_0_r.
  - cbn [Nat.add simulate_months]. unfold st_bind at 1 2 3.
    destruct (simulate_month fuel p total_population i st w) as [[st1 w1] | e |];
      [| reflexivity ..].
    rewrite IH. unfold st_bind. now replace (i + S a)%nat with (S i + a)%nat by lia.
Qed.

(** A firm that the bankruptcy check of a month finds with a moneypool of
    at most 0 is listed in no quadrant at the end of that month, nor at the
    end of any of the months that follow. *)
Lemma months_keep_bankrupt_out (fuel : nat) (p : parameters) (total_population : Q)
    (later i : nat) (st : carried) (w : world) (st' : carried) (w' : world)
    (ISPs : list (ISP nat)) (profits : list Q) (revenue : Q)
    (firm : nat) (isp : ISP nat) :
  no_duplicate_operators (w_operator_locations w) ->
  update_ISP_profits_and_moneypool (deref (w_store w)) (w_ISPs w) (w_grid w)
    (LargeMarkup p) (SmallMarkup p) (ResellerOperatingFee p)
    (WholesalerOperatingFee p) (MarketingBudget p) = Ok (ISPs, profits, revenue) ->
  ISPs !! firm = Some isp ->
  (moneypool isp <= 0)%Q ->
  simulate_months fuel p total_population (S later) i st w = Ok (st', w') ->
  operates_nowhere firm (w_operator_locations w').
Proof.
  intros Hnd Hupd Hfirm Hdead E. simpl in E.
  apply st_bind_ok in E as (st1 & w1 & E1 & E).
  eapply simulate_months_keep_out; [exact E |].
  apply simulate_month_operators in E1 as (ISPs1 & profits1 & revenue1 & Hupd1 & ->).
  rewrite Hupd in Hupd1. injection Hupd1 as <- <- <-.
  apply (bankruptcy_loop_removes ISPs 0 (w_operator_locations w) firm isp); assumption.
Qed.

(** The initialisation of a run leaves a quadrant index without
    duplicates. *)
Lemma initialise_run_NoDup (fuel : nat) (p : parameters) (w0 w : world) :
  initialise_run fuel p w0 = Ok (tt, w) ->
  no_duplicate_operators (w_operator_locations w).
Proof.
  unfold initialise_run. intros E.
  apply st_bind_ok in E as ([] & w1 & E1 & E). injection E1 as <-.
  apply st_bind_ok in E as ([ISPs ops] & w1 & E1 & E).
  apply st_lift_ok in E1 as [E1 ->].
  apply st_bind_ok in E as ([] & w1 & E2 & E). injection E2 as <-.
  assert (Hkeep : keeps_operators
            (initialise_grid fuel (TimeBudget p) (IncomeBudget p) (MarketingBudget p)
                             (PrSacrificeWifi p) (PrPickBetterValue p) (Seed p))).
  { unfold initialise_grid. apply keeps_bind; [now intros ? ? ? [= _ <-] | intros _].
    apply keeps_for_each. intros k. unfold initialise_cell.
    repeat first
      [ apply keeps_ret | apply keeps_lift | apply keeps_get | apply keeps_drawing
      | apply keeps_put_cell
      | apply keeps_bind; [| intros ?]
      | match goal with
        | |- keeps_operators (if ?b then _ else _) => destruct b
        | |- keeps_operators (match ?x with _ => _ end) => destruct x
        end ]. }
  apply Hkeep in E. rewrite E. simpl.
  unfold initialise_ISPs in E1.
  apply res_bind_ok in E1 as (separated & _ & E1).
  apply res_bind_ok in E1 as (initial_profits & _ & E1).
  apply res_bind_ok in E1 as (ISPs0 & _ & E1).
  apply res_bind_ok in E1 as (ops0 & Hops & E1).
  injection E1 as <- <-.
  now apply define_ISPs_per_location_NoDup in Hops.
Qed.

(** The state of a run after its first [months] months, taken apart. *)
Lemma run_simulation_upto_ok (fuel : nat) (p : parameters) (months : nat)
    (w0 : world) (st : carried) (w : world) :
  run_simulation_upto fuel p months w0 = Ok (st, w) ->
  exists w1 total_population,
    initialise_run fuel p w0 = Ok (tt, w1)
    /\ initialise_report_structures (w_grid w1) = Ok total_population
    /\ simulate_months fuel p total_population months 0
         (mkCarried (Seed p) (repeat 0%Q (100 * 100)) (repeat 0%nat (100 * 100))) w1
       = Ok (st, w).
Proof.
  unfold run_simulation_upto, simulate_market_dynamics_upto. intros E.
  apply st_bind_ok in E as ([] & w1 & E1 & E).
  apply st_bind_ok in E as (w2 & w3 & E2 & E). injection E2 as <- <-.
  apply st_bind_ok in E as (total_population & w3 & E3 & E).
  apply st_lift_ok in E3 as [E3 ->].
  now exists w1, total_population.
Qed.
End Months.


Section BankruptcyIsFinal.
Context `{RandomModule} `{Reporting}.


(** The same at the very end of the run, after the grid has been
    cleaned. *)
Lemma bankrupt_firm_absent_at_the_end (fuel : nat) (p : parameters) (w0 : world)
    (i : nat) (st : carried) (w : world)
    (ISPs : list (ISP nat)) (profits : list Q) (revenue : Q)
    (firm : nat) (isp : ISP nat) (w_end : world) :
  run_simulation_upto fuel p i w0 = Ok (st, w) ->
  update_ISP_profits_and_moneypool (deref (w_store w)) (w_ISPs w) (w_grid w)
    (LargeMarkup p) (SmallMarkup p) (ResellerOperatingFee p)
    (WholesalerOperatingFee p) (MarketingBudget p) = Ok (ISPs, profits, revenue) ->
  ISPs !! firm = Some isp ->
  (moneypool isp <= 0)%Q ->
  (i < MaxIter p)%nat ->
  run_simulation fuel p w0 = Ok (tt, w_end) ->
  operates_nowhere firm (w_operator_locations w_end).
Proof.
  intros Ei Hupd Hfirm Hdead Hlt Eend.
  apply run_simulation_upto_ok in Ei as (w1 & tp & Hinit & Hrep & Hi).
  unfold run_simulation, simulate_market_dynamics, simulate_market_dynamics_upto in Eend.
  apply st_bind_ok in Eend as ([] & w1' & Hinit' & Eend).
  rewrite Hinit in Hinit'. injection Hinit' as <-.
  apply st_bind_ok in Eend as (stn & wn & Hn & Eend).
  apply st_bind_ok in Hn as (w2 & w3 & E2 & Hn). injection E2 as <- <-.
  apply st_bind_ok in Hn as (tp' & w3 & Hrep' & Hn).
  apply st_lift_ok in Hrep' as [Hrep' ->].
  rewrite Hrep in Hrep'. injection Hrep' as <-.
  assert (Hclean : keeps_operators perform_grid_cleaning).
  { unfold perform_grid_cleaning. apply keeps_for_each. intros k. unfold clean_cell.
    apply keeps_bind; [apply keeps_get_cell | intros c].
    destruct (populated c); [| apply keeps_ret].
    apply keeps_bind; [apply keeps_get | intros w'].
    apply keeps_bind; [apply keeps_lift | intros pc]. apply keeps_put_cell. }
  apply Hclean in Eend. rewrite Eend.
  replace (MaxIter p) with (i + S (MaxIter p - i - 1))%nat in Hn by lia.
  rewrite simulate_months_split, (st_bind_eq _ _ _ _ _ Hi) in Hn.
  eapply months_keep_bankrupt_out; [| exact Hupd | exact Hfirm | exact Hdead | exact Hn].
  eapply simulate_months_NoDup; [exact Hi |].
  eapply initialise_run_NoDup; exact Hinit.
Qed.
End BankruptcyIsFinal.



(* ------------------------------------------------------------------ *)
(** ** Reproducibility                                                   *)
(* ------------------------------------------------------------------ *)

Section Reproducibility.
Context `{RandomModule} `{Reporting}.

(** A draw that follows [random.seed(Seed + add_to_seed)] is a function of
    the seed and the counter: the state of the generator before the call
    plays no part. *)
Lemma seeded_draw (Seed : Z) (d : draws) :
  (reseed Seed ;;; random_random) d
  = Ok (fst (rng_random (rng_seed (Seed + add_to_seed d))),
        mkDraws (snd (rng_random (rng_seed (Seed + add_to_seed d))))
                (add_to_seed d + 23)).
Proof.
  unfold st_bind, reseed, random_random. cbn.
  now destruct (rng_random (rng_seed (Seed + add_to_seed d))).
Qed.

Lemma reseed_forgets {A} (Seed : Z) (m : St draws A) (d1 d2 : draws) :
  add_to_seed d1 = add_to_seed d2 ->
  (reseed Seed ;;; m) d1 = (reseed Seed ;;; m) d2.
Proof. intros E. unfold st_bind, reseed. now rewrite E. Qed.

Lemma decide_if_populated_forgets (location : nat * nat) (Seed : Z) (d1 d2 : draws) :
  add_to_seed d1 = add_to_seed d2 ->
  decide_if_populated location Seed d1 = decide_if_populated location Seed d2.
Proof. intros E. unfold decide_if_populated. cbv zeta. now apply reseed_forgets. Qed.

Lemma st_bind_congr {S A B} (m : St S A) (k : A -> St S B) (s1 s2 : S) :
  m s1 = m s2 -> st_bind m k s1 = st_bind m k s2.
Proof. intros E. unfold st_bind. now rewrite E. Qed.

Lemma all_cells_first : all_cells = 0%nat :: seq 1 (100 * 100 - 1).
Proof. reflexivity. Qed.

(** The first thing [initialise_grid] does with the generator is to seed
    it. *)
Lemma initialise_grid_forgets (fuel : nat) (TimeBudget : Z)
    (IncomeBudget MarketingBudget PrS PrV : Q) (Seed : Z)
    (g1 g2 : rng) (counter : Z) (store : list plan) (ISPs : list (ISP nat))
    (operator_locations : list (list nat)) (grid1 grid2 : list (person nat)) :
  initialise_grid fuel TimeBudget IncomeBudget MarketingBudget PrS PrV Seed
    (mkWorld (mkDraws g1 counter) store ISPs operator_locations grid1)
  = initialise_grid fuel TimeBudget IncomeBudget MarketingBudget PrS PrV Seed
      (mkWorld (mkDraws g2 counter) store ISPs operator_locations grid2).
Proof.
  unfold initialise_grid. rewrite all_cells_first. cbn [for_each].
  rewrite !(st_bind_eq _ _ _ _ _ eq_refl).
  apply st_bind_congr. unfold initialise_cell. cbv zeta.
  apply st_bind_congr. unfold drawing, with_grid. cbn [w_draws].
  rewrite (decide_if_populated_forgets _ Seed (mkDraws g1 counter) (mkDraws g2 counter))
    by reflexivity.
  reflexivity.
Qed.

(** [run_simulation] resets the counter and rebuilds the globals: what it
    leaves does not depend on what it found. *)
Lemma initialise_run_forgets (fuel : nat) (p : parameters) (w1 w2 : world) :
  initialise_run fuel p w1 = initialise_run fuel p w2.
Proof.
  unfold initialise_run. unfold st_bind at 1 2 4 5. unfold st_lift.
  destruct (initialise_ISPs (plans p) (avg_shares p) (InitialMoneyPool p))
    as [[ISPs operator_locations] | e |]; [| reflexivity ..].
  unfold st_bind. cbn [with_draws w_draws w_store w_ISPs w_operator_locations w_grid gen
                       add_to_seed].
  apply initialise_grid_forgets.
Qed.

(** C2 (determinism).  For a fixed parameter set, seed included, a run of
    [run_simulation] is the same whatever state the program was in when it
    was called, the generator, the counter [add_to_seed] and the globals
    left by an earlier run included: two executions end in the same world
    (or fail in the same way), and so do they after each number of
    months. *)
Theorem run_simulation_is_reproducible (fuel : nat) (p : parameters) (w1 w2 : world) :
  run_simulation fuel p w1 = run_simulation fuel p w2
  /\ forall months,
       run_simulation_upto fuel p months w1 = run_simulation_upto fuel p months w2.
Proof.
  split; [| intros months]; unfold run_simulation, run_simulation_upto, st_bind;
    now rewrite (initialise_run_forgets fuel p w1 w2).
Qed.
End Reproducibility.


(* ------------------------------------------------------------------ *)
(** ** A run in a deserted country                                       *)
(* ------------------------------------------------------------------ *)




Lemma deserted_grid_unpopulated :
  Forall (fun c : person nat => populated c = false) deserted_grid.
Proof. unfold deserted_grid. apply Forall_fmap, Forall_forall. now intros. Qed.

Lemma deserted_grid_length : length deserted_grid = (100 * 100)%nat.
Proof. unfold deserted_grid. now rewrite length_map, length_seq. Qed.

Section Deserted.
Local Abbreviation nobody_home := (constant_random 0.99 0).





End Deserted.


Section DesertedMonth.
Local Abbreviation nobody_home := (constant_random 0.99 0).

Variable counter : Z.
Variable grid : list (person nat).
Hypothesis grid_unpopulated : Forall (fun c : person nat => populated c = false) grid.
Hypothesis grid_length : length grid = (100 * 100)%nat.




End DesertedMonth.



(* ------------------------------------------------------------------ *)
(** ** The table of plans and the firms built from it                    *)
(* ------------------------------------------------------------------ *)

Lemma separate_plans_loop_concat (rows : list (nat * plan)) (current_provider : string)
    (current_provider_plans : list nat) :
  concat (separate_plans_loop rows current_provider current_provider_plans)
  = current_provider_plans ++ map fst rows.
Proof.
  revert current_provider current_provider_plans.
  induction rows as [| [r row] rest IH]; intros cur acc; simpl.
  - now rewrite app_nil_r.
  - destruct (plan_isp row =? cur)%string; simpl; rewrite IH.
    + now rewrite <- app_assoc.
    + reflexivity.
Qed.

Lemma separate_plans_loop_groups (plans : list plan) (rows : list (nat * plan))
    (current_provider : string) (current_provider_plans : list nat) :
  Forall (fun x => plans !! fst x = Some (snd x)) rows ->
  Forall (fun r => exists row, plans !! r = Some row /\ plan_isp row = current_provider)
         current_provider_plans ->
  Forall (fun group =>
            exists name, Forall (fun r => exists row, plans !! r = Some row
                                                       /\ plan_isp row = name) group)
         (separate_plans_loop rows current_provider current_provider_plans).
Proof.
  intros Hrows. revert current_provider current_provider_plans.
  induction Hrows as [| [r row] rest Hrow Hrest IH]; intros cur acc Hacc; simpl.
  - constructor; [| constructor]. now exists cur.
  - simpl in Hrow. destruct (String.eqb_spec (plan_isp row) cur) as [E | N].
    + apply IH. apply Forall_app. split; [exact Hacc |].
      constructor; [| constructor]. now exists row.
    + constructor; [now exists cur |].
      apply IH. constructor; [| constructor]. now exists row.
Qed.

Lemma separate_plans_loop_nonempty (rows : list (nat * plan)) (current_provider : string)
    (current_provider_plans : list nat) :
  current_provider_plans <> []
  \/ (exists r row rest, rows = (r, row) :: rest /\ plan_isp row = current_provider) ->
  Forall (fun group => group <> [])
         (separate_plans_loop rows current_provider current_provider_plans).
Proof.
  revert current_provider current_provider_plans.
  induction rows as [| [r row] rest IH]; intros cur acc Hstart; simpl.
  - constructor; [| constructor].
    destruct Hstart as [H | (r & row & rest & H & _)]; [exact H | discriminate].
  - destruct (String.eqb_spec (plan_isp row) cur) as [E | N].
    + apply IH. left. now destruct acc.
    + constructor.
      * destruct Hstart as [H | (r' & row' & rest' & H & E)]; [exact H |].
        injection H as <- <- <-. contradiction.
      * apply IH. now left.
Qed.

Lemma combine_seq_lookup {A} (l : list A) (start : nat) :
  Forall (fun x => l !! (fst x - start)%nat = Some (snd x) /\ (start <= fst x)%nat)
         (combine (seq start (length l)) l).
Proof.
  revert start. induction l as [| a l IH]; intros start; simpl; constructor.
  - simpl. now rewrite Nat.sub_diag.
  - eapply Forall_impl; [apply (IH (S start)) |].
    intros [r x] [Hx Hle]. simpl in *. split; [| lia].
    replace (r - start)%nat with (S (r - S start)) by lia. exact Hx.
Qed.

(** X1 (separate_plans_by_ISP).  The table is cut into consecutive blocks:
    put end to end the blocks are the row numbers 0, 1, ... of the table, no
    block is empty, and the rows of a block name one provider. *)
Theorem separate_plans_by_ISP_partition (plans : list plan) (groups : list (list nat)) :
  separate_plans_by_ISP plans = Ok groups ->
  concat groups = seq 0 (length plans)
  /\ Forall (fun group => group <> []) groups
  /\ Forall (fun group =>
               exists name, Forall (fun r => exists row, plans !! r = Some row
                                                          /\ plan_isp row = name) group)
            groups.
Proof.
  unfold separate_plans_by_ISP. destruct plans as [| first rest]; [discriminate |].
  intros E.
  assert (Hg : groups = separate_plans_loop
                          (combine (seq 0 (length (first :: rest))) (first :: rest))
                          (plan_isp first) []) by congruence.
  clear E. subst groups. split; [| split].
  - rewrite separate_plans_loop_concat. cbn [app].
    assert (E : forall (l : list plan) start,
               map fst (combine (seq start (length l)) l) = seq start (length l)).
    { induction l as [| a l IH]; intros start; simpl; [reflexivity |].
      now rewrite IH. }
    apply E.
  - apply separate_plans_loop_nonempty. right. simpl. eauto.
  - apply separate_plans_loop_groups; [| constructor].
    eapply Forall_impl; [apply (combine_seq_lookup (first :: rest) 0) |].
    intros [r x] [Hx _]. simpl in *. now rewrite Nat.sub_0_r in Hx.
Qed.

Lemma separate_plans_by_ISP_partition_witness :
  concat [[0; 1]; [2; 3]]%nat = seq 0 (length small_table)
  /\ Forall (fun group => group <> []) [[0; 1]; [2; 3]]%nat
  /\ Forall (fun group =>
               exists name, Forall (fun r => exists row, small_table !! r = Some row
                                                          /\ plan_isp row = name) group)
            [[0; 1]; [2; 3]]%nat.
Proof.
  apply (separate_plans_by_ISP_partition small_table [[0; 1]; [2; 3]]%nat).
  reflexivity.
Defined.


(* ------------------------------------------------------------------ *)
(** ** Footprints                                                        *)
(* ------------------------------------------------------------------ *)

Lemma strictly_increasing_not_In (a : nat) (l : list nat) :
  Forall (fun b => (a < b)%nat) l -> ~ In a l.
Proof.
  intros H Hin. rewrite Forall_forall in H.
  apply list_elem_of_In in Hin. specialize (H a Hin). lia.
Qed.

(** Two strictly increasing lists with the same members are equal. *)
Lemma strictly_increasing_unique (l l' : list nat) :
  strictly_increasing l -> strictly_increasing l' ->
  (forall x, In x l <-> In x l') -> l = l'.
Proof.
  revert l'. induction l as [| a r IH]; intros [| b r'] Hl Hl' Hmem.
  - reflexivity.
  - exfalso. apply (proj2 (Hmem b)). now left.
  - exfalso. apply (proj1 (Hmem a)). now left.
  - destruct Hl as [Ha Hr], Hl' as [Hb Hr'].
    assert (a = b) as ->.
    { destruct (proj1 (Hmem a) (or_introl eq_refl)) as [E | Hin]; [now symmetry |].
      destruct (proj2 (Hmem b) (or_introl eq_refl)) as [E | Hin']; [exact E |].
      rewrite Forall_forall in Ha, Hb.
      apply list_elem_of_In in Hin, Hin'.
      specialize (Ha b Hin'). specialize (Hb a Hin). lia. }
    f_equal. apply IH; [exact Hr | exact Hr' |].
    intros x. pose proof (strictly_increasing_not_In b r Ha).
    pose proof (strictly_increasing_not_In b r' Hb).
    specialize (Hmem x). simpl in Hmem. split; intros Hx.
    + destruct (proj1 Hmem (or_intror Hx)) as [-> | H']; [contradiction | exact H'].
    + destruct (proj2 Hmem (or_intror Hx)) as [-> | H']; [contradiction | exact H'].
Qed.

Lemma insert_sorted_In (n x : nat) (l : list nat) :
  In x (insert_sorted n l) <-> x = n \/ In x l.
Proof.
  induction l as [| m rest IH]; simpl; [intuition |].
  destruct (n <=? m)%nat; simpl; [intuition |]. rewrite IH. intuition.
Qed.

Lemma insert_sorted_increasing (n : nat) (l : list nat) :
  strictly_increasing l -> ~ In n l -> strictly_increasing (insert_sorted n l).
Proof.
  induction l as [| m rest IH]; intros Hl Hn; simpl.
  - split; [constructor | exact I].
  - destruct Hl as [Hm Hrest]. destruct (Nat.leb_spec n m) as [Hle | Hgt].
    + assert (n < m)%nat by (assert (n <> m) by (intros ->; apply Hn; now left); lia).
      split; [| split; assumption].
      constructor; [assumption |].
      eapply Forall_impl; [exact Hm |]. intros b Hb. simpl in Hb. lia.
    + split.
      * apply Forall_forall. intros b Hb%list_elem_of_In%insert_sorted_In.
        destruct Hb as [-> | Hb]; [exact Hgt |].
        rewrite Forall_forall in Hm. now apply Hm, list_elem_of_In.
      * apply IH; [exact Hrest |]. intros Hin. apply Hn. now right.
Qed.

Lemma sort_quads_In (x : nat) (l : list nat) : In x (sort_quads l) <-> In x l.
Proof.
  induction l as [| a l IH]; simpl; [tauto |].
  rewrite insert_sorted_In, IH. intuition.
Qed.

Lemma sort_quads_increasing (l : list nat) :
  List.NoDup l -> strictly_increasing (sort_quads l).
Proof.
  induction 1 as [| a l Ha Hl IH]; simpl; [exact I |].
  apply insert_sorted_increasing; [exact IH |]. now rewrite sort_quads_In.
Qed.

Lemma mem_quad_In (q : nat) (l : list nat) : mem_quad q l = true <-> In q l.
Proof.
  unfold mem_quad. rewrite existsb_exists. split.
  - intros (x & Hx & E). apply Nat.eqb_eq in E. now subst.
  - intros H. exists q. split; [exact H | apply Nat.eqb_refl].
Qed.

Lemma footprint_invariant_add (acc : list nat) (q : nat) :
  footprint_invariant acc -> q <> 1%nat -> q <> 2%nat ->
  footprint_invariant (if negb (mem_quad q acc) then acc ++ [q] else acc)
  /\ forall x, In x (if negb (mem_quad q acc) then acc ++ [q] else acc)
               <-> In x acc \/ x = q.
Proof.
  intros [Hnd H12] H1 H2. destruct (mem_quad q acc) eqn:E; simpl.
  - apply mem_quad_In in E. split; [now split |]. intros x. split; [tauto |].
    intros [H | ->]; assumption.
  - assert (Hq : ~ In q acc) by (rewrite <- mem_quad_In; congruence).
    split.
    + split.
      * apply List.NoDup_app; [exact Hnd | repeat constructor; simpl; tauto |].
        intros a Ha [<- | []]. contradiction.
      * rewrite !in_app_iff. simpl. intuition congruence.
    + intros x. rewrite in_app_iff. simpl. intuition.
Qed.

Lemma footprint_invariant_add_regional (acc : list nat) :
  footprint_invariant acc ->
  footprint_invariant (if negb (mem_quad 1 acc) then acc ++ [1; 2]%nat else acc)
  /\ forall x, In x (if negb (mem_quad 1 acc) then acc ++ [1; 2]%nat else acc)
               <-> In x acc \/ x = 1%nat \/ x = 2%nat.
Proof.
  intros [Hnd H12]. destruct (mem_quad 1 acc) eqn:E; simpl.
  - apply mem_quad_In in E. split; [now split |]. intros x. split; [tauto |].
    intros [H | [-> | ->]]; [assumption | assumption | now apply H12].
  - assert (H1 : ~ In 1%nat acc) by (rewrite <- mem_quad_In; congruence).
    assert (H2 : ~ In 2%nat acc) by (rewrite <- H12; exact H1).
    split.
    + split.
      * apply List.NoDup_app; [exact Hnd | |].
        -- constructor; [simpl; intuition lia | repeat constructor; simpl; tauto].
        -- intros a Ha [<- | [<- | []]]; contradiction.
      * rewrite !in_app_iff. simpl. intuition.
    + intros x. rewrite in_app_iff. simpl. intuition.
Qed.

Lemma wifi_footprint_cons (pl : plan) (rest : list plan) (x : nat) :
  In x (wifi_footprint (pl :: rest))
  <-> (is_wifi_plan pl = true
       /\ (if (plan_footprint pl =? "remote")%string
           then x = 1 \/ x = 2 \/ x = 3
           else if (plan_footprint pl =? "regional")%string
                then x = 1 \/ x = 2 else x = 0)%nat)
      \/ In x (wifi_footprint rest).
Proof.
  unfold wifi_footprint. cbn [existsb].
  destruct (is_wifi_plan pl), (plan_footprint pl =? "remote")%string,
    (plan_footprint pl =? "regional")%string;
    cbn [andb orb negb];
    repeat match goal with |- context [existsb ?f rest] => destruct (existsb f rest) end;
    rewrite ?in_app_iff; simpl; intuition congruence.
Qed.

Lemma wifi_loop_members (plans : list plan) (acc : list nat) :
  footprint_invariant acc ->
  footprint_invariant (translate_footprints_loop plans false acc)
  /\ forall x, In x (translate_footprints_loop plans false acc)
               <-> In x acc \/ In x (wifi_footprint plans).
Proof.
  revert acc. induction plans as [| pl rest IH]; intros acc Hacc.
  - split; [exact Hacc |]. intros x. cbn. unfold wifi_footprint. cbn. tauto.
  - cbn [translate_footprints_loop negb andb].
    change (service_eqb (plan_service pl) wifi) with (is_wifi_plan pl).
    destruct (is_wifi_plan pl) eqn:Ew.
    + cbv zeta. destruct (plan_footprint pl =? "remote")%string eqn:Er;
        [| destruct (plan_footprint pl =? "regional")%string eqn:Eg].
      * destruct (footprint_invariant_add acc 3 Hacc) as [H3 M3]; [lia | lia |].
        destruct (footprint_invariant_add_regional _ H3) as [H12 M12].
        destruct (IH _ H12) as [Hres Mres]. split; [exact Hres |].
        intros x. rewrite Mres, M12, M3, wifi_footprint_cons, Ew, Er. intuition.
      * destruct (footprint_invariant_add_regional _ Hacc) as [H12 M12].
        destruct (IH _ H12) as [Hres Mres]. split; [exact Hres |].
        intros x. rewrite Mres, M12, wifi_footprint_cons, Ew, Er, Eg. intuition.
      * destruct (footprint_invariant_add acc 0 Hacc) as [H0 M0]; [lia | lia |].
        destruct (IH _ H0) as [Hres Mres]. split; [exact Hres |].
        intros x. rewrite Mres, M0, wifi_footprint_cons, Ew, Er, Eg. intuition.
    + destruct (IH _ Hacc) as [Hres Mres]. split; [exact Hres |].
      intros x. rewrite Mres, wifi_footprint_cons, Ew. intuition congruence.
Qed.

Lemma wifi_footprint_increasing (plans : list plan) :
  strictly_increasing (wifi_footprint plans).
Proof.
  unfold wifi_footprint.
  repeat match goal with |- context [existsb ?f plans] => destruct (existsb f plans) end;
    cbn; repeat (constructor; try lia).
Qed.

Lemma translate_wifi_footprint (plans : list plan) :
  translate_footprints_into_quads plans false = wifi_footprint plans.
Proof.
  unfold translate_footprints_into_quads.
  destruct (wifi_loop_members plans []) as [[Hnd _] Hmem].
  { split; [constructor | simpl; tauto]. }
  apply strictly_increasing_unique.
  - now apply sort_quads_increasing.
  - apply wifi_footprint_increasing.
  - intros x. rewrite sort_quads_In, Hmem. simpl. tauto.
Qed.

(** X2 (translate_footprints_into_quads, wifi).  The wifi footprint of a
    roster: quadrant 0 if some wifi plan is neither remote nor regional,
    quadrants 1 and 2 if some wifi plan is remote or regional, quadrant 3
    if some wifi plan is remote; in increasing order, whatever the order of
    the plans. *)
Theorem wifi_footprint_of_roster (plans : list plan) :
  translate_footprints_into_quads plans false = wifi_footprint plans.
Proof. apply translate_wifi_footprint. Qed.

Lemma mobile_loop (plans : list plan) (acc : list nat) :
  translate_footprints_loop plans true acc
  = if existsb (fun pl => is_mobile_plan pl && (plan_footprint pl =? "remote")%string)
               plans
    then [0; 1; 2; 3]%nat
    else match last (List.filter is_mobile_plan plans) with
         | None => acc
         | Some pl => if (plan_footprint pl =? "regional")%string then [0; 1; 2]%nat
                      else [0]%nat
         end.
Proof.
  revert acc. induction plans as [| pl rest IH]; intros acc; [reflexivity |].
  cbn [translate_footprints_loop negb andb existsb List.filter].
  change (service_eqb (plan_service pl) mobile) with (is_mobile_plan pl).
  destruct (is_mobile_plan pl) eqn:Em; cbn [andb orb]; [| apply IH].
  cbv zeta. destruct (plan_footprint pl =? "remote")%string eqn:Er; [reflexivity |].
  cbn [orb].
  destruct (plan_footprint pl =? "regional")%string eqn:Eg; rewrite IH;
    destruct (existsb _ rest); try reflexivity;
    cbn [last]; destruct (List.filter is_mobile_plan rest) as [| y ys] eqn:Ef;
    cbn; rewrite ?Eg; try reflexivity.
  all: destruct (last (y :: ys)) eqn:El; [reflexivity | now apply last_None in El].
Qed.

Lemma translate_mobile_footprint (plans : list plan) :
  translate_footprints_into_quads plans true = mobile_footprint plans.
Proof.
  unfold translate_footprints_into_quads, mobile_footprint. rewrite mobile_loop.
  destruct (existsb _ plans); [reflexivity |].
  destruct (last (List.filter is_mobile_plan plans)) as [pl |]; [| reflexivity].
  destruct (plan_footprint pl =? "regional")%string; reflexivity.
Qed.

(** X3 (translate_footprints_into_quads, mobile).  The mobile footprint of
    a roster is every quadrant as soon as one mobile plan is remote;
    otherwise the last mobile plan of the roster decides alone (quadrants
    0, 1, 2 if it is regional, quadrant 0 if not), whatever the earlier
    mobile plans say. *)
Theorem mobile_footprint_of_roster (plans : list plan) :
  translate_footprints_into_quads plans true = mobile_footprint plans.
Proof. apply translate_mobile_footprint. Qed.

(** X4 (translate_footprints_into_quads).  A footprint is a strictly
    increasing list of quadrant numbers below 4. *)
Theorem footprint_is_sorted_and_bounded (plans : list plan) (for_mobile : bool) :
  strictly_increasing (translate_footprints_into_quads plans for_mobile)
  /\ Forall (fun quad => (quad < 4)%nat)
            (translate_footprints_into_quads plans for_mobile).
Proof.
  destruct for_mobile.
  - rewrite translate_mobile_footprint. unfold mobile_footprint.
    destruct (existsb _ plans); [cbn; repeat (constructor; try lia) |].
    destruct (last _) as [pl |]; [| cbn; repeat constructor].
    destruct (plan_footprint pl =? "regional")%string;
      cbn; repeat (constructor; try lia).
  - rewrite translate_wifi_footprint. split; [apply wifi_footprint_increasing |].
    unfold wifi_footprint.
    repeat match goal with |- context [existsb ?f plans] => destruct (existsb f plans) end;
      cbn; repeat (constructor; try lia).
Qed.


(* ------------------------------------------------------------------ *)
(** ** The quadrant index                                                *)
(* ------------------------------------------------------------------ *)

Lemma append_operator_all_members (quads : list nat) (i : nat)
    (ops ops' : list (list nat)) :
  append_operator_all ops quads i = Ok ops' ->
  length ops' = length ops
  /\ forall q quad', ops' !! q = Some quad' ->
       exists quad, ops !! q = Some quad
                    /\ forall j, In j quad' <-> In j quad \/ (j = i /\ In q quads).
Proof.
  revert ops. induction quads as [| q0 rest IH]; intros ops; simpl.
  - intros [= <-]. split; [reflexivity |]. intros q quad' Hq. exists quad'.
    split; [exact Hq | tauto].
  - intros E. apply res_bind_ok in E as (ops1 & E1 & E).
    unfold append_operator in E1.
    apply res_bind_ok in E1 as (l & Hl & E1). injection E1 as <-.
    unfold subscript in Hl. destruct (ops !! q0) as [l0 |] eqn:Hq0; [| discriminate].
    injection Hl as ->.
    destruct (IH _ E) as [Hlen Hmem]. rewrite length_insert in Hlen.
    split; [exact Hlen |]. intros q quad' Hq.
    destruct (Hmem q quad' Hq) as (quad1 & Hq1 & Hiff).
    destruct (Nat.eq_dec q0 q) as [-> | Hne].
    + rewrite list_lookup_insert_eq in Hq1 by (eapply lookup_lt_Some; eauto).
      injection Hq1 as <-. exists l. split; [exact Hq0 |].
      intros j. rewrite Hiff, in_app_iff. simpl. intuition.
    + rewrite list_lookup_insert_ne in Hq1 by exact Hne.
      exists quad1. split; [exact Hq1 |]. intros j. rewrite Hiff. intuition.
Qed.

Lemma collect_operators_members {P} (ISPs : list (ISP P)) (i : nat)
    (ops ops' : list (list nat)) :
  collect_operators ISPs i ops = Ok ops' ->
  length ops' = length ops
  /\ forall q quad', ops' !! q = Some quad' ->
       exists quad, ops !! q = Some quad
                    /\ forall j, In j quad'
                                 <-> In j quad
                                     \/ exists k isp quads,
                                          ISPs !! k = Some isp /\ j = (i + k)%nat
                                          /\ quads_of_firm isp = Ok quads
                                          /\ In q quads.
Proof.
  revert i ops. induction ISPs as [| isp rest IH]; intros i ops; simpl.
  - intros [= <-]. split; [reflexivity |]. intros q quad' Hq. exists quad'.
    split; [exact Hq |]. intros j. split; [tauto |].
    intros [H | (k & isp & quads & Hk & _)]; [exact H | now rewrite lookup_nil in Hk].
  - intros E. apply res_bind_ok in E as (quads & Hquads & E).
    apply res_bind_ok in E as (ops1 & E1 & E).
    destruct (append_operator_all_members _ _ _ _ E1) as [Hlen1 Hmem1].
    destruct (IH _ _ E) as [Hlen Hmem].
    split; [congruence |]. intros q quad' Hq.
    destruct (Hmem q quad' Hq) as (quad1 & Hq1 & Hiff).
    destruct (Hmem1 q quad1 Hq1) as (quad & Hq0 & Hiff1).
    exists quad. split; [exact Hq0 |]. intros j. rewrite Hiff, Hiff1. split.
    + intros [[H | [-> Hin]] | (k & isp' & quads' & Hk & -> & Hqs & Hin)].
      * now left.
      * right. exists 0%nat, isp, quads. rewrite Nat.add_0_r. auto.
      * right. exists (S k), isp', quads'. simpl. repeat split; auto; lia.
    + intros [H | (k & isp' & quads' & Hk & -> & Hqs & Hin)]; [now left; left |].
      destruct k as [| k]; simpl in Hk.
      * injection Hk as <-. left. right. rewrite Nat.add_0_r.
        split; [reflexivity |]. congruence.
      * right. exists k, isp', quads'. repeat split; auto; lia.
Qed.

(** The members of a quadrant of the index. *)
Lemma define_ISPs_per_location_members {P} (ISPs : list (ISP P))
    (operator_locations : list (list nat)) :
  define_ISPs_per_location ISPs = Ok operator_locations ->
  length operator_locations = 4%nat
  /\ forall q quad, operator_locations !! q = Some quad ->
       forall i, In i quad
                 <-> exists isp quads, ISPs !! i = Some isp
                                       /\ quads_of_firm isp = Ok quads /\ In q quads.
Proof.
  unfold define_ISPs_per_location. intros E.
  apply res_bind_ok in E as (ops & Hops & E). injection E as <-.
  destruct (collect_operators_members _ _ _ _ Hops) as [Hlen Hmem].
  split; [now rewrite length_map |].
  intros q quad Hq i.
  change (map (fun quad => remove_duplicates (length quad) quad) ops)
    with ((fun quad => remove_duplicates (length quad) quad) <$> ops) in Hq.
  rewrite list_lookup_fmap in Hq.
  destruct (ops !! q) as [quad' |] eqn:Hq'; [| discriminate]. injection Hq as <-.
  destruct (remove_duplicates_NoDup (length quad') quad' (le_n _)) as [_ Hin].
  rewrite Hin. destruct (Hmem q quad' Hq') as (quad0 & Hq0 & Hiff).
  rewrite Hiff. split.
  - intros [H | (k & isp & quads & Hk & -> & Hqs & Hinq)].
    + exfalso. destruct q as [| [| [| [| q]]]]; simpl in Hq0;
        try (injection Hq0 as <-; contradiction); discriminate.
    + now exists isp, quads.
  - intros (isp & quads & Hi & Hqs & Hinq). right. now exists i, isp, quads.
Qed.

(** X5 (define_ISPs_per_location).  The index has four quadrants; a
    quadrant lists no firm twice, and it lists firm [i] exactly when
    the quadrant is among the wifi quadrants or the mobile quadrants of a
    service the firm offers. *)
Theorem quadrant_index_lists_who_serves {P} (ISPs : list (ISP P))
    (operator_locations : list (list nat)) :
  define_ISPs_per_location ISPs = Ok operator_locations ->
  length operator_locations = 4%nat
  /\ no_duplicate_operators operator_locations
  /\ forall q quad, operator_locations !! q = Some quad ->
       forall i, In i quad
                 <-> exists isp quads, ISPs !! i = Some isp
                                       /\ quads_of_firm isp = Ok quads /\ In q quads.
Proof.
  intros E. destruct (define_ISPs_per_location_members _ _ E) as [Hlen Hmem].
  split; [exact Hlen | split; [| exact Hmem]].
  now apply define_ISPs_per_location_NoDup in E.
Qed.

Lemma quadrant_index_lists_who_serves_witness :
  length [[0; 1]; [0; 1]; [0; 1]; [0]]%nat = 4%nat
  /\ no_duplicate_operators [[0; 1]; [0; 1]; [0; 1]; [0]]%nat
  /\ forall q quad, [[0; 1]; [0; 1]; [0; 1]; [0]]%nat !! q = Some quad ->
       forall i, In i quad
                 <-> exists isp quads, two_firms !! i = Some isp
                                       /\ quads_of_firm isp = Ok quads /\ In q quads.
Proof.
  apply (quadrant_index_lists_who_serves two_firms). reflexivity.
Defined.

(** X6 (define_ISPs_per_location, pick_operators).  The index that
    [define_ISPs_per_location] builds satisfies what [pick_operators] relies
    on: every entry of a quadrant is the number of a firm that serves the
    quadrant with its mobile or with its wifi service. *)
Theorem quadrant_index_is_covered {P} (ISPs : list (ISP P))
    (operator_locations : list (list nat)) (q : nat) (quad : list nat) :
  define_ISPs_per_location ISPs = Ok operator_locations ->
  operator_locations !! q = Some quad ->
  operators_cover ISPs q quad.
Proof.
  intros E Hq. destruct (define_ISPs_per_location_members _ _ E) as [_ Hmem].
  unfold operators_cover. apply Forall_forall. intros i Hi%list_elem_of_In.
  apply (Hmem q quad Hq) in Hi as (isp & quads & Hisp & Hquads & Hin).
  exists isp. split; [exact Hisp |].
  unfold quads_of_firm in Hquads. unfold covers, serves, quad_in.
  destruct (wifi_offered isp), (wifi_locations_offered isp) as [wl |];
    simpl in Hquads; try discriminate;
    destruct (mobile_offered isp), (mobile_locations_offered isp) as [ml |];
    simpl in Hquads; try discriminate;
    injection Hquads as <-;
    try (rewrite in_app_iff in Hin);
    eexists; eexists; (split; [reflexivity | split; [reflexivity |]]);
    try (apply orb_true_iff);
    repeat match goal with
           | H : In q [] |- _ => destruct H
           | H : _ \/ _ |- _ => destruct H
           | H : In q ?l |- _ =>
               assert (existsb (Nat.eqb q) l = true)
                 by (apply existsb_exists; exists q; split;
                     [exact H | apply Nat.eqb_refl]);
               clear H
           end;
    rewrite ?app_nil_r in *; auto.
Qed.

Lemma quadrant_index_is_covered_witness :
  operators_cover two_firms 3 [0]%nat.
Proof.
  apply (quadrant_index_is_covered two_firms [[0; 1]; [0; 1]; [0; 1]; [0]]%nat);
    reflexivity.
Defined.

(* ------------------------------------------------------------------ *)
(** ** Initial profits                                                   *)
(* ------------------------------------------------------------------ *)



(** X8 (get_initial_profits).  Shares that add up to zero (all zero, or
    cancelling) make the initialisation fail with a division by zero; an
    empty share table gives no profits and no error. *)
Theorem initial_profits_of_null_shares (avg_shares : list Q) :
  (Qsum avg_shares == 0)%Q ->
  get_initial_profits avg_shares
  = match avg_shares with [] => Ok [] | _ => Raise ZeroDivisionError end.
Proof.
  intros Htotal. unfold get_initial_profits. destruct avg_shares as [| share rest].
  - reflexivity.
  - cbn [res_map]. unfold pydiv.
    now rewrite (proj2 (Qeq_bool_iff _ _) Htotal).
Qed.

Lemma initial_profits_of_null_shares_witness :
  get_initial_profits [0; 0]%Q = Raise ZeroDivisionError.
Proof.
  apply (initial_profits_of_null_shares [0; 0]%Q). reflexivity.
Defined.


(* ------------------------------------------------------------------ *)
(** ** Availability of a plan and footprint of its firm                  *)
(* ------------------------------------------------------------------ *)

(** X9 (plan_available_in_my_area, translate_footprints_into_quads).  For
    a plan on the market whose footprint is one of the three known strings,
    a wifi plan, or a mobile plan that is regional or remote, is available
    in exactly the quadrants that the plan contributes to the footprint of
    its firm. *)
Theorem availability_agrees_with_footprint (pl : plan) (quad : nat) :
  plan_isp pl <> PLAN_GONE ->
  (plan_service pl = wifi /\ known_footprint (plan_footprint pl))
  \/ (plan_service pl = mobile
      /\ (plan_footprint pl = "regional"%string \/ plan_footprint pl = "remote"%string)) ->
  (quad < 4)%nat ->
  plan_available_in_my_area pl quad = true
  <-> In quad (translate_footprints_into_quads [pl]
                 (service_eqb (plan_service pl) mobile)).
Proof.
  intros Hlive Hkind Hquad. unfold plan_available_in_my_area.
  destruct (String.eqb_spec (plan_isp pl) PLAN_GONE) as [E | _]; [contradiction |].
  cbv zeta.
  destruct Hkind as [[Hs Hf] | [Hs Hf]]; rewrite Hs; cbn [service_eqb].
  - rewrite translate_wifi_footprint. unfold wifi_footprint, is_wifi_plan.
    cbn [existsb]. rewrite Hs. cbn [service_eqb andb orb].
    destruct Hf as [-> | [-> | ->]];
      destruct quad as [| [| [| [| quad]]]]; try lia; cbn; intuition congruence.
  - rewrite translate_mobile_footprint. unfold mobile_footprint, is_mobile_plan.
    cbn [existsb List.filter]. rewrite Hs. cbn [service_eqb andb orb last].
    destruct Hf as [-> | ->];
      destruct quad as [| [| [| [| quad]]]]; try lia; cbn; intuition congruence.
Qed.

Lemma availability_agrees_with_footprint_witness :
  plan_available_in_my_area regional_wifi_60 2 = true
  <-> In 2%nat (translate_footprints_into_quads [regional_wifi_60]
                  (service_eqb (plan_service regional_wifi_60) mobile)).
Proof.
  apply (availability_agrees_with_footprint regional_wifi_60 2).
  - discriminate.
  - left. split; [reflexivity | right; left; reflexivity].
  - lia.
Defined.

(** X10 (plan_available_in_my_area, translate_footprints_into_quads).  A
    mobile plan that is neither remote nor regional (an urban one) is
    available in no quadrant, although it puts its firm into the index of
    quadrant 0. *)
Theorem urban_mobile_plan_is_offered_nowhere (pl : plan) (quad : nat) :
  plan_service pl = mobile ->
  (plan_footprint pl =? "remote")%string = false ->
  (plan_footprint pl =? "regional")%string = false ->
  plan_available_in_my_area pl quad = false
  /\ translate_footprints_into_quads [pl] true = [0]%nat.
Proof.
  intros Hs Hr Hg. split.
  - unfold plan_available_in_my_area. rewrite Hs, Hr, Hg. cbn.
    now destruct (plan_isp pl =? PLAN_GONE)%string.
  - rewrite translate_mobile_footprint. unfold mobile_footprint, is_mobile_plan.
    cbn [existsb List.filter]. rewrite Hs, Hr. cbn. now rewrite Hg.
Qed.

Lemma urban_mobile_plan_is_offered_nowhere_witness :
  plan_available_in_my_area urban_mobile_30 0 = false
  /\ translate_footprints_into_quads [urban_mobile_30] true = [0]%nat.
Proof.
  apply (urban_mobile_plan_is_offered_nowhere urban_mobile_30 0); reflexivity.
Defined.

(* ------------------------------------------------------------------ *)
(** ** Rounding to thousandths                                           *)
(* ------------------------------------------------------------------ *)



(** On [round_up_to_nearest_001].  A positive number below half a
    thousandth is rounded to 0: the function sets no minimum of 0.001. *)
Theorem round_up_to_nearest_001_of_small (number : Q) :
  (0 < number)%Q -> (number < 0.0005)%Q ->
  (round_up_to_nearest_001 number == 0)%Q.
Proof.
  intros Hpos Hsmall. unfold round_up_to_nearest_001.
  rewrite (proj2 (Qgtb_true _ _) Hpos).
  set (x := ((number + 0.0005) / 0.001)%Q).
  assert (Hx : (x == 1000 * number + 0.5)%Q) by (unfold x; field).
  assert (E : Qfloor x = 0%Z).
  { pose proof (Qfloor_le x) as Hle. pose proof (Qlt_floor x) as Hlt.
    rewrite inject_Z_plus in Hlt. change (inject_Z 1) with 1%Q in Hlt.
    assert (H1 : (inject_Z (Qfloor x) < inject_Z 1)%Q)
      by (change (inject_Z 1) with 1%Q; lra).
    assert (H2 : (inject_Z (-1) < inject_Z (Qfloor x))%Q)
      by (change (inject_Z (-1)) with (-1)%Q; lra).
    rewrite <- Zlt_Qlt in H1, H2. lia. }
  rewrite E. reflexivity.
Qed.

Lemma round_up_to_nearest_001_of_small_witness :
  (round_up_to_nearest_001 0.0004 == 0)%Q.
Proof.
  apply (round_up_to_nearest_001_of_small 0.0004); reflexivity.
Defined.

(* ------------------------------------------------------------------ *)
(** ** Wholesale costs and price floors                                  *)
(* ------------------------------------------------------------------ *)

Ltac tiers :=
  repeat match goal with
         | |- context [Qle_bool ?a ?b] =>
             let E := fresh "E" in
             destruct (Qle_bool a b) eqn:E;
             [apply Qle_bool_iff in E | apply Qle_bool_false in E]
         | H : context [Qle_bool ?a ?b] |- _ =>
             let E := fresh "E" in
             destruct (Qle_bool a b) eqn:E;
             [apply Qle_bool_iff in E | apply Qle_bool_false in E]
         end.

(** On [wifi_wholesale_cost].  The wholesale cost is defined for the
    speeds up to 1000 Mbps and for no other: above the last tier the
    function returns nothing. *)
Theorem wifi_wholesale_cost_domain (speed : Q) :
  wifi_wholesale_cost speed = None <-> (1000 < speed)%Q.
Proof.
  unfold wifi_wholesale_cost. cbn [combine List.find fst snd].
  split.
  - intros H. tiers; try discriminate. exact E4.
  - intros H. tiers; try reflexivity; exfalso; lra.
Qed.

(** X12 (wifi_wholesale_cost).  A faster speed never costs less. *)
Theorem wifi_wholesale_cost_monotone (slow fast cost_slow cost_fast : Q) :
  (slow <= fast)%Q ->
  wifi_wholesale_cost slow = Some cost_slow ->
  wifi_wholesale_cost fast = Some cost_fast ->
  (cost_slow <= cost_fast)%Q.
Proof.
  unfold wifi_wholesale_cost. cbn [combine List.find fst snd].
  intros Hle Hs Hf.
  tiers; try discriminate; injection Hs as <-; injection Hf as <-; lra.
Qed.

Lemma wifi_wholesale_cost_monotone_witness : (26 <= 55)%Q.
Proof.
  apply (wifi_wholesale_cost_monotone 20 100 26 55); [lra | reflexivity ..].
Defined.


Lemma min_price_fold (plans : list plan) (relevant : plan -> bool) (capacity start : Q) :
  let step := fun lowest pl =>
                if relevant pl then
                  if Qltb (plan_capacity pl) capacity then
                    if Qgtb (plan_price pl) lowest then (plan_price pl + 1)%Q else lowest
                  else lowest
                else lowest in
  (start <= fold_left step plans start)%Q
  /\ forall pl, In pl plans -> relevant pl = true ->
                (plan_capacity pl < capacity)%Q ->
                (plan_price pl <= fold_left step plans start)%Q.
Proof.
  intros step. revert start. induction plans as [| p rest IH]; intros start.
  - simpl. split; [lra | contradiction].
  - cbn [fold_left]. destruct (IH (step start p)) as [Hmono Hall].
    assert (Hstep : (start <= step start p)%Q).
    { unfold step. destruct (relevant p); [| lra].
      destruct (Qltb (plan_capacity p) capacity); [| lra].
      destruct (Qgtb (plan_price p) start) eqn:E; [| lra].
      apply Qgtb_true in E. lra. }
    split; [lra |].
    intros pl [<- | Hin] Hrel Hcap; [| now apply Hall].
    assert (Hp : (plan_price p <= step start p)%Q).
    { unfold step. rewrite Hrel, (proj2 (Qltb_true _ _) Hcap).
      destruct (Qgtb (plan_price p) start) eqn:E;
        [lra | apply Qgtb_false in E; lra]. }
    lra.
Qed.

(** X13 (min_price_allowed).  The price floor of a plan is never below the
    price of a plan of the same roster that is on the market, of the same
    service (and, for wifi, of the same footprint) and of a smaller
    capacity. *)
Theorem price_floor_dominates_lower_plans (plans : list plan) (target pl : plan)
    (floor : Q) :
  plan_service target = wifi \/ plan_service target = mobile ->
  min_price_allowed plans target = Ok floor ->
  In pl plans ->
  plan_isp pl <> PLAN_GONE ->
  plan_service pl = plan_service target ->
  (plan_service target = wifi -> plan_footprint pl = plan_footprint target) ->
  (plan_capacity pl < plan_capacity target)%Q ->
  (plan_price pl <= floor)%Q.
Proof.
  intros Hkind Hfloor Hin Hlive Hservice Hfoot Hcap.
  assert (Hname : (plan_isp pl =? PLAN_GONE)%string = false)
    by now apply String.eqb_neq.
  unfold min_price_allowed in Hfloor. destruct Hkind as [Hs | Hs];
    rewrite Hs in Hfloor, Hservice; cbn [service_eqb] in Hfloor.
  - cbv zeta in Hfloor.
    destruct (List.find _ _) as [t |]; [| discriminate].
    unfold min_price_based_on_lowers in Hfloor.
    match type of Hfloor with
    | context [fold_left ?step plans 0%Q] =>
        pose proof (proj2 (min_price_fold plans
                             (fun pl => negb (plan_isp pl =? PLAN_GONE)%string
                                        && service_eqb (plan_service pl) wifi
                                        && (plan_footprint pl
                                            =? plan_footprint target)%string)
                             (plan_capacity target) 0) pl Hin) as Hpl;
        cbv beta zeta in Hpl
    end.
    rewrite Hname, Hservice, (Hfoot Hs), String.eqb_refl in Hpl.
    specialize (Hpl eq_refl Hcap).
    destruct (Qgeb _ _) eqn:E; injection Hfloor as <-; [| exact Hpl].
    apply Qgeb_true in E. lra.
  - injection Hfloor as <-. unfold min_price_based_on_lowers.
    pose proof (proj2 (min_price_fold plans
                         (fun pl => negb (plan_isp pl =? PLAN_GONE)%string
                                    && service_eqb (plan_service pl) mobile)
                         (plan_capacity target) 0) pl Hin) as Hpl.
    cbv beta zeta in Hpl. rewrite Hname, Hservice in Hpl. exact (Hpl eq_refl Hcap).
Qed.

Lemma price_floor_dominates_lower_plans_witness :
  min_price_allowed wifi_roster urban_wifi_80 = Ok 51%Q
  /\ (plan_price slow_wifi_14 <= 51)%Q.
Proof.
  split; [reflexivity |].
  apply (price_floor_dominates_lower_plans wifi_roster urban_wifi_80 slow_wifi_14 51).
  - now left.
  - reflexivity.
  - now left.
  - discriminate.
  - reflexivity.
  - reflexivity.
  - reflexivity.
Defined.

(** X14 (min_price_allowed).  For a wifi plan faster than 1000 Mbps the
    price floor is undefined: the variable [tier] is never assigned. *)
Theorem price_floor_undefined_above_last_tier (plans : list plan) (target : plan) :
  plan_service target = wifi ->
  (1000 < plan_capacity target)%Q ->
  min_price_allowed plans target = Raise UnboundLocalError.
Proof.
  intros Hs Hfast. unfold min_price_allowed. rewrite Hs. cbn [service_eqb].
  cbv zeta. cbn [combine List.find fst snd]. unfold Qgeb.
  tiers; try reflexivity; exfalso; lra.
Qed.

Lemma price_floor_undefined_above_last_tier_witness :
  min_price_allowed [] (wifi_of_speed 2000) = Raise UnboundLocalError.
Proof.
  apply (price_floor_undefined_above_last_tier [] (wifi_of_speed 2000));
    reflexivity.
Defined.

(** X15 (min_price_allowed, wifi_wholesale_cost).  For a wifi plan of at
    most 12 Mbps or of more than 15 Mbps, the price floor is at least the
    wholesale cost of the plan plus 1. *)
Theorem price_floor_covers_wholesale_cost (plans : list plan) (target : plan)
    (floor cost : Q) :
  plan_service target = wifi ->
  (plan_capacity target <= 12)%Q \/ (15 < plan_capacity target)%Q ->
  min_price_allowed plans target = Ok floor ->
  wifi_wholesale_cost (plan_capacity target) = Some cost ->
  (cost + 1 <= floor)%Q.
Proof.
  intros Hs Hspeed Hfloor Hcost. unfold min_price_allowed in Hfloor.
  rewrite Hs in Hfloor. cbn [service_eqb] in Hfloor. cbv zeta in Hfloor.
  unfold wifi_wholesale_cost in Hcost.
  cbn [combine List.find fst snd] in Hfloor, Hcost. unfold Qgeb at 1 2 3 4 5 6 in Hfloor.
  set (lowers := min_price_based_on_lowers _ _ _) in Hfloor. clearbody lowers.
  tiers; try discriminate; injection Hcost as <-;
    cbn [snd] in Hfloor;
    (destruct (Qgeb _ lowers) eqn:G;
     [apply Qgeb_true in G | unfold Qgeb in G; apply Qle_bool_false in G]);
    injection Hfloor as <-; destruct Hspeed; lra.
Qed.

Lemma price_floor_covers_wholesale_cost_witness : (50 + 1 <= 51)%Q.
Proof.
  apply (price_floor_covers_wholesale_cost wifi_roster urban_wifi_80 51 50).
  - reflexivity.
  - right. cbn. lra.
  - reflexivity.
  - reflexivity.
Defined.

(** X16 (min_price_allowed, wifi_wholesale_cost).  The two tier tables
    differ in their first entry (15 against 12 Mbps): for a wifi plan of
    more than 12 and at most 15 Mbps with no cheaper sibling, the price
    floor is 13 while the wholesale cost of the plan is 26. *)
Theorem price_floor_below_wholesale_cost (target : plan) :
  plan_service target = wifi ->
  (12 < plan_capacity target)%Q ->
  (plan_capacity target <= 15)%Q ->
  min_price_allowed [] target = Ok 13%Q
  /\ wifi_wholesale_cost (plan_capacity target) = Some 26%Q.
Proof.
  intros Hs Hlow Hhigh. unfold min_price_allowed, wifi_wholesale_cost.
  rewrite Hs. cbn [service_eqb]. cbv zeta.
  cbn [combine List.find fst snd]. unfold Qgeb at 1.
  rewrite (proj2 (Qle_bool_iff _ _) Hhigh).
  rewrite (proj2 (Qle_bool_false _ _) Hlow).
  assert (E : Qle_bool (plan_capacity target) 25 = true)
    by (apply Qle_bool_iff; lra).
  rewrite E. split; reflexivity.
Qed.

Lemma price_floor_below_wholesale_cost_witness :
  min_price_allowed [] slow_wifi_14 = Ok 13%Q
  /\ wifi_wholesale_cost (plan_capacity slow_wifi_14) = Some 26%Q.
Proof.
  apply (price_floor_below_wholesale_cost slow_wifi_14);
    [reflexivity | cbn; lra | cbn; lra].
Defined.


(* ------------------------------------------------------------------ *)
(** ** When [ensure_adds_to_1] does return                               *)
(* ------------------------------------------------------------------ *)



Section Renormalisation.
Context `{RandomModule}.


End Renormalisation.

Lemma constant_random_randbelow_in_range (u : Q) :
  randbelow_in_range (constant_random u 0).
Proof. intros n g Hn. exact Hn. Qed.



(* ------------------------------------------------------------------ *)
(** ** Incomes                                                           *)
(* ------------------------------------------------------------------ *)

Section Incomes.
Context `{RandomModule}.

Lemma random_uniform_range (a b : Q) (d : draws) :
  random_in_unit_interval _ -> (a < b)%Q ->
  exists income d',
    random_uniform a b d = Ok (income, d')
    /\ (a <= income)%Q /\ (income < b)%Q /\ add_to_seed d' = add_to_seed d.
Proof.
  intros Hgen Hab. unfold random_uniform, st_bind, random_random, st_ret.
  specialize (Hgen (gen d)). destruct (rng_random (gen d)) as [u g].
  simpl in Hgen. destruct Hgen as [H0 H1].
  eexists. eexists. split; [reflexivity |]. cbn [add_to_seed].
  split; [| split; [| reflexivity]]; nra.
Qed.

(** X19 (initialise_income).  With a generator that draws from [0, 1), the
    income of a household is always found, lies between 381 and 15000 (the
    latter excluded), and two seeds are consumed. *)
Theorem initialise_income_range (location : nat * nat) (Seed : Z) (d : draws) :
  random_in_unit_interval _ ->
  exists income d',
    initialise_income location Seed d = Ok (income, d')
    /\ (381 <= income)%Q /\ (income < 15000)%Q
    /\ add_to_seed d' = (add_to_seed d + 46)%Z.
Proof.
  intros Hgen. unfold initialise_income. cbv zeta.
  match goal with
  | |- context [random_choices 4 ?p] => set (probabilities := p)
  end.
  assert (Hpr : probabilities <> [] /\ length probabilities = 4%nat
                /\ Forall (fun x => (0 < x)%Q) probabilities).
  { unfold probabilities.
    destruct (_ && _); [| destruct (_ && _)];
      (split; [discriminate | split; [reflexivity |]]);
      repeat constructor. }
  destruct Hpr as (Hne & Hlen & Hpos).
  unfold st_bind at 1. unfold reseed at 1. cbv beta iota.
  destruct (random_choices_in_range 4 probabilities
              (mkDraws (rng_seed (Seed + add_to_seed d)) (add_to_seed d + 23))
              Hne Hlen Hpos) as (k & d1 & Hk & Hrange & Hseed).
  rewrite (st_bind_eq _ _ _ _ _ Hk). cbn [add_to_seed] in Hseed.
  unfold st_bind at 1. unfold reseed at 1. cbv beta iota.
  set (d2 := mkDraws _ _).
  assert (Hd2 : add_to_seed d2 = (add_to_seed d + 46)%Z)
    by (unfold d2; cbn [add_to_seed]; lia).
  destruct k as [| [| [| [| k]]]]; [| | | | lia].
  - destruct (random_uniform_range 381 2594 d2 Hgen) as (i & d' & E & ? & ? & Hs);
      [lra |]. exists i, d'. rewrite E. repeat split; try lra. congruence.
  - destruct (random_uniform_range 2595 3838 d2 Hgen) as (i & d' & E & ? & ? & Hs);
      [lra |]. exists i, d'. rewrite E. repeat split; try lra. congruence.
  - destruct (random_uniform_range 3839 5602 d2 Hgen) as (i & d' & E & ? & ? & Hs);
      [lra |]. exists i, d'. rewrite E. repeat split; try lra. congruence.
  - destruct (random_uniform_range 5603 15000 d2 Hgen) as (i & d' & E & ? & ? & Hs);
      [lra |]. exists i, d'. rewrite E. repeat split; try lra. congruence.
Qed.
End Incomes.

Lemma initialise_income_range_witness :
  exists income d',
    @initialise_income (constant_random 0.3 0) (10, 20)%nat 7
      (@mkDraws (constant_random 0.3 0) tt 0) = Ok (income, d')
    /\ (381 <= income)%Q /\ (income < 15000)%Q
    /\ add_to_seed d' = (add_to_seed (@mkDraws (constant_random 0.3 0) tt 0) + 46)%Z.
Proof.
  apply (@initialise_income_range (constant_random 0.3 0)).
  intros g. split; [discriminate | reflexivity].
Defined.


(* ------------------------------------------------------------------ *)
(** ** What the monthly update and the bankruptcy check keep             *)
(* ------------------------------------------------------------------ *)

Lemma book_profits_lookup {P} (ISPs ISPs' : list (ISP P)) (profits : list Q) :
  book_profits ISPs profits = Ok ISPs' ->
  length ISPs' = length ISPs
  /\ forall i isp, ISPs !! i = Some isp ->
       exists p, profits !! i = Some p /\ ISPs' !! i = Some (set_profit isp p).
Proof.
  revert ISPs' profits. induction ISPs as [| isp0 rest IH]; intros ISPs' profits; simpl.
  - intros [= <-]. split; [reflexivity |]. intros i isp Hi. now rewrite lookup_nil in Hi.
  - destruct profits as [| p profits']; [discriminate |].
    intros E. apply res_bind_ok in E as (rest' & Hrest & E). injection E as <-.
    destruct (IH _ _ Hrest) as [Hlen Hall]. split; [simpl; now rewrite Hlen |].
    intros [| i] isp Hi; simpl in Hi.
    + injection Hi as <-. now exists p.
    + destruct (Hall i isp Hi) as (q & Hq & Hi'). now exists q.
Qed.

(** X20 (update_ISP_profits_and_moneypool).  The monthly update keeps the
    firms in place and changes two fields of each: the profit becomes the
    firm's entry of the returned list of profits, and the savings grow by
    5% of that profit (they shrink when it is a loss); name, roster,
    services, footprints and experiments are as before. *)
Theorem monthly_update_books_profits {P} (view : P -> plan) (ISPs ISPs' : list (ISP P))
    (grid : list (person P))
    (LargeMarkup SmallMarkup ResellerOperatingFee WholesalerOperatingFee
     MarketingBudget : Q) (profits : list Q) (nbn_co_revenue : Q) :
  update_ISP_profits_and_moneypool view ISPs grid LargeMarkup SmallMarkup
    ResellerOperatingFee WholesalerOperatingFee MarketingBudget
  = Ok (ISPs', profits, nbn_co_revenue) ->
  length ISPs' = length ISPs
  /\ forall i isp, ISPs !! i = Some isp ->
       exists p, profits !! i = Some p
                 /\ ISPs' !! i
                    = Some (mkISP (isp_name isp) (plans_offered isp) (mobile_offered isp)
                                  (mobile_locations_offered isp) (wifi_offered isp)
                                  (wifi_locations_offered isp) (price_exp isp)
                                  (tech_exp isp) p (moneypool isp + 0.05 * p)).
Proof.
  unfold update_ISP_profits_and_moneypool. cbv zeta. intros E.
  apply res_bind_ok in E as (st & _ & E).
  apply res_bind_ok in E as (profits' & _ & E).
  apply res_bind_ok in E as (booked & Hbook & E). injection E as <- <- <-.
  exact (book_profits_lookup _ _ _ Hbook).
Qed.

Lemma monthly_update_books_profits_witness :
  length [mkISP "Telstra" [] true (Some [0; 1; 2; 3]%nat) false None None None
                50.0 1002.500 : ISP nat] = length [loss_maker]
  /\ forall i isp, [loss_maker] !! i = Some isp ->
       exists p, [50.0%Q] !! i = Some p
                 /\ [mkISP "Telstra" [] true (Some [0; 1; 2; 3]%nat) false None None None
                           50.0 1002.500 : ISP nat] !! i
                    = Some (mkISP (isp_name isp) (plans_offered isp) (mobile_offered isp)
                                  (mobile_locations_offered isp) (wifi_offered isp)
                                  (wifi_locations_offered isp) (price_exp isp)
                                  (tech_exp isp) p (moneypool isp + 0.05 * p)).
Proof.
  apply (monthly_update_books_profits (deref []) [loss_maker] _ [] 300 120 0 0 0.1
           [50.0%Q] 0).
  vm_compute. reflexivity.
Defined.

Lemma remove_operator_other (firm other : nat) (operators : list nat) :
  other <> firm -> (In other (remove_operator firm operators) <-> In other operators).
Proof.
  intros Hne. induction operators as [| o rest IH]; simpl; [tauto |].
  destruct (Nat.eqb_spec o firm) as [-> | Ho]; simpl; [| rewrite IH; tauto].
  split; [tauto | intros [E | H]; [congruence | exact H]].
Qed.

Lemma bankruptcy_loop_keeps_solvent {P} (ISPs : list (ISP P)) (first : nat)
    (operator_locations : list (list nat)) (firm : nat) :
  (forall k isp, ISPs !! k = Some isp -> firm = (first + k)%nat ->
                 (0 < moneypool isp)%Q) ->
  Forall2 (fun after before => In firm after <-> In firm before)
          (bankruptcy_loop ISPs first operator_locations) operator_locations.
Proof.
  revert first operator_locations.
  induction ISPs as [| isp rest IH]; intros first ops Hsolvent; simpl.
  - apply Forall2_same_length_lookup_2; [reflexivity |].
    intros i x y Hx Hy. rewrite Hx in Hy. now injection Hy as <-.
  - assert (Hrest : forall k isp', rest !! k = Some isp' -> firm = (S first + k)%nat ->
                                   (0 < moneypool isp')%Q).
    { intros k isp' Hk ->. apply (Hsolvent (S k) isp' Hk). lia. }
    specialize (IH (S first)
      (if Qle_bool (moneypool isp) 0 then map (remove_operator first) ops else ops)
      Hrest).
    destruct (Qle_bool (moneypool isp) 0) eqn:E; [| exact IH].
    apply Qle_bool_iff in E.
    assert (Hne : firm <> first).
    { intros ->. specialize (Hsolvent 0%nat isp eq_refl (eq_sym (Nat.add_0_r _))). lra. }
    apply Forall2_fmap_r in IH.
    eapply Forall2_impl; [exact IH |].
    intros after before Hiff. simpl in Hiff.
    now rewrite Hiff, remove_operator_other.
Qed.

(** X21 (check_for_bankruptcy).  The check leaves a firm with positive
    savings (and any number that names no firm) wherever the index listed
    it: quadrant by quadrant, it is listed after the check exactly if it
    was listed before. *)
Theorem bankruptcy_check_keeps_solvent_firms {P} (ISPs : list (ISP P))
    (operator_locations : list (list nat)) (firm : nat) :
  (forall isp, ISPs !! firm = Some isp -> (0 < moneypool isp)%Q) ->
  Forall2 (fun after before => In firm after <-> In firm before)
          (check_for_bankruptcy ISPs operator_locations) operator_locations.
Proof.
  intros Hsolvent. unfold check_for_bankruptcy.
  apply bankruptcy_loop_keeps_solvent. intros k isp Hk ->. now apply Hsolvent.
Qed.

Lemma bankruptcy_check_keeps_solvent_firms_witness :
  Forall2 (fun after before => In 0%nat after <-> In 0%nat before)
          (check_for_bankruptcy firm_and_dead_firm [[0; 1]; [0; 1]; [0; 1]; [0]]%nat)
          [[0; 1]; [0; 1]; [0; 1]; [0]]%nat.
Proof.
  apply (bankruptcy_check_keeps_solvent_firms firm_and_dead_firm).
  intros isp [= <-]. reflexivity.
Defined.

(** X22 (check_for_bankruptcy, pick_operators).  After the check on an
    index without duplicates, every firm still listed has positive savings,
    so that with a positive marketing budget its weight in the
    consideration sampling is positive whether it made a profit or not. *)
Theorem listed_firms_have_positive_weight {P} (ISPs : list (ISP P))
    (operator_locations : list (list nat)) (MarketingBudget : Q)
    (q : nat) (quad : list nat) (firm : nat) (isp : ISP P) :
  no_duplicate_operators operator_locations ->
  (0 < MarketingBudget)%Q ->
  check_for_bankruptcy ISPs operator_locations !! q = Some quad ->
  In firm quad ->
  ISPs !! firm = Some isp ->
  (0 < moneypool isp)%Q /\ (0 < marketing_weight MarketingBudget isp)%Q.
Proof.
  intros Hnd Hbudget Hq Hin Hisp.
  assert (Hsolvent : (0 < moneypool isp)%Q).
  { destruct (Qlt_le_dec 0 (moneypool isp)) as [Hpos | Hdead]; [exact Hpos |].
    exfalso.
    pose proof (bankruptcy_loop_removes ISPs 0 operator_locations firm isp
                  Hnd Hisp Hdead) as Hout.
    unfold operates_nowhere in Hout. rewrite Forall_forall in Hout.
    apply (Hout quad); [eapply list_elem_of_lookup_2; exact Hq | exact Hin]. }
  split; [exact Hsolvent |]. unfold marketing_weight.
  destruct (Qle_bool (profit isp) 0) eqn:E.
  - now apply Qmult_lt_0_compat.
  - apply Qle_bool_false in E. now apply Qmult_lt_0_compat.
Qed.

Lemma listed_firms_have_positive_weight_witness :
  (0 < moneypool (mkISP "Telstra" [0; 1]%nat true (Some [0; 1; 2; 3]%nat) true
                        (Some [0]%nat) None None 1 100 : ISP nat))%Q
  /\ (0 < marketing_weight 0.1
            (mkISP "Telstra" [0; 1]%nat true (Some [0; 1; 2; 3]%nat) true
                   (Some [0]%nat) None None 1 100 : ISP nat))%Q.
Proof.
  apply (listed_firms_have_positive_weight firm_and_dead_firm
           [[0; 1]; [0; 1]; [0; 1]; [0]]%nat 0.1 1 [0]%nat 0).
  - repeat constructor; rewrite ?list_elem_of_In; simpl; intuition lia.
  - reflexivity.
  - reflexivity.
  - now left.
  - reflexivity.
Defined.

(** X23 (update_ISP_profits_and_moneypool, check_for_bankruptcy,
    pick_operators).  What [pick_operators] relies on survives the firms'
    part of a month: if every entry of a quadrant names a firm that serves
    it, the same holds of the quadrant after the update of the profits and
    the bankruptcy check. *)
Theorem monthly_update_keeps_the_index_covered {P} (view : P -> plan)
    (ISPs ISPs' : list (ISP P)) (grid : list (person P))
    (LargeMarkup SmallMarkup ResellerOperatingFee WholesalerOperatingFee
     MarketingBudget : Q) (profits : list Q) (nbn_co_revenue : Q)
    (operator_locations : list (list nat)) (q : nat) (before after : list nat) :
  update_ISP_profits_and_moneypool view ISPs grid LargeMarkup SmallMarkup
    ResellerOperatingFee WholesalerOperatingFee MarketingBudget
  = Ok (ISPs', profits, nbn_co_revenue) ->
  operator_locations !! q = Some before ->
  check_for_bankruptcy ISPs' operator_locations !! q = Some after ->
  operators_cover ISPs q before ->
  operators_cover ISPs' q after.
Proof.
  intros Hupd Hbefore Hafter Hcover.
  unfold update_ISP_profits_and_moneypool in Hupd. cbv zeta in Hupd.
  apply res_bind_ok in Hupd as (st & _ & Hupd).
  apply res_bind_ok in Hupd as (profits' & _ & Hupd).
  apply res_bind_ok in Hupd as (booked & Hbook & Hupd). injection Hupd as <- <- <-.
  destruct (book_profits_lookup _ _ _ Hbook) as [_ Hall].
  pose proof (bankruptcy_loop_shrinks booked 0 operator_locations) as Hsub.
  destruct (Forall2_lookup_l _ _ _ _ _ Hsub Hafter) as (before' & Hb & Hin).
  rewrite Hbefore in Hb. injection Hb as <-.
  unfold operators_cover in *. rewrite Forall_forall in Hcover.
  apply Forall_forall. intros i Hi%list_elem_of_In.
  destruct (Hcover i) as (isp & Hisp & Hserves);
    [now apply list_elem_of_In, Hin |].
  destruct (Hall i isp Hisp) as (p & _ & Hisp').
  exists (set_profit isp p). split; [exact Hisp' | exact Hserves].
Qed.

Lemma monthly_update_keeps_the_index_covered_witness :
  operators_cover
    [mkISP "Telstra" [] true (Some [0; 1; 2; 3]%nat) false None None None
           50.0 1002.500 : ISP nat] 3 [0]%nat.
Proof.
  apply (monthly_update_keeps_the_index_covered (deref []) [loss_maker] _ []
           300 120 0 0 0.1 [50.0%Q] 0 [[0]; [0]; [0]; [0]]%nat 3 [0]%nat [0]%nat).
  - vm_compute. reflexivity.
  - reflexivity.
  - reflexivity.
  - constructor; [| constructor]. exists loss_maker. split; [reflexivity |].
    exists true, false. repeat split.
Defined.


(* ------------------------------------------------------------------ *)
(** ** Plan experiments: the searches                                    *)
(* ------------------------------------------------------------------ *)

(** The state of the replacement search after the candidates [processed]. *)
Lemma replacement_loop_invariant (plans : list plan) (exp_price : Q)
    (rest processed : list nat) (best_price : Q) (current_best_index : option nat) :
  (-1 <= exp_price)%Q ->
  Forall (fun r => (-1 < plan_price (nth r plans no_plan))%Q) rest ->
  (processed = [] /\ best_price = (-1)%Q /\ current_best_index = None)
  \/ (exists r, current_best_index = Some r /\ In r processed
                /\ best_price = plan_price (nth r plans no_plan)
                /\ (forall r', In r' processed ->
                               (exp_price < plan_price (nth r' plans no_plan))%Q ->
                               (exp_price < best_price)%Q
                               /\ (best_price <= plan_price (nth r' plans no_plan))%Q)
                /\ ((best_price <= exp_price)%Q ->
                    forall r', In r' processed ->
                               (plan_price (nth r' plans no_plan) <= best_price)%Q)) ->
  (processed ++ rest = []
   /\ replacement_loop plans rest exp_price best_price current_best_index = None)
  \/ (exists r,
        replacement_loop plans rest exp_price best_price current_best_index = Some r
        /\ In r (processed ++ rest)
        /\ (forall r', In r' (processed ++ rest) ->
                       (exp_price < plan_price (nth r' plans no_plan))%Q ->
                       (exp_price < plan_price (nth r plans no_plan))%Q
                       /\ (plan_price (nth r plans no_plan)
                           <= plan_price (nth r' plans no_plan))%Q)
        /\ ((plan_price (nth r plans no_plan) <= exp_price)%Q ->
            forall r', In r' (processed ++ rest) ->
                       (plan_price (nth r' plans no_plan)
                        <= plan_price (nth r plans no_plan))%Q)).
Proof.
  intros Hexp Hrest. revert processed best_price current_best_index.
  induction Hrest as [| c rest Hc Hrest IH]; intros processed b idx Hinv.
  - rewrite app_nil_r. cbn [replacement_loop].
    destruct Hinv as [(-> & -> & ->) | (r & -> & Hin & -> & Hmin & Hmax)].
    + now left.
    + right. exists r. repeat split; auto; apply (Hmin r'); auto.
  - cbn [replacement_loop]. cbv zeta.
    replace (processed ++ c :: rest) with ((processed ++ [c]) ++ rest)
      by (now rewrite <- app_assoc).
    set (new_price := plan_price (nth c plans no_plan)) in *.
    destruct (Qgtb b exp_price) eqn:Eb;
      [apply Qgtb_true in Eb | apply Qgtb_false in Eb].
    + (* the best so far is dearer than the removed plan *)
      destruct Hinv as [(-> & -> & ->) | (r & -> & Hin & -> & Hmin & Hmax)]; [(unfold new_price in *; lra) |].
      destruct (Qltb new_price _ && Qgtb new_price exp_price) eqn:E.
      * apply andb_true_iff in E as [E1 E2].
        apply Qltb_true in E1. apply Qgtb_true in E2.
        apply IH. right. exists c. split; [reflexivity |].
        split; [apply in_app_iff; right; now left |].
        split; [reflexivity |]. split.
        -- intros r' [Hr' | [<- | []]]%in_app_iff Hdear;
             [destruct (Hmin r' Hr' Hdear); split; (unfold new_price in *; lra)
             | split; (unfold new_price in *; lra)].
        -- intros; (unfold new_price in *; lra).
      * apply IH. right. exists r. split; [reflexivity |].
        split; [apply in_app_iff; now left |].
        split; [reflexivity |]. split.
        -- intros r' [Hr' | [<- | []]]%in_app_iff Hdear; [now apply Hmin |].
           split; [exact Eb |]. unfold new_price in *.
           apply andb_false_iff in E as [E | E];
             [apply Qltb_false in E; (unfold new_price in *; lra) | apply Qgtb_false in E; (unfold new_price in *; lra)].
        -- intros; (unfold new_price in *; lra).
    + (* nothing dearer than the removed plan so far *)
      destruct (Qgtb new_price b) eqn:E;
        [apply Qgtb_true in E | apply Qgtb_false in E].
      * apply IH. right. exists c. split; [reflexivity |].
        split; [apply in_app_iff; right; now left |].
        split; [reflexivity |]. split.
        -- intros r' [Hr' | [<- | []]]%in_app_iff Hdear; [| split; (unfold new_price in *; lra)].
           destruct Hinv as [(-> & _ & _) | (r & _ & _ & -> & _ & Hmax)];
             [destruct Hr' |].
           specialize (Hmax Eb r' Hr'). (unfold new_price in *; lra).
        -- intros Hle r' [Hr' | [<- | []]]%in_app_iff; [| (unfold new_price in *; lra)].
           destruct Hinv as [(-> & _ & _) | (r & _ & _ & -> & _ & Hmax)];
             [destruct Hr' |].
           specialize (Hmax Eb r' Hr'). (unfold new_price in *; lra).
      * destruct Hinv as [(-> & -> & ->) | (r & -> & Hin & -> & Hmin & Hmax)];
          [unfold new_price in E; (unfold new_price in *; lra) |].
        apply IH. right. exists r. split; [reflexivity |].
        split; [apply in_app_iff; now left |].
        split; [reflexivity |]. split.
        -- intros r' [Hr' | [<- | []]]%in_app_iff Hdear; [now apply Hmin |].
           (unfold new_price in *; lra).
        -- intros Hle r' [Hr' | [<- | []]]%in_app_iff; [now apply Hmax |].
           (unfold new_price in *; lra).
Qed.

(** X24 (choose_plan_to_remove).  The plan that the subscribers of a
    removed plan are moved to, searched among candidates with prices above
    -1 for a removed plan priced at -1 or more: when some candidate is
    dearer than the removed plan it is the cheapest of the dearer ones (the
    next most expensive plan); when none is, it is the dearest
    candidate. *)
Theorem replacement_is_next_most_expensive (plans : list plan)
    (replacements : list nat) (exp_price : Q) :
  (-1 <= exp_price)%Q ->
  Forall (fun r => (-1 < plan_price (nth r plans no_plan))%Q) replacements ->
  replacements <> [] ->
  exists r,
    replacement_loop plans replacements exp_price (-1) None = Some r
    /\ In r replacements
    /\ (forall r', In r' replacements ->
                   (exp_price < plan_price (nth r' plans no_plan))%Q ->
                   (exp_price < plan_price (nth r plans no_plan))%Q
                   /\ (plan_price (nth r plans no_plan)
                       <= plan_price (nth r' plans no_plan))%Q)
    /\ ((plan_price (nth r plans no_plan) <= exp_price)%Q ->
        forall r', In r' replacements ->
                   (plan_price (nth r' plans no_plan)
                    <= plan_price (nth r plans no_plan))%Q).
Proof.
  intros Hexp Hprices Hne.
  destruct (replacement_loop_invariant plans exp_price replacements [] (-1) None
              Hexp Hprices) as [[E _] | H].
  - now left.
  - simpl in E. contradiction.
  - exact H.
Qed.

Lemma replacement_is_next_most_expensive_witness :
  exists r,
    replacement_loop four_wifi_plans [0; 2; 3]%nat 60 (-1) None = Some r
    /\ In r [0; 2; 3]%nat
    /\ (forall r', In r' [0; 2; 3]%nat ->
                   (60 < plan_price (nth r' four_wifi_plans no_plan))%Q ->
                   (60 < plan_price (nth r four_wifi_plans no_plan))%Q
                   /\ (plan_price (nth r four_wifi_plans no_plan)
                       <= plan_price (nth r' four_wifi_plans no_plan))%Q)
    /\ ((plan_price (nth r four_wifi_plans no_plan) <= 60)%Q ->
        forall r', In r' [0; 2; 3]%nat ->
                   (plan_price (nth r' four_wifi_plans no_plan)
                    <= plan_price (nth r four_wifi_plans no_plan))%Q).
Proof.
  apply (replacement_is_next_most_expensive four_wifi_plans [0; 2; 3]%nat 60).
  - cbn. lra.
  - repeat constructor.
  - discriminate.
Defined.

Lemma remaining_possibilities_In (plans possibilities : list plan) (candidate : plan) :
  In candidate (remaining_possibilities plans possibilities)
  <-> In candidate possibilities
      /\ forall own, In own plans -> deleted_possibility own candidate = false.
Proof.
  unfold remaining_possibilities. revert possibilities.
  induction plans as [| own rest IH]; intros possibilities; cbn [fold_left].
  - split; [intros H; split; [exact H | contradiction] | tauto].
  - rewrite IH, filter_In, negb_true_iff. split.
    + intros [[Hin Hown] Hrest]. split; [exact Hin |].
      intros own' [<- | H]; auto.
    + intros [Hin Hall]. split; [split; [exact Hin |] |]; auto using in_eq, in_cons.
Qed.

(** X25 (choose_plan_to_add).  For a firm with at least one plan, a plan of
    the competitor that is still a possibility after the deletions is on the
    market, is no mobile plan, and is similar to no wifi plan of the firm
    (same footprint and the firm's speed within 40% of its own). *)
Theorem remaining_possibilities_are_new (plans possibilities : list plan)
    (candidate : plan) :
  plans <> [] ->
  In candidate (remaining_possibilities plans possibilities) ->
  In candidate possibilities
  /\ plan_isp candidate <> PLAN_GONE
  /\ plan_service candidate <> mobile
  /\ forall own, In own plans -> ~ similar_wifi own candidate.
Proof.
  intros Hne Hin. apply remaining_possibilities_In in Hin as [Hin Hall].
  split; [exact Hin |].
  destruct plans as [| first rest]; [congruence |].
  pose proof (Hall first (or_introl eq_refl)) as Hfirst.
  unfold deleted_possibility in Hfirst.
  destruct (String.eqb_spec (plan_isp candidate) PLAN_GONE) as [| Hlive];
    [discriminate |].
  split; [exact Hlive |].
  destruct (service_eqb (plan_service candidate) mobile) eqn:Em; [discriminate |].
  split; [intros E; rewrite E in Em; discriminate |].
  intros own Hown (Ho & Hc & Hf & Hlo & Hhi).
  specialize (Hall own Hown). unfold deleted_possibility in Hall.
  destruct (String.eqb_spec (plan_isp candidate) PLAN_GONE); [discriminate |].
  rewrite Em, Ho, Hc in Hall. cbn [service_eqb andb] in Hall. cbv zeta in Hall.
  rewrite (proj2 (Qltb_true _ _) Hlo), (proj2 (Qltb_true _ _) Hhi), Hf,
    String.eqb_refl in Hall.
  discriminate.
Qed.

Lemma remaining_possibilities_are_new_witness :
  In urban_wifi_80 [urban_mobile_30; urban_wifi_80]
  /\ plan_isp urban_wifi_80 <> PLAN_GONE
  /\ plan_service urban_wifi_80 <> mobile
  /\ forall own, In own [slow_wifi_14] -> ~ similar_wifi own urban_wifi_80.
Proof.
  apply (remaining_possibilities_are_new [slow_wifi_14]
           [urban_mobile_30; urban_wifi_80] urban_wifi_80).
  - discriminate.
  - vm_compute. now left.
Defined.


(* ------------------------------------------------------------------ *)
(** ** Contemplators                                                     *)
(* ------------------------------------------------------------------ *)

Section Contemplators.
Context `{RandomModule}.

Lemma drawing_eq {A} (m : St draws A) (w : world) (a : A) (d : draws) :
  m (w_draws w) = Ok (a, d) -> drawing m w = Ok (a, with_draws w d).
Proof. intros E. unfold drawing. now rewrite E. Qed.

Lemma random_choice_in_range {A} (l : list A) (d : draws) :
  randbelow_in_range _ -> l <> [] ->
  exists a d', random_choice l d = Ok (a, d') /\ In a l.
Proof.
  intros Hgen Hne. unfold random_choice.
  destruct l as [| x l]; [congruence |].
  specialize (Hgen (length (x :: l)) (gen d) ltac:(simpl; lia)).
  destruct (rng_randbelow (length (x :: l)) (gen d)) as [k g]. simpl fst in Hgen.
  apply lookup_lt_is_Some_2 in Hgen as [a Ha]. rewrite Ha.
  exists a, (mkDraws g (add_to_seed d)). split; [reflexivity |].
  apply list_elem_of_In. eapply list_elem_of_lookup_2. exact Ha.
Qed.

Lemma numbered_In {A} (l : list A) (y : nat * A) :
  In y (combine (seq 0 (length l)) l) -> (fst y < length l)%nat.
Proof.
  intros Hin. destruct y as [n a]. apply in_combine_l in Hin.
  apply in_seq in Hin. simpl. lia.
Qed.

Lemma contemplators_loop_deserted (fuel : nat) (num : Z) (Seed : Z) (w : world) :
  randbelow_in_range _ ->
  (0 < num)%Z ->
  Forall (fun c => populated c = false) (w_grid w) ->
  length (w_grid w) = (100 * 100)%nat ->
  contemplators_loop fuel num Seed (mkSampling [] (repeat [] 100) (repeat [] 100) 0 0) w
  = OutOfFuel.
Proof.
  intros Hgen Hnum. revert w.
  induction fuel as [| fuel IH]; intros w Hgrid Hlen; cbn [contemplators_loop];
    cbn [contemplators num_iteration_repeats length rows cols];
    destruct (Z.ltb_spec (Z.of_nat 0) num) as [_ | Hge]; try lia;
    cbn [andb Nat.ltb Nat.leb]; [reflexivity |].
  change (0 <? 50)%nat with true. cbv iota.
  rewrite (st_bind_eq _ _ _ _ _ (drawing_eq _ _ _ _ eq_refl)).
  set (w1 := with_draws w _).
  destruct (random_choice_in_range
              (combine (seq 0 (length (repeat (@nil nat) 100))) (repeat (@nil nat) 100))
              (w_draws w1) Hgen) as (y & d2 & Hy & Hyin); [discriminate |].
  rewrite (st_bind_eq _ _ _ _ _ (drawing_eq _ _ _ _ Hy)).
  set (w2 := with_draws w1 d2).
  rewrite (st_bind_eq _ _ _ _ _ (drawing_eq _ _ _ _ eq_refl)).
  set (w3 := with_draws w2 _).
  destruct (random_choice_in_range
              (combine (seq 0 (length (repeat (@nil nat) 100))) (repeat (@nil nat) 100))
              (w_draws w3) Hgen) as (x & d4 & Hx & Hxin); [discriminate |].
  rewrite (st_bind_eq _ _ _ _ _ (drawing_eq _ _ _ _ Hx)).
  set (w4 := with_draws w3 d4).
  apply numbered_In in Hyin, Hxin. rewrite repeat_length in Hyin, Hxin.
  assert (Hcell : (cell_number (fst y) (fst x) < length (w_grid w))%nat)
    by (rewrite Hlen; unfold cell_number; lia).
  apply lookup_lt_is_Some_2 in Hcell as [c Hc].
  pose proof (Forall_lookup_1 _ _ _ _ Hgrid Hc) as Hpop. cbv beta in Hpop.
  assert (Hget : get_cell (cell_number (fst y) (fst x)) w4 = Ok (c, w4)).
  { unfold get_cell, subscript. cbn [w4 w3 w2 w1 with_draws w_grid]. now rewrite Hc. }
  rewrite (st_bind_eq _ _ _ _ _ Hget), Hpop.
  apply IH; assumption.
Qed.

(** X26 (choose_contemplators).  On a grid without a populated cell, and
    asked for at least one contemplator, [choose_contemplators] never
    returns: a draw that falls on an empty cell changes neither the list of
    contemplators nor the counter of repeats, so the loop condition stays
    true.  (The generator is assumed to draw below its bound.) *)
Theorem choose_contemplators_never_returns_on_empty_grid (fuel : nat)
    (num_imaginary_problems : Z) (Seed : Z) (w : world) :
  randbelow_in_range _ ->
  (0 < num_imaginary_problems)%Z ->
  Forall (fun c => populated c = false) (w_grid w) ->
  length (w_grid w) = (100 * 100)%nat ->
  choose_contemplators fuel num_imaginary_problems Seed w = OutOfFuel.
Proof.
  intros Hgen Hnum Hgrid Hlen. unfold choose_contemplators.
  destruct (Z.ltb_spec num_imaginary_problems 0) as [Hneg | _]; [lia |].
  cbv zeta. unfold st_bind.
  rewrite contemplators_loop_deserted; try assumption; [reflexivity |].
  destruct (num_imaginary_problems >? 100 * 100)%Z; lia.
Qed.
End Contemplators.

Lemma choose_contemplators_never_returns_on_empty_grid_witness :
  @choose_contemplators (constant_random 0.3 0) 5 3 7 deserted_world = OutOfFuel.
Proof.
  apply (@choose_contemplators_never_returns_on_empty_grid (constant_random 0.3 0)).
  - apply constant_random_randbelow_in_range.
  - lia.
  - exact deserted_grid_unpopulated.
  - exact deserted_grid_length.
Defined.


(* ------------------------------------------------------------------ *)
(** ** The population structures                                         *)
(* ------------------------------------------------------------------ *)

Lemma list_sum_increment (l : list nat) (i m : nat) :
  l !! i = Some m -> list_sum (<[i := S m]> l) = S (list_sum l).
Proof.
  revert i. induction l as [| x l IH]; intros i Hi; [now rewrite lookup_nil in Hi |].
  destruct i as [| i]; simpl in Hi.
  - injection Hi as ->. cbn. lia.
  - change (list_sum (x :: <[i := S m]> l) = S (list_sum (x :: l))).
    unfold list_sum in *. cbn [fold_right]. rewrite (IH i Hi). lia.
Qed.

Lemma count_up_total (structure populations : list nat) :
  Forall (fun q => (q <= length populations)%nat) structure ->
  exists populations',
    count_up populations structure = Ok populations'
    /\ length populations' = length populations
    /\ list_sum populations'
       = (list_sum populations
          + length (List.filter (fun q => negb (q =? 0)%nat) structure))%nat.
Proof.
  intros Hq. revert populations Hq.
  induction structure as [| q rest IH]; intros populations Hq.
  - exists populations. simpl. split; [reflexivity | split; [reflexivity | lia]].
  - apply Forall_cons in Hq as [Hq Hrest]. cbn [count_up List.filter].
    destruct (Nat.eqb_spec q 0) as [-> | Hne]; cbn [negb].
    + destruct (IH populations Hrest) as (p' & E & Hlen & Hsum).
      exists p'. now rewrite E.
    + assert (Hlt : (q - 1 < length populations)%nat) by lia.
      apply lookup_lt_is_Some_2 in Hlt as [n Hn].
      unfold subscript. rewrite Hn. cbn [res_bind].
      destruct (IH (<[(q - 1)%nat := S n]> populations)) as (p' & E & Hlen & Hsum).
      { eapply Forall_impl; [exact Hrest |]. intros x Hx. simpl in Hx.
        now rewrite length_insert. }
      exists p'. rewrite E. split; [reflexivity |].
      rewrite length_insert in Hlen. split; [exact Hlen |].
      rewrite Hsum. cbn [length].
      rewrite (list_sum_increment _ _ _ Hn). lia.
Qed.

Lemma RA_structure_count {P} (grid : list (person P)) (start : nat) :
  length (List.filter (fun q => negb (q =? 0)%nat)
            (map (fun kc : nat * person P =>
                    if populated (snd kc) then remoteness_area (fst kc) else 0%nat)
                 (combine (seq start (length grid)) grid)))
  = length (List.filter populated grid).
Proof.
  revert start. induction grid as [| c rest IH]; intros start; [reflexivity |].
  cbn [length seq combine map List.filter fst snd].
  destruct (populated c).
  - assert (Hra : (remoteness_area start =? 0)%nat = false).
    { unfold remoteness_area. cbv zeta.
      destruct (_ && _); [reflexivity |]. now destruct (_ && _). }
    rewrite Hra. cbn [negb length]. now rewrite IH.
  - cbn [Nat.eqb negb]. apply IH.
Qed.

Lemma combine_seq_at {A} (l : list A) (start k : nat) (c : A) :
  l !! k = Some c ->
  combine (seq start (length l)) l !! k = Some ((start + k)%nat, c).
Proof.
  revert start k. induction l as [| a rest IH]; intros start k Hc;
    [now rewrite lookup_nil in Hc |].
  destruct k as [| k]; simpl in Hc |- *.
  - injection Hc as ->. now rewrite Nat.add_0_r.
  - rewrite (IH (S start) k Hc). f_equal. f_equal. lia.
Qed.

Lemma remoteness_area_of_quad (k : nat) :
  remoteness_area k = area_of_quad (quad_of (k / 100, k mod 100)%nat).
Proof.
  unfold remoteness_area, quad_of, area_of_quad. cbn [fst snd]. cbv zeta.
  destruct (Nat.ltb_spec (k / 100) 50), (Nat.ltb_spec (k mod 100) 50),
    (Nat.leb_spec 50 (k / 100)), (Nat.leb_spec 50 (k mod 100));
    try lia; reflexivity.
Qed.

(** X27 (initialise_RA_structures).  On a grid of 100 x 100 cells the
    function never fails.  A populated cell is given the remoteness area of
    the quadrant that decides which plans are offered to it (1 for quadrant
    0, 2 for quadrants 1 and 2, 3 for quadrant 3), an empty cell 0, and the
    populations of the three areas add up to the number of populated
    cells. *)
Theorem RA_populations_add_up {P} (grid : list (person P)) :
  length grid = (100 * 100)%nat ->
  exists RA_structure urban regional remote,
    initialise_RA_structures grid = Ok (RA_structure, [urban; regional; remote])
    /\ (forall k c, grid !! k = Some c ->
          RA_structure !! k
          = Some (if populated c
                  then area_of_quad (quad_of (k / 100, k mod 100)%nat)
                  else 0%nat))
    /\ (urban + regional + remote)%nat = length (List.filter populated grid).
Proof.
  intros _. unfold initialise_RA_structures. cbv zeta.
  set (RA := map _ _).
  destruct (count_up_total RA [0; 0; 0]%nat) as (pops & E & Hlen & Hsum).
  { unfold RA. apply Forall_forall. intros q Hq%list_elem_of_In%in_map_iff.
    destruct Hq as ([k c] & <- & _). cbn [fst snd length].
    destruct (populated c); [| lia]. unfold remoteness_area. cbv zeta.
    destruct (_ && _); [lia |]. destruct (_ && _); lia. }
  destruct pops as [| u [| g [| r [| ? ?]]]]; try discriminate.
  exists RA, u, g, r. rewrite E. split; [reflexivity |]. split.
  - intros k c Hc. unfold RA. rewrite list_lookup_fmap.
    rewrite (combine_seq_at grid 0 k c Hc).
    cbn [fmap option_fmap option_map fst snd Nat.add].
    now rewrite remoteness_area_of_quad.
  - unfold list_sum in Hsum. cbn [fold_right Nat.add] in Hsum.
    replace (u + g + r)%nat with (u + (g + (r + 0)))%nat by lia. rewrite Hsum.
    unfold RA. apply RA_structure_count.
Qed.

Lemma lone_household_grid_length : length lone_household_grid = (100 * 100)%nat.
Proof. unfold lone_household_grid. now rewrite length_insert, deserted_grid_length. Qed.

Lemma lone_household_grid_populated :
  Exists (fun c => populated c = true) lone_household_grid.
Proof.
  apply Exists_exists.
  exists (mkPerson (50, 50)%nat true 3000.75 (None, None) None). split; [| reflexivity].
  apply (list_elem_of_lookup_2 _ (cell_number 50 50)). unfold lone_household_grid.
  apply list_lookup_insert_eq. rewrite deserted_grid_length. unfold cell_number. lia.
Qed.

Lemma RA_populations_add_up_witness :
  exists RA_structure urban regional remote,
    initialise_RA_structures lone_household_grid
    = Ok (RA_structure, [urban; regional; remote])
    /\ (forall k c, lone_household_grid !! k = Some c ->
          RA_structure !! k
          = Some (if populated c
                  then area_of_quad (quad_of (k / 100, k mod 100)%nat)
                  else 0%nat))
    /\ (urban + regional + remote)%nat
       = length (List.filter populated lone_household_grid).
Proof.
  apply (RA_populations_add_up lone_household_grid). exact lone_household_grid_length.
Defined.

Lemma insert_income_In (x y : Q) (l : list Q) :
  In y (insert_income x l) <-> y = x \/ In y l.
Proof.
  induction l as [| z rest IH]; simpl; [intuition |].
  destruct (Qle_bool x z); simpl; [intuition |]. rewrite IH. intuition.
Qed.

Lemma insert_income_length (x : Q) (l : list Q) :
  length (insert_income x l) = S (length l).
Proof.
  induction l as [| z rest IH]; simpl; [reflexivity |].
  destruct (Qle_bool x z); simpl; now rewrite ?IH.
Qed.

Lemma sorted_incomes_length (l : list Q) : length (sorted_incomes l) = length l.
Proof.
  induction l as [| x l IH]; simpl; [reflexivity |].
  now rewrite insert_income_length, IH.
Qed.

Lemma insert_income_sorted (x : Q) (l : list Q) :
  non_decreasing l -> non_decreasing (insert_income x l).
Proof.
  induction l as [| z rest IH]; intros Hl; simpl.
  - split; [constructor | exact I].
  - destruct Hl as [Hz Hrest].
    destruct (Qle_bool x z) eqn:E; [apply Qle_bool_iff in E | apply Qle_bool_false in E].
    + split; [| split; assumption].
      constructor; [exact E |].
      eapply Forall_impl; [exact Hz |]. intros b Hb. simpl in Hb. lra.
    + split; [| now apply IH].
      apply Forall_forall. intros b Hb%list_elem_of_In%insert_income_In.
      destruct Hb as [-> | Hb]; [lra |].
      rewrite Forall_forall in Hz. now apply Hz, list_elem_of_In.
Qed.

Lemma sorted_incomes_sorted (l : list Q) : non_decreasing (sorted_incomes l).
Proof.
  induction l as [| x l IH]; simpl; [exact I | now apply insert_income_sorted].
Qed.

Lemma non_decreasing_lookup (l : list Q) (i j : nat) (a b : Q) :
  non_decreasing l -> l !! i = Some a -> l !! j = Some b -> (i <= j)%nat ->
  (a <= b)%Q.
Proof.
  revert i j. induction l as [| x l IH]; intros i j Hl Hi Hj Hij;
    [now rewrite lookup_nil in Hi |].
  destruct Hl as [Hx Hl]. destruct i as [| i], j as [| j]; simpl in Hi, Hj; try lia.
  - injection Hi as <-. injection Hj as <-. lra.
  - injection Hi as <-. rewrite Forall_forall in Hx.
    apply Hx. eapply list_elem_of_lookup_2. exact Hj.
  - apply (IH i j); auto. lia.
Qed.

Lemma py_int_monotone (x y : Q) : (x <= y)%Q -> (py_int x <= py_int y)%Z.
Proof.
  intros Hxy. unfold py_int.
  destruct (Qle_bool 0 x) eqn:Ex; [apply Qle_bool_iff in Ex | apply Qle_bool_false in Ex];
    (destruct (Qle_bool 0 y) eqn:Ey;
     [apply Qle_bool_iff in Ey | apply Qle_bool_false in Ey]).
  - now apply Qfloor_resp_le.
  - lra.
  - assert (Qceiling x <= Qceiling 0)%Z by (apply Qceiling_resp_le; lra).
    assert (Qfloor 0 <= Qfloor y)%Z by (apply Qfloor_resp_le; lra).
    change (Qceiling 0) with 0%Z in *. change (Qfloor 0) with 0%Z in *. lia.
  - now apply Qceiling_resp_le.
Qed.

Lemma quintile_thresholds_found {P} (grid : list (person P)) :
  Exists (fun c => populated c = true) grid ->
  exists t0 t1 t2 t3 t4 : Z,
    find_the_quintiles grid = Ok [t0; t1; t2; t3; t4]
    /\ (t0 <= t1)%Z /\ (t1 <= t2)%Z /\ (t2 <= t3)%Z /\ (t3 <= t4)%Z.
Proof.
  intros Hpop. unfold find_the_quintiles. cbv zeta.
  set (incomes := sorted_incomes _).
  assert (Hsorted : non_decreasing incomes) by apply sorted_incomes_sorted.
  assert (Hlen : (0 < length incomes)%nat).
  { unfold incomes. rewrite sorted_incomes_length, length_map.
    apply Exists_exists in Hpop as (c & Hc & Hp).
    assert (Hin : In c (List.filter populated grid))
      by (apply filter_In; split; [now apply list_elem_of_In | exact Hp]).
    destruct (List.filter populated grid); [destruct Hin | simpl; lia]. }
  set (n := length incomes) in *. set (q := (n / 5)%nat).
  assert (Hq : (5 * q <= n)%nat) by (apply Nat.Div0.mul_div_le).
  assert (Hidx : forall i, (i < 4)%nat -> (q * (i + 1) < n)%nat) by (intros i Hi; nia).
  assert (Hget : forall i, (i < 4)%nat ->
                   exists x, incomes !! (q * (i + 1))%nat = Some x).
  { intros i Hi. apply lookup_lt_is_Some_2. now apply Hidx. }
  destruct (Hget 0%nat ltac:(lia)) as [x0 H0], (Hget 1%nat ltac:(lia)) as [x1 H1],
    (Hget 2%nat ltac:(lia)) as [x2 H2], (Hget 3%nat ltac:(lia)) as [x3 H3].
  assert (Hlast : exists x4, last incomes = Some x4
                             /\ incomes !! (n - 1)%nat = Some x4).
  { rewrite last_lookup. fold n. replace (pred n) with (n - 1)%nat by lia.
    destruct (lookup_lt_is_Some_2 incomes (n - 1)) as [x4 H4]; [fold n; lia |].
    now exists x4. }
  destruct Hlast as (x4 & Hlast & H4).
  exists (py_int x0), (py_int x1), (py_int x2), (py_int x3), (py_int x4).
  split.
  - cbn [seq res_map]. unfold subscript.
    rewrite H0, H1, H2, H3. cbn [res_bind]. now rewrite Hlast.
  - repeat split; apply py_int_monotone.
    + apply (non_decreasing_lookup incomes _ _ _ _ Hsorted H0 H1). nia.
    + apply (non_decreasing_lookup incomes _ _ _ _ Hsorted H1 H2). nia.
    + apply (non_decreasing_lookup incomes _ _ _ _ Hsorted H2 H3). nia.
    + apply (non_decreasing_lookup incomes _ _ _ _ Hsorted H3 H4).
      specialize (Hidx 3%nat ltac:(lia)). lia.
Qed.

(** X28 (find_the_quintiles).  On a grid of 100 x 100 cells with at least
    one populated cell the income thresholds are found: there are five of
    them, in non-decreasing order. *)
Theorem quintile_thresholds_are_ordered {P} (grid : list (person P)) :
  length grid = (100 * 100)%nat ->
  Exists (fun c => populated c = true) grid ->
  exists t0 t1 t2 t3 t4 : Z,
    find_the_quintiles grid = Ok [t0; t1; t2; t3; t4]
    /\ (t0 <= t1)%Z /\ (t1 <= t2)%Z /\ (t2 <= t3)%Z /\ (t3 <= t4)%Z.
Proof. intros _. apply quintile_thresholds_found. Qed.


Lemma quintile_thresholds_are_ordered_witness :
  exists t0 t1 t2 t3 t4 : Z,
    find_the_quintiles lone_household_grid = Ok [t0; t1; t2; t3; t4]
    /\ (t0 <= t1)%Z /\ (t1 <= t2)%Z /\ (t2 <= t3)%Z /\ (t3 <= t4)%Z.
Proof.
  apply (quintile_thresholds_are_ordered lone_household_grid).
  - exact lone_household_grid_length.
  - exact lone_household_grid_populated.
Defined.

Lemma no_incomes {P} (grid : list (person P)) :
  Forall (fun c => populated c = false) grid ->
  List.filter populated grid = [].
Proof.
  induction 1 as [| c rest Hc Hrest IH]; simpl; [reflexivity |]. now rewrite Hc.
Qed.

Lemma quintiles_need_a_population {P} (grid : list (person P)) :
  Forall (fun c => populated c = false) grid ->
  find_the_quintiles grid = Raise IndexError.
Proof.
  intros Hgrid. unfold find_the_quintiles. now rewrite (no_incomes grid Hgrid).
Qed.

(** X29 (find_the_quintiles, initialise_quintile_structures,
    simulate_market_dynamics).  On a grid of 100 x 100 cells none of which
    is populated there is no income to take a threshold from:
    [find_the_quintiles] and [initialise_quintile_structures] fail with an
    [IndexError], and so does [simulate_market_dynamics], before its first
    month, whatever the parameters and the random generator. *)
Theorem simulation_needs_a_population `{RandomModule}
    (update : list (ISP nat) -> list plan -> list (person nat) -> result unit)
    (fuel : nat) (p : parameters) (w : world) :
  length (w_grid w) = (100 * 100)%nat ->
  Forall (fun c => populated c = false) (w_grid w) ->
  find_the_quintiles (w_grid w) = Raise IndexError
  /\ initialise_quintile_structures (w_grid w) = Raise IndexError
  /\ @simulate_market_dynamics _ (counting_reporting update) fuel p w
     = Raise IndexError.
Proof.
  intros _ Hgrid.
  pose proof (quintiles_need_a_population (w_grid w) Hgrid) as E.
  assert (E' : initialise_quintile_structures (w_grid w) = Raise IndexError)
    by (unfold initialise_quintile_structures; now rewrite E).
  split; [exact E |]. split; [exact E' |].
  unfold simulate_market_dynamics, simulate_market_dynamics_upto, st_bind, st_get,
    st_lift.
  cbn [initialise_report_structures counting_reporting].
  now rewrite E'.
Qed.

Lemma simulation_needs_a_population_witness :
  find_the_quintiles (w_grid deserted_world) = Raise IndexError
  /\ initialise_quintile_structures (w_grid deserted_world) = Raise IndexError
  /\ @simulate_market_dynamics (constant_random 0.3 0)
       (counting_reporting (fun _ _ _ => Ok tt)) 5 lone_firm_parameters deserted_world
     = Raise IndexError.
Proof.
  apply (@simulation_needs_a_population (constant_random 0.3 0)).
  - exact deserted_grid_length.
  - exact deserted_grid_unpopulated.
Defined.

Lemma quintile_of_range (t0 t1 t2 t3 t4 : Z) (income : Q) :
  exists q, quintile_of [t0; t1; t2; t3; t4] income = Ok q
            /\ (1 <= q)%nat /\ (q <= 5)%nat.
Proof.
  unfold quintile_of, subscript. cbn [lookup list_lookup res_bind].
  repeat match goal with |- context [Qltb ?a ?b] => destruct (Qltb a b) end;
    eexists; (split; [reflexivity | lia]).
Qed.

(** X30 (initialise_quintile_structures).  On a grid of 100 x 100 cells
    with at least one populated cell the function returns: every cell has
    its quintile (0 if it is empty), there are five quintile populations,
    and they add up to the total population, which is the number of
    populated cells. *)
Theorem quintile_populations_add_up {P} (grid : list (person P)) :
  length grid = (100 * 100)%nat ->
  Exists (fun c => populated c = true) grid ->
  exists quintile_structure populations,
    initialise_quintile_structures grid
    = Ok (quintile_structure, populations, length (List.filter populated grid))
    /\ length quintile_structure = length grid
    /\ length populations = 5%nat
    /\ list_sum populations = length (List.filter populated grid).
Proof.
  intros _ Hpop. unfold initialise_quintile_structures.
  destruct (quintile_thresholds_found grid Hpop)
    as (t0 & t1 & t2 & t3 & t4 & -> & _).
  cbn [res_bind]. cbv zeta.
  assert (Hstruct : exists structure,
            res_map (fun c => if populated c
                              then quintile_of [t0; t1; t2; t3; t4] (income c)
                              else Ok 0%nat) grid = Ok structure
            /\ length structure = length grid
            /\ Forall (fun q => (q <= 5)%nat) structure
            /\ length (List.filter (fun q => negb (q =? 0)%nat) structure)
               = length (List.filter populated grid)).
  { clear Hpop. induction grid as [| c rest IH].
    - exists []. repeat split; constructor.
    - destruct IH as (structure & E & Hlen & Hle & Hcount).
      cbn [res_map List.filter]. destruct (populated c).
      + destruct (quintile_of_range t0 t1 t2 t3 t4 (income c)) as (q & -> & H1 & H5).
        cbn [res_bind]. rewrite E. cbn [res_bind].
        exists (q :: structure). split; [reflexivity |].
        split; [simpl; now rewrite Hlen |]. split; [now constructor |].
        cbn [List.filter]. destruct (Nat.eqb_spec q 0); [lia |].
        cbn [negb length]. now rewrite Hcount.
      + cbn [res_bind]. rewrite E. cbn [res_bind].
        exists (0%nat :: structure). split; [reflexivity |].
        split; [simpl; now rewrite Hlen |]. split; [constructor; [lia | exact Hle] |].
        exact Hcount. }
  destruct Hstruct as (structure & -> & Hlen & Hle & Hcount). cbn [res_bind].
  destruct (count_up_total structure (repeat 0%nat (length [t0; t1; t2; t3; t4])))
    as (pops & -> & Hplen & Hsum).
  { rewrite repeat_length. exact Hle. }
  cbn [res_bind]. exists structure, pops. split; [reflexivity |].
  split; [exact Hlen |]. split; [now rewrite Hplen, repeat_length |].
  rewrite Hsum, Hcount. reflexivity.
Qed.

Lemma quintile_populations_add_up_witness :
  exists quintile_structure populations,
    initialise_quintile_structures lone_household_grid
    = Ok (quintile_structure, populations,
          length (List.filter populated lone_household_grid))
    /\ length quintile_structure = length lone_household_grid
    /\ length populations = 5%nat
    /\ list_sum populations = length (List.filter populated lone_household_grid).
Proof.
  apply (quintile_populations_add_up lone_household_grid).
  - exact lone_household_grid_length.
  - exact lone_household_grid_populated.
Defined.
